(** * SaneAudioRenderer: the streaming core of [AudioRenderer.cpp]

    A shallow embedding of [SaneAudioRenderer::AudioRenderer] and the
    properties of its state machine, device-session life cycle, push loop
    and drain wait.

    The renderer talks to collaborators whose code lives elsewhere (the
    WASAPI device, the clock, the settings object, the DSP stages, the
    timing correction).  Their answers are inputs of the model; the calls
    the renderer makes on them are recorded, in order, in a call log that
    is part of the renderer state.

    Member functions are run one at a time: the object lock makes each
    locked block atomic, and of what another thread may do while [Push] or
    the drain wait sleeps without the lock, only the raising of the flush
    event is represented.  Assertions are compiled in. *)

From Stdlib Require Import ZArith List Bool Lia String.
From Stdlib.Init Require Import Byte.
Import ListNotations.
Open Scope Z_scope.

(* ================================================================== *)
(** ** Machine integers *)

Module Int.

Definition UINT32 (z : Z) : Z := z mod 2 ^ 32.
Definition UINT64 (z : Z) : Z := z mod 2 ^ 64.

(** Conversion to a signed type of the given width (two's complement). *)
Definition int32_t (z : Z) : Z := (z + 2 ^ 31) mod 2 ^ 32 - 2 ^ 31.
Definition int64_t (z : Z) : Z := (z + 2 ^ 63) mod 2 ^ 64 - 2 ^ 63.

Definition INT64_MAX : Z := 2 ^ 63 - 1.
Definition INT64_MIN : Z := - 2 ^ 63.


End Int.
Import Int.

(** [HRESULT]: negative values are failures. *)
Definition HRESULT := Z.
Definition S_OK : HRESULT := 0.
Definition E_FAIL : HRESULT := -2147467259.
Definition SUCCEEDED (hr : HRESULT) : bool := 0 <=? hr.
Definition FAILED (hr : HRESULT) : bool := hr <? 0.

(** [REFERENCE_TIME] counts 100 ns units in a signed 64-bit integer.
    Signed overflow is undefined in C++, so reference-time arithmetic is
    carried out in [Z]; only the explicit casts of the source wrap.  Where
    a sum, difference or product of reference times leaves the 64-bit
    range the source has no defined value, and the value of the model
    stands for none. *)
Definition REFERENCE_TIME := Z.

(** Modelled from the spec: [OneSecond] and [MILLISECONDS_TO_100NS_UNITS]
    are declared in headers outside this translation unit; with time
    counted in 100 ns units a second is 10^7 units and a millisecond 10^4. *)
Definition OneSecond : Z := 10000000.
Definition MILLISECONDS_TO_100NS_UNITS (ms : Z) : Z := ms * 10000.

(** Modelled from the spec: [llMulDiv] is the DirectShow base-class helper
    computing [(a * b + d) / c] with a 128-bit intermediate product,
    truncating, and saturating when the quotient does not fit (which
    includes division by zero). *)
Definition llMulDiv (a b c d : Z) : Z :=
  if c =? 0 then (if a * b + d <? 0 then INT64_MIN else INT64_MAX)
  else
    let q := Z.quot (a * b + d) c in
    if INT64_MAX <? q then INT64_MAX
    else if q <? INT64_MIN then INT64_MIN
    else q.

(* ================================================================== *)
(** ** Data model *)

Inductive FILTER_STATE : Type :=
| State_Stopped
| State_Paused
| State_Running.

Definition state_eqb (a b : FILTER_STATE) : bool :=
  match a, b with
  | State_Stopped, State_Stopped
  | State_Paused, State_Paused
  | State_Running, State_Running => true
  | _, _ => false
  end.

(** The fields of [WAVEFORMATEX] the renderer reads. *)
Record WaveFormat : Type := {
  nSamplesPerSec : Z;
  nChannels : Z;
  wBitsPerSample : Z
}.

(** [AudioDevice]: one opened output (the device session). *)
Record AudioDevice : Type := {
  settingsSerial : Z;
  exclusive : bool;
  bitstream : bool;
  friendlyName : string;
  default : bool;
  waveFormat : WaveFormat;
  dspFormat : nat
}.

Definition with_settingsSerial (serial : Z) (d : AudioDevice) : AudioDevice :=
  {| settingsSerial := serial;
     exclusive := exclusive d;
     bitstream := bitstream d;
     friendlyName := friendlyName d;
     default := default d;
     waveFormat := waveFormat d;
     dspFormat := dspFormat d |}.

(** Modelled from the spec: [DspChunk] is declared outside this file.  A
    chunk is a buffer of interleaved frames with a frame size and a frame
    count; it is empty when it holds zero frames, and a default-constructed
    chunk is empty. *)
Record DspChunk : Type := {
  frameSize : Z;
  frameCount : Z;
  constData : list byte
}.

Definition DspChunk_default : DspChunk :=
  {| frameSize := 0; frameCount := 0; constData := [] |}.

Definition IsEmpty (c : DspChunk) : bool := frameCount c =? 0.
Definition GetFrameSize (c : DspChunk) : Z := frameSize c.
Definition GetFrameCount (c : DspChunk) : Z := frameCount c.

(** A reference-clock pointer: null, the renderer's own clock, or a clock
    supplied by the host, identified by its address. *)
Inductive ClockRef : Type :=
| NullClock
| MyClock
| HostClock (address : nat).

Definition ClockRef_eqb (a b : ClockRef) : bool :=
  match a, b with
  | NullClock, NullClock => true
  | MyClock, MyClock => true
  | HostClock x, HostClock y => Nat.eqb x y
  | _, _ => false
  end.

(** Calls made on the collaborators, in program order. *)
Inductive Call : Type :=
| AudioClient_Start
| AudioClient_Stop
| AudioClient_Reset
| RenderClient_Write (doFrames : Z) (bytes : list byte)
| Clock_SlaveClockToAudio (start : REFERENCE_TIME)
| Clock_UnslaveClockFromAudio
| Clock_OffsetSlavedClock (offset : REFERENCE_TIME)
| DspRate_Adjust (offset : REFERENCE_TIME)
| Dsp_Initialize (stage : string)
| TimingsCorrection_SetFormat
| TimingsCorrection_NewSegment
| DeviceManager_ReleaseDevice
| Flush_Wait (milliseconds : Z).

(** The members of [AudioRenderer] and the two events it shares with its
    owner.  [m_rate] holds the bit pattern of the [double]; no arithmetic
    is done on it here.  [m_pushedFrames] is a [uint64_t]. *)
Record AudioRenderer : Type := {
  m_state : FILTER_STATE;
  m_inputFormat : option WaveFormat;
  m_device : option AudioDevice;
  m_graphClock : ClockRef;
  m_externalClock : bool;
  m_flush : bool;
  m_bufferFilled : bool;
  m_pushedFrames : Z;
  m_startTime : REFERENCE_TIME;
  m_startClockOffset : REFERENCE_TIME;
  m_correctedWithRateDsp : REFERENCE_TIME;
  m_rate : Z;
  calls : list Call
}.

(** A renderer right after construction. *)
Definition constructed : AudioRenderer :=
  {| m_state := State_Stopped;
     m_inputFormat := None;
     m_device := None;
     m_graphClock := MyClock;
     m_externalClock := false;
     m_flush := false;
     m_bufferFilled := false;
     m_pushedFrames := 0;
     m_startTime := 0;
     m_startClockOffset := 0;
     m_correctedWithRateDsp := 0;
     m_rate := 0;
     calls := [] |}.

Module Upd.

Definition state (v : FILTER_STATE) (r : AudioRenderer) : AudioRenderer :=
  {| m_state := v; m_inputFormat := m_inputFormat r; m_device := m_device r;
     m_graphClock := m_graphClock r; m_externalClock := m_externalClock r;
     m_flush := m_flush r; m_bufferFilled := m_bufferFilled r;
     m_pushedFrames := m_pushedFrames r; m_startTime := m_startTime r;
     m_startClockOffset := m_startClockOffset r;
     m_correctedWithRateDsp := m_correctedWithRateDsp r;
     m_rate := m_rate r; calls := calls r |}.

Definition inputFormat (v : option WaveFormat) (r : AudioRenderer) : AudioRenderer :=
  {| m_state := m_state r; m_inputFormat := v; m_device := m_device r;
     m_graphClock := m_graphClock r; m_externalClock := m_externalClock r;
     m_flush := m_flush r; m_bufferFilled := m_bufferFilled r;
     m_pushedFrames := m_pushedFrames r; m_startTime := m_startTime r;
     m_startClockOffset := m_startClockOffset r;
     m_correctedWithRateDsp := m_correctedWithRateDsp r;
     m_rate := m_rate r; calls := calls r |}.

Definition device (v : option AudioDevice) (r : AudioRenderer) : AudioRenderer :=
  {| m_state := m_state r; m_inputFormat := m_inputFormat r; m_device := v;
     m_graphClock := m_graphClock r; m_externalClock := m_externalClock r;
     m_flush := m_flush r; m_bufferFilled := m_bufferFilled r;
     m_pushedFrames := m_pushedFrames r; m_startTime := m_startTime r;
     m_startClockOffset := m_startClockOffset r;
     m_correctedWithRateDsp := m_correctedWithRateDsp r;
     m_rate := m_rate r; calls := calls r |}.

Definition graphClock (v : ClockRef) (r : AudioRenderer) : AudioRenderer :=
  {| m_state := m_state r; m_inputFormat := m_inputFormat r; m_device := m_device r;
     m_graphClock := v; m_externalClock := m_externalClock r;
     m_flush := m_flush r; m_bufferFilled := m_bufferFilled r;
     m_pushedFrames := m_pushedFrames r; m_startTime := m_startTime r;
     m_startClockOffset := m_startClockOffset r;
     m_correctedWithRateDsp := m_correctedWithRateDsp r;
     m_rate := m_rate r; calls := calls r |}.

Definition externalClock (v : bool) (r : AudioRenderer) : AudioRenderer :=
  {| m_state := m_state r; m_inputFormat := m_inputFormat r; m_device := m_device r;
     m_graphClock := m_graphClock r; m_externalClock := v;
     m_flush := m_flush r; m_bufferFilled := m_bufferFilled r;
     m_pushedFrames := m_pushedFrames r; m_startTime := m_startTime r;
     m_startClockOffset := m_startClockOffset r;
     m_correctedWithRateDsp := m_correctedWithRateDsp r;
     m_rate := m_rate r; calls := calls r |}.

Definition flush (v : bool) (r : AudioRenderer) : AudioRenderer :=
  {| m_state := m_state r; m_inputFormat := m_inputFormat r; m_device := m_device r;
     m_graphClock := m_graphClock r; m_externalClock := m_externalClock r;
     m_flush := v; m_bufferFilled := m_bufferFilled r;
     m_pushedFrames := m_pushedFrames r; m_startTime := m_startTime r;
     m_startClockOffset := m_startClockOffset r;
     m_correctedWithRateDsp := m_correctedWithRateDsp r;
     m_rate := m_rate r; calls := calls r |}.

Definition bufferFilled (v : bool) (r : AudioRenderer) : AudioRenderer :=
  {| m_state := m_state r; m_inputFormat := m_inputFormat r; m_device := m_device r;
     m_graphClock := m_graphClock r; m_externalClock := m_externalClock r;
     m_flush := m_flush r; m_bufferFilled := v;
     m_pushedFrames := m_pushedFrames r; m_startTime := m_startTime r;
     m_startClockOffset := m_startClockOffset r;
     m_correctedWithRateDsp := m_correctedWithRateDsp r;
     m_rate := m_rate r; calls := calls r |}.

Definition pushedFrames (v : Z) (r : AudioRenderer) : AudioRenderer :=
  {| m_state := m_state r; m_inputFormat := m_inputFormat r; m_device := m_device r;
     m_graphClock := m_graphClock r; m_externalClock := m_externalClock r;
     m_flush := m_flush r; m_bufferFilled := m_bufferFilled r;
     m_pushedFrames := v; m_startTime := m_startTime r;
     m_startClockOffset := m_startClockOffset r;
     m_correctedWithRateDsp := m_correctedWithRateDsp r;
     m_rate := m_rate r; calls := calls r |}.

Definition startTime (v : REFERENCE_TIME) (r : AudioRenderer) : AudioRenderer :=
  {| m_state := m_state r; m_inputFormat := m_inputFormat r; m_device := m_device r;
     m_graphClock := m_graphClock r; m_externalClock := m_externalClock r;
     m_flush := m_flush r; m_bufferFilled := m_bufferFilled r;
     m_pushedFrames := m_pushedFrames r; m_startTime := v;
     m_startClockOffset := m_startClockOffset r;
     m_correctedWithRateDsp := m_correctedWithRateDsp r;
     m_rate := m_rate r; calls := calls r |}.

Definition startClockOffset (v : REFERENCE_TIME) (r : AudioRenderer) : AudioRenderer :=
  {| m_state := m_state r; m_inputFormat := m_inputFormat r; m_device := m_device r;
     m_graphClock := m_graphClock r; m_externalClock := m_externalClock r;
     m_flush := m_flush r; m_bufferFilled := m_bufferFilled r;
     m_pushedFrames := m_pushedFrames r; m_startTime := m_startTime r;
     m_startClockOffset := v;
     m_correctedWithRateDsp := m_correctedWithRateDsp r;
     m_rate := m_rate r; calls := calls r |}.

Definition correctedWithRateDsp (v : REFERENCE_TIME) (r : AudioRenderer) : AudioRenderer :=
  {| m_state := m_state r; m_inputFormat := m_inputFormat r; m_device := m_device r;
     m_graphClock := m_graphClock r; m_externalClock := m_externalClock r;
     m_flush := m_flush r; m_bufferFilled := m_bufferFilled r;
     m_pushedFrames := m_pushedFrames r; m_startTime := m_startTime r;
     m_startClockOffset := m_startClockOffset r;
     m_correctedWithRateDsp := v;
     m_rate := m_rate r; calls := calls r |}.

Definition rate (v : Z) (r : AudioRenderer) : AudioRenderer :=
  {| m_state := m_state r; m_inputFormat := m_inputFormat r; m_device := m_device r;
     m_graphClock := m_graphClock r; m_externalClock := m_externalClock r;
     m_flush := m_flush r; m_bufferFilled := m_bufferFilled r;
     m_pushedFrames := m_pushedFrames r; m_startTime := m_startTime r;
     m_startClockOffset := m_startClockOffset r;
     m_correctedWithRateDsp := m_correctedWithRateDsp r;
     m_rate := v; calls := calls r |}.

(** Appends one call to the log. *)
Definition log (c : Call) (r : AudioRenderer) : AudioRenderer :=
  {| m_state := m_state r; m_inputFormat := m_inputFormat r; m_device := m_device r;
     m_graphClock := m_graphClock r; m_externalClock := m_externalClock r;
     m_flush := m_flush r; m_bufferFilled := m_bufferFilled r;
     m_pushedFrames := m_pushedFrames r; m_startTime := m_startTime r;
     m_startClockOffset := m_startClockOffset r;
     m_correctedWithRateDsp := m_correctedWithRateDsp r;
     m_rate := m_rate r; calls := calls r ++ [c] |}.

End Upd.

(* ================================================================== *)
(** ** The monad of member functions

    A member function transforms the renderer and ends in one of four
    ways: it returns, it leaves through a C++ exception, an [assert]
    aborts the process, or it is still waiting when the script of
    collaborator answers runs out. *)

Inductive Exn : Type :=
| bad_alloc
| hresult (hr : HRESULT).

Inductive Outcome (A : Type) : Type :=
| Ret (a : A)
| Throw (e : Exn)
| AssertFail
| Blocked.

Arguments Ret {A} a.
Arguments Throw {A} e.
Arguments AssertFail {A}.
Arguments Blocked {A}.

Definition M (A : Type) : Type := AudioRenderer -> Outcome A * AudioRenderer.

Definition ret {A} (a : A) : M A := fun r => (Ret a, r).

Definition bind {A B} (m : M A) (k : A -> M B) : M B :=
  fun r =>
    match m r with
    | (Ret a, r') => k a r'
    | (Throw e, r') => (Throw e, r')
    | (AssertFail, r') => (AssertFail, r')
    | (Blocked, r') => (Blocked, r')
    end.

Declare Scope cpp_scope.
Delimit Scope cpp_scope with cpp.
Notation "x <- m ;; k" := (bind m (fun x => k))
  (at level 100, m at next level, right associativity) : cpp_scope.
Notation "m ;; k" := (bind m (fun _ => k))
  (at level 100, right associativity) : cpp_scope.
Open Scope cpp_scope.

Definition throw {A} (e : Exn) : M A := fun r => (Throw e, r).
Definition get : M AudioRenderer := fun r => (Ret r, r).
Definition modify (f : AudioRenderer -> AudioRenderer) : M unit := fun r => (Ret tt, f r).
Definition call (c : Call) : M unit := modify (Upd.log c).
Definition assert (c : bool) : M unit := fun r => if c then (Ret tt, r) else (AssertFail, r).
Definition when (c : bool) (m : M unit) : M unit := if c then m else ret tt.

(** [try { body } catch (std::bad_alloc&) { handler }] *)
Definition catch_bad_alloc {A} (body handler : M A) : M A :=
  fun r =>
    match body r with
    | (Throw bad_alloc, r') => handler r'
    | other => other
    end.

(** [try { body } catch (HRESULT) { handler }] *)
Definition catch_hresult {A} (body handler : M A) : M A :=
  fun r =>
    match body r with
    | (Throw (hresult _), r') => handler r'
    | other => other
    end.

Definition ThrowIfFailed (hr : HRESULT) : M unit :=
  if FAILED hr then throw (hresult hr) else ret tt.

(** What a collaborator that may run out of memory answers. *)
Inductive Res (A : Type) : Type :=
| Ok (a : A)
| OutOfMemory.
Arguments Ok {A} a.
Arguments OutOfMemory {A}.

Definition lift {A} (x : Res A) : M A :=
  match x with
  | Ok a => ret a
  | OutOfMemory => throw bad_alloc
  end.

Definition isSome {A} (o : option A) : bool :=
  match o with Some _ => true | None => false end.

(* ================================================================== *)
(** ** Device-session life cycle *)

(** [AudioRenderer::ClearDevice] *)
Definition ClearDevice : M unit :=
  r <- get;;
  when (isSome (m_device r))
    (call Clock_UnslaveClockFromAudio;;
     call AudioClient_Stop;;
     modify (Upd.bufferFilled false));;
  modify (Upd.device None);;
  call DeviceManager_ReleaseDevice;;
  modify (Upd.pushedFrames 0).

(** [AudioRenderer::InitializeProcessors] *)
Definition InitializeProcessors : M unit :=
  r <- get;;
  assert (isSome (m_inputFormat r));;
  assert (isSome (m_device r));;
  modify (Upd.correctedWithRateDsp 0);;
  match m_device r with
  | Some dev =>
      if bitstream dev then ret tt
      else
        call (Dsp_Initialize "m_dspMatrix");;
        call (Dsp_Initialize "m_dspRate");;
        call (Dsp_Initialize "m_dspTempo");;
        call (Dsp_Initialize "m_dspCrossfeed");;
        call (Dsp_Initialize "m_dspVolume");;
        call (Dsp_Initialize "m_dspLimiter");;
        call (Dsp_Initialize "m_dspDither")
  | None => ret tt
  end.

(** [AudioRenderer::StartDevice] *)
Definition StartDevice : M unit :=
  r <- get;;
  assert (state_eqb (m_state r) State_Running);;
  when (isSome (m_device r))
    (call (Clock_SlaveClockToAudio (m_startTime r + m_startClockOffset r));;
     modify (Upd.startClockOffset 0);;
     call AudioClient_Start).

(** [AudioRenderer::CreateDevice].  [created] is what
    [m_deviceManager.CreateDevice] answers and [lastSampleEnd] what
    [m_timingsCorrection.GetLastSampleEnd()] reports. *)
Definition CreateDevice (created : Res (option AudioDevice))
    (lastSampleEnd : REFERENCE_TIME) : M unit :=
  r <- get;;
  assert (negb (isSome (m_device r)));;
  assert (isSome (m_inputFormat r));;
  dev <- lift created;;
  modify (Upd.device dev);;
  when (isSome dev)
    (InitializeProcessors;;
     modify (Upd.startClockOffset lastSampleEnd);;
     when (state_eqb (m_state r) State_Running) StartDevice).

(** What [ISettings::GetOuputDevice] answers: the result code, the device
    name (a null pointer is [None]) and the exclusivity flag. *)
Record OuputDevice : Type := {
  od_hr : HRESULT;
  od_pDeviceName : option string;
  od_exclusive : bool
}.

(** [pDeviceName && *pDeviceName] *)
Definition names_a_device (name : option string) : bool :=
  match name with
  | Some s => negb (String.eqb s EmptyString)
  | None => false
  end.

(** [wcscmp(pDeviceName, friendlyName) != 0], for a non-null name. *)
Definition wcscmp_differs (name : option string) (friendly : string) : bool :=
  match name with
  | Some s => negb (String.eqb s friendly)
  | None => false
  end.

(** The condition under which [CheckDeviceSettings] drops the session. *)
Definition settings_mismatch (dev : AudioDevice) (out : OuputDevice) : bool :=
  negb (Bool.eqb (exclusive dev) (od_exclusive out))
  || (names_a_device (od_pDeviceName out)
      && wcscmp_differs (od_pDeviceName out) (friendlyName dev))
  || (negb (names_a_device (od_pDeviceName out)) && negb (default dev)).

(** [AudioRenderer::CheckDeviceSettings].  [serial] is what
    [m_settings->GetSerial()] returns. *)
Definition CheckDeviceSettings (serial : Z) (out : OuputDevice) : M unit :=
  r <- get;;
  match m_device r with
  | Some dev =>
      if negb (settingsSerial dev =? serial) then
        if SUCCEEDED (od_hr out) then
          if settings_mismatch dev out then
            ClearDevice;;
            r' <- get;;
            assert (negb (isSome (m_device r')))
          else
            modify (Upd.device (Some (with_settingsSerial serial dev)))
        else ret tt
      else ret tt
  | None => ret tt
  end.

(* ================================================================== *)
(** ** Control operations *)

(** [AudioRenderer::SetClock].  [queryInterface] is the result of
    [m_myClock->QueryInterface]; on failure the out-pointer is null. *)
Definition SetClock (queryInterface : HRESULT) (pClock : ClockRef) : M unit :=
  modify (Upd.graphClock (if FAILED queryInterface then NullClock else MyClock));;
  ThrowIfFailed queryInterface;;
  modify (Upd.externalClock false);;
  r <- get;;
  when (negb (ClockRef_eqb pClock NullClock)
        && negb (ClockRef_eqb (m_graphClock r) pClock))
    (modify (Upd.graphClock pClock);;
     r <- get;;
     when (negb (m_externalClock r))
       (modify (Upd.externalClock true);;
        ClearDevice)).

(** [AudioRenderer::BeginFlush] *)
Definition BeginFlush : M unit := modify (Upd.flush true).

(** [AudioRenderer::EndFlush] *)
Definition EndFlush : M unit :=
  r <- get;;
  assert (negb (state_eqb (m_state r) State_Running));;
  when (isSome (m_device r))
    (call AudioClient_Reset;;
     modify (Upd.bufferFilled false));;
  modify (Upd.flush false);;
  modify (Upd.pushedFrames 0).

(** [AudioRenderer::SetFormat] *)
Definition SetFormat (inputFormat : option WaveFormat) : M unit :=
  modify (Upd.inputFormat inputFormat);;
  call TimingsCorrection_SetFormat;;
  ClearDevice.

(** The fields of an IEEE 754 [double] given by its bit pattern: 1 sign
    bit, 11 exponent bits (biased by 1023), 52 fraction bits. *)
Definition double_exponent (bits : Z) : Z := Z.land (Z.shiftr bits 52) 2047.
Definition double_fraction (bits : Z) : Z := Z.land bits (2 ^ 52 - 1).

(** [(double)(float)rate == rate] on the bit pattern of [rate].  The
    conversion back to [double] is exact, so the comparison holds exactly
    when the conversion to [float] (8 exponent bits, 23 fraction bits,
    denormals down to 2^-149) loses nothing: for the zeros and the
    infinities, and for a finite number whose exponent [float] has and
    whose fraction fits; a NaN is not equal to itself.  A number that is
    not the pattern of a [double] is none of these. *)
Definition within_float (rate : Z) : bool :=
  let e := double_exponent rate in
  let m := double_fraction rate in
  if (rate <? 0) || (2 ^ 64 <=? rate) then false
  else if e =? 2047 then m =? 0
  else if e =? 0 then m =? 0
  else
    let exponent := e - 1023 in
    if 127 <? exponent then false
    else if -126 <=? exponent then Z.land m (2 ^ 29 - 1) =? 0
    else if -149 <=? exponent then (2 ^ 52 + m) mod 2 ^ (-97 - exponent) =? 0
    else false.

(** [AudioRenderer::NewSegment].  [rate] is the bit pattern of the
    [double]; [withinFloat] is the value of the asserted expression
    [(double)(float)rate == rate], which [within_float rate] computes. *)
Definition NewSegment (rate : Z) (withinFloat : bool) : M unit :=
  assert withinFloat;;
  modify (Upd.startClockOffset 0);;
  modify (Upd.rate rate);;
  call TimingsCorrection_NewSegment;;
  r <- get;;
  assert (isSome (m_inputFormat r));;
  when (isSome (m_device r)) InitializeProcessors.

(** [AudioRenderer::Play] *)
Definition Play (startTime : REFERENCE_TIME) : M unit :=
  r <- get;;
  assert (negb (state_eqb (m_state r) State_Running));;
  modify (Upd.state State_Running);;
  modify (Upd.startTime startTime);;
  StartDevice.

(** [AudioRenderer::Pause] *)
Definition Pause : M unit :=
  modify (Upd.state State_Paused);;
  r <- get;;
  when (isSome (m_device r))
    (call Clock_UnslaveClockFromAudio;;
     call AudioClient_Stop).

(** [AudioRenderer::Stop] *)
Definition Stop : M unit :=
  modify (Upd.state State_Stopped);;
  ClearDevice.

(* ================================================================== *)
(** ** The push loop *)

(** [m_flush.Wait(ms)]: the manual-reset flush event is awaited for at most
    [ms] milliseconds.  [raised] tells whether [BeginFlush] signals the
    event before the wait times out; an event that is already signalled
    ends the wait at once. *)
Definition Wait (ms : Z) (raised : bool) : M bool :=
  call (Flush_Wait ms);;
  r <- get;;
  if m_flush r then ret true
  else if raised then (modify (Upd.flush true);; ret true)
  else ret false.

(** What the collaborators answer during one iteration of the loop in
    [Push]: whether the flush event is raised during the 50 ms wait that
    opens every iteration but the first, the answers of the audio client
    and the render client, the graph clock and the timing correction.
    [pt_GetTime] is what the graph clock answers when asked: the model
    covers the renderer with a graph clock to ask, the query through a
    null [m_graphClock] is not represented. *)
Record PushTick : Type := {
  pt_flush : bool;
  pt_GetBufferSize : HRESULT * Z;
  pt_GetCurrentPadding : HRESULT * Z;
  pt_GetBuffer : HRESULT;
  pt_ReleaseBuffer : HRESULT;
  pt_GetTime : HRESULT * REFERENCE_TIME;
  pt_GetLastSampleEnd : REFERENCE_TIME
}.

(** How one iteration of a loop ends. *)
Inductive PushStep : Type :=
| Continue (doneFrames : Z)
| Break.

(** [std::min(bufferFrames - bufferPadding, (UINT32)(chunkFrames - doneFrames))] *)
Definition doFrames_of (bufferFrames bufferPadding chunkFrames doneFrames : Z) : Z :=
  Z.min (UINT32 (bufferFrames - bufferPadding)) (UINT32 (chunkFrames - doneFrames)).

(** The source range of the [memcpy] into the device buffer. *)
Definition memcpy_source (chunk : DspChunk) (doneFrames doFrames : Z) : list byte :=
  firstn (Z.to_nat (UINT32 (doFrames * GetFrameSize chunk)))
         (skipn (Z.to_nat (doneFrames * GetFrameSize chunk)) (constData chunk)).

(** The body of the [try] block of [Push]; returns the new [doneFrames]. *)
Definition Push_write (chunk : DspChunk) (doneFrames : Z) (dev : AudioDevice)
    (t : PushTick) : M Z :=
  ThrowIfFailed (fst (pt_GetBufferSize t));;
  let bufferFrames := UINT32 (snd (pt_GetBufferSize t)) in
  ThrowIfFailed (fst (pt_GetCurrentPadding t));;
  let bufferPadding := UINT32 (snd (pt_GetCurrentPadding t)) in
  let doFrames := doFrames_of bufferFrames bufferPadding (GetFrameCount chunk) doneFrames in
  if doFrames =? 0 then ret doneFrames
  else
    ThrowIfFailed (pt_GetBuffer t);;
    assert (GetFrameSize chunk
            =? wBitsPerSample (waveFormat dev) / 8 * nChannels (waveFormat dev));;
    ThrowIfFailed (pt_ReleaseBuffer t);;
    call (RenderClient_Write doFrames (memcpy_source chunk doneFrames doFrames));;
    modify (Upd.bufferFilled (UINT32 (bufferPadding + doFrames) =? bufferFrames));;
    r <- get;;
    modify (Upd.pushedFrames (UINT64 (m_pushedFrames r + doFrames)));;
    ret (doneFrames + doFrames).

(** The part of one iteration of [Push] that runs under the object lock. *)
Definition Push_iteration (chunk : DspChunk) (doneFrames : Z) (t : PushTick)
    : M PushStep :=
  r <- get;;
  assert (negb (state_eqb (m_state r) State_Stopped));;
  wrote <- match m_device r with
           | Some dev =>
               catch_hresult
                 (d <- Push_write chunk doneFrames dev t;; ret (Some d))
                 (ClearDevice;; ret None)
           | None => ret None
           end;;
  match wrote with
  | Some d => ret (Continue d)
  | None =>
      r <- get;;
      assert (negb (isSome (m_device r)));;
      modify (Upd.bufferFilled true);;
      if state_eqb (m_state r) State_Running
         && SUCCEEDED (fst (pt_GetTime t))
         && (m_startTime r + pt_GetLastSampleEnd t
             <? snd (pt_GetTime t) + MILLISECONDS_TO_100NS_UNITS 20)
      then ret Break
      else ret (Continue doneFrames)
  end.

(** The [for] loop of [Push].  Each iteration consumes one [PushTick]. *)
Fixpoint Push_loop (chunk : DspChunk) (firstIteration : bool) (doneFrames : Z)
    (ticks : list PushTick) {struct ticks} : M bool :=
  if doneFrames <? GetFrameCount chunk then
    match ticks with
    | [] => fun r => (Blocked, r)
    | t :: ticks' =>
        interrupted <- (if firstIteration then ret false else Wait 50 (pt_flush t));;
        if interrupted : bool then ret false
        else
          step <- Push_iteration chunk doneFrames t;;
          match step with
          | Continue d => Push_loop chunk false d ticks'
          | Break => ret true
          end
    end
  else ret true.

(** [AudioRenderer::Push] *)
Definition Push (chunk : DspChunk) (ticks : list PushTick) : M bool :=
  if IsEmpty chunk then ret true
  else Push_loop chunk true 0 ticks.

(* ================================================================== *)
(** ** Enqueue *)

(** What the collaborators answer during the locked part of [Enqueue].
    As in [PushTick], [env_GetTime] is the answer of a graph clock that is
    there to be asked. *)
Record EnqueueEnv : Type := {
  env_GetSerial : Z;
  env_GetOuputDevice : OuputDevice;
  env_CreateDevice : Res (option AudioDevice);
  env_GetLastSampleEnd : REFERENCE_TIME;
  env_ProcessSample : Res DspChunk;
  env_GetTimingsError : REFERENCE_TIME;
  env_GetSlavedClockOffset : REFERENCE_TIME;
  env_dspRateActive : bool;
  env_GetAudioClockStartTime : HRESULT * REFERENCE_TIME;
  env_GetAudioClockTime : HRESULT * REFERENCE_TIME;
  env_GetTime : HRESULT * REFERENCE_TIME;
  env_Process : list (DspChunk -> Res DspChunk);
  env_ToFormat : nat -> DspChunk -> Res DspChunk
}.

(** [EnumerateProcessors] applied to a stage operation that works on the
    chunk in place: the stages run in their fixed order. *)
Fixpoint EnumerateProcessors (stages : list (DspChunk -> Res DspChunk))
    (chunk : DspChunk) : M DspChunk :=
  match stages with
  | [] => ret chunk
  | f :: rest => c <- lift (f chunk);; EnumerateProcessors rest c
  end.

(** Lines 90-97: nudging the slaved clock by the timing error. *)
Definition OffsetSlavedClock_step (env : EnqueueEnv) : M unit :=
  let offset := env_GetTimingsError env - env_GetSlavedClockOffset env in
  when (1000 <? Z.abs offset) (call (Clock_OffsetSlavedClock offset)).

(** The guard of lines 103-106: the three clock queries succeed and the
    audio clock has moved past its start time. *)
Definition clocks_readable (env : EnqueueEnv) : bool :=
  SUCCEEDED (fst (env_GetAudioClockStartTime env))
  && SUCCEEDED (fst (env_GetAudioClockTime env))
  && SUCCEEDED (fst (env_GetTime env))
  && (snd (env_GetAudioClockStartTime env) <? snd (env_GetAudioClockTime env)).

(** [graphTime - myTime - m_correctedWithRateDsp] *)
Definition rate_offset (env : EnqueueEnv) (r : AudioRenderer) : REFERENCE_TIME :=
  snd (env_GetTime env) - snd (env_GetAudioClockTime env) - m_correctedWithRateDsp r.

(** The two conditions under which lines 103-114 feed the rate stage. *)
Definition rate_correction_due (env : EnqueueEnv) (r : AudioRenderer) : bool :=
  clocks_readable env
  && (MILLISECONDS_TO_100NS_UNITS 2 <? Z.abs (rate_offset env r)).

(** Lines 99-116: feeding the external-clock drift to the rate stage. *)
Definition RateDsp_step (env : EnqueueEnv) (dev : AudioDevice) : M unit :=
  r <- get;;
  when (m_externalClock r && negb (bitstream dev))
    (assert (env_dspRateActive env);;
     when (clocks_readable env)
       (let offset := rate_offset env r in
        when (MILLISECONDS_TO_100NS_UNITS 2 <? Z.abs offset)
          (call (DspRate_Adjust offset);;
           modify (Upd.correctedWithRateDsp (m_correctedWithRateDsp r + offset))))).

(** Lines 81-86: settings check, lazy device creation, timing correction. *)
Definition Enqueue_prologue (env : EnqueueEnv) : M DspChunk :=
  CheckDeviceSettings (env_GetSerial env) (env_GetOuputDevice env);;
  r <- get;;
  when (negb (isSome (m_device r)))
    (CreateDevice (env_CreateDevice env) (env_GetLastSampleEnd env));;
  lift (env_ProcessSample env).

(** Lines 88-117: the two clock corrections. *)
Definition Enqueue_sync (env : EnqueueEnv) : M unit :=
  r <- get;;
  match m_device r with
  | Some dev =>
      when (state_eqb (m_state r) State_Running)
        (OffsetSlavedClock_step env;;
         RateDsp_step env dev)
  | None => ret tt
  end.

(** Lines 119-129: the DSP chain and the conversion to the device format. *)
Definition Enqueue_dsp (env : EnqueueEnv) (chunk : DspChunk) : M DspChunk :=
  r <- get;;
  match m_device r with
  | Some dev =>
      if negb (bitstream dev) then
        c <- EnumerateProcessors (env_Process env) chunk;;
        lift (env_ToFormat env (dspFormat dev) c)
      else ret chunk
  | None => ret chunk
  end.

(** The [try] block of [Enqueue]. *)
Definition Enqueue_try (env : EnqueueEnv) : M DspChunk :=
  chunk <- Enqueue_prologue env;;
  Enqueue_sync env;;
  Enqueue_dsp env chunk.

(** The part of [Enqueue] that runs under the object lock; it yields the
    chunk that is handed to [Push]. *)
Definition Enqueue_locked (env : EnqueueEnv) : M DspChunk :=
  r <- get;;
  assert (isSome (m_inputFormat r));;
  assert (negb (state_eqb (m_state r) State_Stopped));;
  catch_bad_alloc
    (Enqueue_try env)
    (ClearDevice;; ret DspChunk_default).

(** [AudioRenderer::Enqueue] *)
Definition Enqueue (env : EnqueueEnv) (ticks : list PushTick) : M bool :=
  chunk <- Enqueue_locked env;;
  Push chunk ticks.

(* ================================================================== *)
(** ** Finish and the drain wait *)

(** What the DSP stages answer during the locked part of [Finish]. *)
Record FinishEnv : Type := {
  fenv_Finish : list (DspChunk -> Res DspChunk);
  fenv_ToFormat : nat -> DspChunk -> Res DspChunk
}.

(** The locked part of [Finish]: yields the drained chunk and the value
    of [blockUntilEnd] after line 150. *)
Definition Finish_locked (blockUntilEnd : bool) (env : FinishEnv)
    : M (DspChunk * bool) :=
  r <- get;;
  assert (negb (state_eqb (m_state r) State_Stopped));;
  let blockUntilEnd := if negb (isSome (m_device r)) then false else blockUntilEnd in
  chunk <- catch_bad_alloc
             (match m_device r with
              | Some dev =>
                  if negb (bitstream dev) then
                    c <- EnumerateProcessors (fenv_Finish env) DspChunk_default;;
                    lift (fenv_ToFormat env (dspFormat dev) c)
                  else ret DspChunk_default
              | None => ret DspChunk_default
              end)
             (assert (IsEmpty DspChunk_default);; ret DspChunk_default);;
  ret (chunk, blockUntilEnd).

(** What the device clock answers at one check of the drain wait, and
    whether the flush event is raised during the sleep that follows. *)
Record BlockTick : Type := {
  bt_GetFrequency : HRESULT * Z;
  bt_GetPosition : HRESULT * Z;
  bt_flush : bool
}.

Inductive BlockStep : Type :=
| Done (result : bool)
| Sleep (target actual : Z).

(** The locked block of one iteration of the loop in [doBlock].  [actual0]
    is the value the local [actual] holds when the block is entered. *)
Definition doBlock_locked (actual0 : Z) (t : BlockTick) : M BlockStep :=
  r <- get;;
  match m_device r with
  | None => ret (Done true)
  | Some dev =>
      readings <- catch_hresult
                    (ThrowIfFailed (fst (bt_GetFrequency t));;
                     ThrowIfFailed (fst (bt_GetPosition t));;
                     ret (Some (UINT64 (snd (bt_GetFrequency t)),
                                UINT64 (snd (bt_GetPosition t)))))
                    (ClearDevice;; ret None);;
      match readings with
      | None => ret (Done true)
      | Some (deviceClockFrequency, deviceClockPosition) =>
          let previous := actual0 in
          let actual := llMulDiv (int64_t deviceClockPosition) OneSecond
                                 (int64_t deviceClockFrequency) 0 in
          let target := llMulDiv (int64_t (m_pushedFrames r)) OneSecond
                                 (nSamplesPerSec (waveFormat dev)) 0 in
          if actual =? target then ret (Done true)
          else if (actual =? previous) && state_eqb (m_state r) State_Running
               then ret (Done true)
               else ret (Sleep target actual)
      end
  end.

(** The two times the drain wait compares: the device clock position and
    the pushed-frame total, each converted to 100 ns units. *)
Definition position_time (t : BlockTick) : Z :=
  llMulDiv (int64_t (UINT64 (snd (bt_GetPosition t)))) OneSecond
           (int64_t (UINT64 (snd (bt_GetFrequency t)))) 0.

Definition pushed_time (pushedFrames : Z) (dev : AudioDevice) : Z :=
  llMulDiv (int64_t pushedFrames) OneSecond (nSamplesPerSec (waveFormat dev)) 0.

(** [std::max(1, (int32_t)((target - actual) * 1000 / OneSecond))]: the
    division truncates and the cast keeps the low 32 bits.  The difference
    and the product are signed 64-bit in the source; while they stay in
    that range this is the value the source computes, beyond it the source
    overflows a signed integer and computes no defined value. *)
Definition sleep_ms (target actual : Z) : Z :=
  Z.max 1 (int32_t (Z.quot ((target - actual) * 1000) OneSecond)).

(** The [for (;;)] loop of [doBlock].  [actual] is declared in the loop
    body, so every iteration enters its locked block with
    [actual = INT64_MAX]. *)
Fixpoint doBlock_loop (ticks : list BlockTick) : M bool :=
  match ticks with
  | [] => fun r => (Blocked, r)
  | t :: ticks' =>
      let actual := INT64_MAX in
      step <- doBlock_locked actual t;;
      match step with
      | Done result => ret result
      | Sleep target actual =>
          interrupted <- Wait (sleep_ms target actual) (bt_flush t);;
          if interrupted : bool then ret false
          else doBlock_loop ticks'
      end
  end.

(** The [doBlock] lambda of [Finish].  [TimePeriodHelper] only raises the
    resolution of the system timer for the duration of the wait and leaves
    no trace in the model. *)
Definition doBlock (ticks : list BlockTick) : M bool :=
  call Clock_UnslaveClockFromAudio;;
  doBlock_loop ticks.

(** [AudioRenderer::Finish]:
    [return Push(chunk) && (!blockUntilEnd || doBlock());] *)
Definition Finish (blockUntilEnd : bool) (env : FinishEnv)
    (pushTicks : list PushTick) (blockTicks : list BlockTick) : M bool :=
  locked <- Finish_locked blockUntilEnd env;;
  let '(chunk, blockUntilEnd) := locked in
  pushed <- Push chunk pushTicks;;
  if pushed : bool then
    if negb blockUntilEnd then ret true else doBlock blockTicks
  else ret false.

(* ================================================================== *)
(** ** Reading the call log *)

(** Frames handed to the device: the sum over the completed buffer writes. *)
Fixpoint frames_written (log : list Call) : Z :=
  match log with
  | [] => 0
  | RenderClient_Write n _ :: rest => n + frames_written rest
  | _ :: rest => frames_written rest
  end.

(** The bytes handed to the device: what the completed buffer writes
    copied into the device buffer, in the order of the writes. *)
Fixpoint bytes_written (log : list Call) : list byte :=
  match log with
  | [] => []
  | RenderClient_Write _ bytes :: rest => bytes ++ bytes_written rest
  | _ :: rest => bytes_written rest
  end.

(** The offsets fed to the rate stage, oldest first. *)
Fixpoint rate_adjustments (log : list Call) : list REFERENCE_TIME :=
  match log with
  | [] => []
  | DspRate_Adjust offset :: rest => offset :: rate_adjustments rest
  | _ :: rest => rate_adjustments rest
  end.

(** Frames written since the session was opened or last flushed: the
    writes that follow the latest [ReleaseDevice] or [Reset] in the log.
    [acc] counts the frames seen since the latest of these so far. *)
Definition count_call (acc : Z) (c : Call) : Z :=
  match c with
  | RenderClient_Write n _ => acc + n
  | AudioClient_Reset => 0
  | DeviceManager_ReleaseDevice => 0
  | _ => acc
  end.

Definition frames_since_reset (log : list Call) : Z := fold_left count_call log 0.

(** The pushed-frame counter is the number of frames written to the
    current session since it was opened or last flushed (as a [uint64_t]). *)
Definition counter_exact (r : AudioRenderer) : Prop :=
  m_pushedFrames r = UINT64 (frames_since_reset (calls r)).

(* ================================================================== *)
(** ** The state machine as the specification declares it *)

Inductive Transition : Type :=
| ByPlay
| ByPause
| ByStop.

(** The declared legal transitions: Stopped to Running by Play, Running to
    Paused by Pause, Paused to Running by Play, any state to Stopped by
    Stop. *)
Definition declared_legal (from : FILTER_STATE) (t : Transition) : bool :=
  match t, from with
  | ByPlay, State_Stopped => true
  | ByPlay, State_Paused => true
  | ByPlay, State_Running => false
  | ByPause, State_Running => true
  | ByPause, _ => false
  | ByStop, _ => true
  end.

Definition transition (t : Transition) (startTime : REFERENCE_TIME) : M unit :=
  match t with
  | ByPlay => Play startTime
  | ByPause => Pause
  | ByStop => Stop
  end.

(** A settings change as the specification calls it compatible: same
    exclusivity flag and same device identity (the named device is the one
    that is open, or no device is named and the default one is open). *)
Definition compatible_change (dev : AudioDevice) (out : OuputDevice) : Prop :=
  exclusive dev = od_exclusive out /\
  match od_pDeviceName out with
  | Some name => if String.eqb name EmptyString then default dev = true
                 else name = friendlyName dev
  | None => default dev = true
  end.

(* ================================================================== *)
(** ** Sequences of operations *)

(** The public operations that change the renderer, each with the answers
    its collaborators give while it runs.  [OpNewSegment] ranges over both
    outcomes of the assertion on the rate, the one that [within_float]
    computes from the rate among them. *)
Inductive Operation : Type :=
| OpSetClock (queryInterface : HRESULT) (pClock : ClockRef)
| OpEnqueue (env : EnqueueEnv) (ticks : list PushTick)
| OpFinish (blockUntilEnd : bool) (env : FinishEnv)
           (pushTicks : list PushTick) (blockTicks : list BlockTick)
| OpBeginFlush
| OpEndFlush
| OpSetFormat (inputFormat : option WaveFormat)
| OpNewSegment (rate : Z) (withinFloat : bool)
| OpPlay (startTime : REFERENCE_TIME)
| OpPause
| OpStop.

(** The state an operation leaves behind, whichever way it ends. *)
Definition perform (op : Operation) (r : AudioRenderer) : AudioRenderer :=
  match op with
  | OpSetClock hr pClock => snd (SetClock hr pClock r)
  | OpEnqueue env ticks => snd (Enqueue env ticks r)
  | OpFinish b env pushTicks blockTicks => snd (Finish b env pushTicks blockTicks r)
  | OpBeginFlush => snd (BeginFlush r)
  | OpEndFlush => snd (EndFlush r)
  | OpSetFormat f => snd (SetFormat f r)
  | OpNewSegment rate withinFloat => snd (NewSegment rate withinFloat r)
  | OpPlay startTime => snd (Play startTime r)
  | OpPause => snd (Pause r)
  | OpStop => snd (Stop r)
  end.

Definition run (ops : list Operation) (r : AudioRenderer) : AudioRenderer :=
  fold_left (fun r op => perform op r) ops r.

(** Whenever no device session exists, the pushed-frame counter is zero. *)
Definition counter_idle (r : AudioRenderer) : Prop :=
  m_device r = None -> m_pushedFrames r = 0.

(** A tick on which every device call of the push loop succeeds. *)
Definition healthy (t : PushTick) : Prop :=
  SUCCEEDED (fst (pt_GetBufferSize t)) = true /\
  SUCCEEDED (fst (pt_GetCurrentPadding t)) = true /\
  SUCCEEDED (pt_GetBuffer t) = true /\
  SUCCEEDED (pt_ReleaseBuffer t) = true.

(* ================================================================== *)
(** ** The drain wait as the specification describes it

    The stall test of the specification compares each reading with the one
    before it: [previous] is carried from one check to the next. *)

Fixpoint doBlock_loop_as_specified (previous : Z) (ticks : list BlockTick) : M bool :=
  match ticks with
  | [] => fun r => (Blocked, r)
  | t :: ticks' =>
      step <- doBlock_locked previous t;;
      match step with
      | Done result => ret result
      | Sleep target actual =>
          interrupted <- Wait (sleep_ms target actual) (bt_flush t);;
          if interrupted : bool then ret false
          else doBlock_loop_as_specified actual ticks'
      end
  end.

(** The quantities the specification of one write is phrased in: the
    capacity and the padding the device reports, and the smaller of the
    free space and the frames that remain. *)
Definition capacity_of (t : PushTick) : Z := snd (pt_GetBufferSize t).
Definition padding_of (t : PushTick) : Z := snd (pt_GetCurrentPadding t).

Definition frames_that_fit (t : PushTick) (chunk : DspChunk) (doneFrames : Z) : Z :=
  Z.min (capacity_of t - padding_of t) (GetFrameCount chunk - doneFrames).

(** The state an iteration leaves behind when it writes [n] frames. *)
Definition after_write (chunk : DspChunk) (doneFrames n : Z) (t : PushTick)
    (r : AudioRenderer) : AudioRenderer :=
  Upd.pushedFrames (m_pushedFrames r + n)
    (Upd.bufferFilled (padding_of t + n =? capacity_of t)
       (Upd.log (RenderClient_Write n (memcpy_source chunk doneFrames n)) r)).

(** A tick on which the device accepts at least one frame and nobody
    raises the flush event. *)
Definition roomy (t : PushTick) : Prop :=
  healthy t /\
  pt_flush t = false /\
  0 <= padding_of t < capacity_of t /\
  capacity_of t < 2 ^ 32.

(* ================================================================== *)
(** ** Construction and destruction *)

Definition E_UNEXPECTED : HRESULT := -2147418113.
Definition E_OUTOFMEMORY : HRESULT := -2147024882.

(** What the constructor finds: the result code as the device manager's
    own constructor leaves it, whether the settings and clock pointers are
    non-null, the answer of [QueryInterface], and whether the two event
    handles are non-null. *)
Record ConstructorArgs : Type := {
  ctor_deviceManager : HRESULT;
  ctor_pSettings : bool;
  ctor_pClock : bool;
  ctor_QueryInterface : HRESULT;
  ctor_flush : bool;
  ctor_bufferFilled : bool
}.

(** [try { body } catch (HRESULT ex) { handler(ex) }] *)
Definition catch_hresult_as {A} (body : M A) (handler : HRESULT -> M A) : M A :=
  fun r =>
    match body r with
    | (Throw (hresult ex), r') => handler ex r'
    | other => other
    end.

(** The members as their initialisers leave them, before the constructor
    body runs: the graph-clock pointer is still null. *)
Definition members_initialised : AudioRenderer := Upd.graphClock NullClock constructed.

(** [AudioRenderer::AudioRenderer]; yields the final value of [result]. *)
Definition Constructor (a : ConstructorArgs) : M HRESULT :=
  if FAILED (ctor_deviceManager a) then ret (ctor_deviceManager a)
  else
    catch_hresult_as
      (when (negb (ctor_pSettings a) || negb (ctor_pClock a))
         (throw (hresult E_UNEXPECTED));;
       modify (Upd.graphClock
                 (if FAILED (ctor_QueryInterface a) then NullClock else MyClock));;
       ThrowIfFailed (ctor_QueryInterface a);;
       when (negb (ctor_flush a) || negb (ctor_bufferFilled a))
         (throw (hresult E_OUTOFMEMORY));;
       ret (ctor_deviceManager a))
      (fun ex => ret ex).

(** [AudioRenderer::~AudioRenderer] *)
Definition Destructor : M unit :=
  r <- get;;
  when (negb (state_eqb (m_state r) State_Stopped)) Stop.

(* ================================================================== *)
(** ** More readings of the state and of the call log *)

(** The offsets applied to the slaved clock, oldest first. *)
Fixpoint clock_offsets (log : list Call) : list REFERENCE_TIME :=
  match log with
  | [] => []
  | Clock_OffsetSlavedClock offset :: rest => offset :: clock_offsets rest
  | _ :: rest => clock_offsets rest
  end.

(** The lengths, in milliseconds, of the waits on the flush event. *)
Fixpoint waits (log : list Call) : list Z :=
  match log with
  | [] => []
  | Flush_Wait ms :: rest => ms :: waits rest
  | _ :: rest => waits rest
  end.

(** A Stopped renderer holds no device session. *)
Definition stopped_idle (r : AudioRenderer) : Prop :=
  m_state r = State_Stopped -> m_device r = None.

Definition is_transition (op : Operation) : bool :=
  match op with
  | OpPlay _ | OpPause | OpStop => true
  | _ => false
  end.

Definition is_SetFormat (op : Operation) : bool :=
  match op with
  | OpSetFormat _ => true
  | _ => false
  end.

(** The clock test that ends [Push] when no session exists (lines 523-525). *)
Definition tail_already_played (t : PushTick) (r : AudioRenderer) : bool :=
  state_eqb (m_state r) State_Running
  && SUCCEEDED (fst (pt_GetTime t))
  && (m_startTime r + pt_GetLastSampleEnd t
      <? snd (pt_GetTime t) + MILLISECONDS_TO_100NS_UNITS 20).

(* ================================================================== *)
(** ** Invariants of member functions *)

(** [m] keeps [I]: whichever way [m] ends, the state it leaves satisfies
    [I] if the state it started from did. *)
Definition maintains {A} (I : AudioRenderer -> Prop) (m : M A) : Prop :=
  forall r, I r -> I (snd (m r)).

(** [m] leaves through an exception only if the exception satisfies [P]. *)
Definition raises {A} (P : Exn -> Prop) (m : M A) : Prop :=
  forall r e, fst (m r) = Throw e -> P e.

(** [r'] has the configuration of [r]: state, input format, clock mode,
    graph clock, rate and start time. *)
Definition same_configuration (r r' : AudioRenderer) : Prop :=
  m_state r' = m_state r /\
  m_inputFormat r' = m_inputFormat r /\
  m_externalClock r' = m_externalClock r /\
  m_graphClock r' = m_graphClock r /\
  m_rate r' = m_rate r /\
  m_startTime r' = m_startTime r.

(** [m] never waits for an answer that the script does not hold. *)
Definition finishes {A} (m : M A) : Prop := forall r, fst (m r) <> Blocked.

(** [I] does not depend on the members the streaming calls write: the
    session, the two events, the pushed-frame counter, the two clock
    accumulators and the call log. *)
Definition streaming_blind (I : AudioRenderer -> Prop) : Prop :=
  (forall v r, I r -> I (Upd.device v r)) /\
  (forall v r, I r -> I (Upd.bufferFilled v r)) /\
  (forall v r, I r -> I (Upd.flush v r)) /\
  (forall v r, I r -> I (Upd.pushedFrames v r)) /\
  (forall v r, I r -> I (Upd.startClockOffset v r)) /\
  (forall v r, I r -> I (Upd.correctedWithRateDsp v r)) /\
  (forall c r, I r -> I (Upd.log c r)).

(* ================================================================== *)
(** ** Concrete scenarios *)

Module Scenario.

Definition stereo16 : WaveFormat :=
  {| nSamplesPerSec := 48000; nChannels := 2; wBitsPerSample := 16 |}.

Definition speakers : AudioDevice :=
  {| settingsSerial := 1;
     exclusive := false;
     bitstream := false;
     friendlyName := "Speakers";
     default := true;
     waveFormat := stereo16;
     dspFormat := 1 |}.

(** Running on the internal clock with an open session. *)
Definition playing : AudioRenderer :=
  {| m_state := State_Running;
     m_inputFormat := Some stereo16;
     m_device := Some speakers;
     m_graphClock := MyClock;
     m_externalClock := false;
     m_flush := false;
     m_bufferFilled := false;
     m_pushedFrames := 0;
     m_startTime := 0;
     m_startClockOffset := 0;
     m_correctedWithRateDsp := 0;
     m_rate := 0;
     calls := [] |}.

(** Running on a host clock with an open session. *)
Definition playing_external : AudioRenderer :=
  Upd.externalClock true (Upd.graphClock (HostClock 1) playing).

(** Paused with no session. *)
Definition paused_idle : AudioRenderer :=
  Upd.state State_Paused (Upd.device None playing).

(** Three stereo 16-bit frames. *)
Definition three_frames : DspChunk :=
  {| frameSize := 4;
     frameCount := 3;
     constData := [x01; x02; x03; x04; x05; x06; x07; x08; x09; x0a; x0b; x0c] |}.

(** A tick on which the device reports [capacity] and [padding] and every
    call succeeds. *)
Definition tick (capacity padding : Z) (flushed : bool) : PushTick :=
  {| pt_flush := flushed;
     pt_GetBufferSize := (S_OK, capacity);
     pt_GetCurrentPadding := (S_OK, padding);
     pt_GetBuffer := S_OK;
     pt_ReleaseBuffer := S_OK;
     pt_GetTime := (S_OK, 0);
     pt_GetLastSampleEnd := 0 |}.

(** Collaborators that answer an [Enqueue] without incident: the settings
    are unchanged, the sample is [three_frames], the clocks agree. *)
Definition quiet : EnqueueEnv :=
  {| env_GetSerial := 1;
     env_GetOuputDevice := {| od_hr := S_OK; od_pDeviceName := None; od_exclusive := false |};
     env_CreateDevice := Ok (Some speakers);
     env_GetLastSampleEnd := 0;
     env_ProcessSample := Ok three_frames;
     env_GetTimingsError := 0;
     env_GetSlavedClockOffset := 0;
     env_dspRateActive := true;
     env_GetAudioClockStartTime := (S_OK, 0);
     env_GetAudioClockTime := (S_OK, 1000000);
     env_GetTime := (S_OK, 1000000);
     env_Process := [fun c => Ok c];
     env_ToFormat := fun _ c => Ok c |}.

(** As [quiet], with the graph clock 10 ms ahead of the audio clock. *)
Definition drifting : EnqueueEnv :=
  {| env_GetSerial := 1;
     env_GetOuputDevice := env_GetOuputDevice quiet;
     env_CreateDevice := env_CreateDevice quiet;
     env_GetLastSampleEnd := 0;
     env_ProcessSample := Ok three_frames;
     env_GetTimingsError := 0;
     env_GetSlavedClockOffset := 0;
     env_dspRateActive := true;
     env_GetAudioClockStartTime := (S_OK, 0);
     env_GetAudioClockTime := (S_OK, 1000000);
     env_GetTime := (S_OK, 1100000);
     env_Process := [fun c => Ok c];
     env_ToFormat := fun _ c => Ok c |}.

(** As [drifting], before the audio clock has left its start time. *)
Definition not_started : EnqueueEnv :=
  {| env_GetSerial := 1;
     env_GetOuputDevice := env_GetOuputDevice quiet;
     env_CreateDevice := env_CreateDevice quiet;
     env_GetLastSampleEnd := 0;
     env_ProcessSample := Ok three_frames;
     env_GetTimingsError := 0;
     env_GetSlavedClockOffset := 0;
     env_dspRateActive := true;
     env_GetAudioClockStartTime := (S_OK, 0);
     env_GetAudioClockTime := (S_OK, 0);
     env_GetTime := (S_OK, 100000);
     env_Process := [fun c => Ok c];
     env_ToFormat := fun _ c => Ok c |}.

(** As [quiet], with a second DSP stage that runs out of memory. *)
Definition exhausted : EnqueueEnv :=
  {| env_GetSerial := 1;
     env_GetOuputDevice := env_GetOuputDevice quiet;
     env_CreateDevice := env_CreateDevice quiet;
     env_GetLastSampleEnd := 0;
     env_ProcessSample := Ok three_frames;
     env_GetTimingsError := 0;
     env_GetSlavedClockOffset := 0;
     env_dspRateActive := true;
     env_GetAudioClockStartTime := (S_OK, 0);
     env_GetAudioClockTime := (S_OK, 1000000);
     env_GetTime := (S_OK, 1000000);
     env_Process := [fun c => Ok c; fun _ => OutOfMemory];
     env_ToFormat := fun _ c => Ok c |}.

Definition no_tail : FinishEnv :=
  {| fenv_Finish := [fun c => Ok c];
     fenv_ToFormat := fun _ c => Ok c |}.

(** One second of audio pushed, the device clock stuck at half a second. *)
Definition draining : AudioRenderer := Upd.pushedFrames 48000 playing.

Definition stalled : BlockTick :=
  {| bt_GetFrequency := (S_OK, 48000);
     bt_GetPosition := (S_OK, 24000);
     bt_flush := false |}.

(** A thousand silent stereo 16-bit frames, and collaborators that hand
    them to [Enqueue]. *)
Definition thousand_frames : DspChunk :=
  {| frameSize := 4; frameCount := 1000; constData := repeat x00 4000 |}.

Definition thousand : EnqueueEnv :=
  {| env_GetSerial := 1;
     env_GetOuputDevice := env_GetOuputDevice quiet;
     env_CreateDevice := env_CreateDevice quiet;
     env_GetLastSampleEnd := 0;
     env_ProcessSample := Ok thousand_frames;
     env_GetTimingsError := 0;
     env_GetSlavedClockOffset := 0;
     env_dspRateActive := true;
     env_GetAudioClockStartTime := (S_OK, 0);
     env_GetAudioClockTime := (S_OK, 1000000);
     env_GetTime := (S_OK, 1000000);
     env_Process := [fun c => Ok c];
     env_ToFormat := fun _ c => Ok c |}.

(** Set a format, play, enqueue the thousand frames into a buffer of 480
    frames that has drained each time the loop looks again. *)
Definition play_thousand : list Operation :=
  [OpSetFormat (Some stereo16); OpPlay 0;
   OpEnqueue thousand [tick 480 0 false; tick 480 0 false; tick 480 440 false]].

(** Set a format, play, enqueue three frames into a two-frame buffer. *)
Definition play_three : list Operation :=
  [OpSetFormat (Some stereo16); OpPlay 0;
   OpEnqueue quiet [tick 2 0 false; tick 2 1 false]].

(** The same, followed by [Stop]. *)
Definition play_three_and_stop : list Operation := play_three ++ [OpStop].

(** A tick on which the device cannot report its padding. *)
Definition broken_tick : PushTick :=
  {| pt_flush := false;
     pt_GetBufferSize := (S_OK, 480);
     pt_GetCurrentPadding := (E_FAIL, 0);
     pt_GetBuffer := S_OK;
     pt_ReleaseBuffer := S_OK;
     pt_GetTime := (S_OK, 0);
     pt_GetLastSampleEnd := 10000000 |}.

(** Paused with an open session. *)
Definition paused : AudioRenderer := Upd.state State_Paused playing.

(** Running with the flush event already signalled. *)
Definition flushing : AudioRenderer := Upd.flush true playing.

(** The device clock cannot report its position. *)
Definition clock_lost : BlockTick :=
  {| bt_GetFrequency := (S_OK, 48000);
     bt_GetPosition := (E_FAIL, 0);
     bt_flush := false |}.

(** The device clock has reached one second. *)
Definition drained : BlockTick :=
  {| bt_GetFrequency := (S_OK, 48000);
     bt_GetPosition := (S_OK, 48000);
     bt_flush := false |}.

(** The device clock is stuck and the flush event is raised during the
    sleep. *)
Definition stalled_then_flushed : BlockTick :=
  {| bt_GetFrequency := (S_OK, 48000);
     bt_GetPosition := (S_OK, 24000);
     bt_flush := true |}.

(** DSP stages of which the second runs out of memory when drained. *)
Definition exhausted_tail : FinishEnv :=
  {| fenv_Finish := [fun c => Ok c; fun _ => OutOfMemory];
     fenv_ToFormat := fun _ c => Ok c |}.

(** A bitstreaming session, and a renderer running on it. *)
Definition receiver : AudioDevice :=
  {| settingsSerial := 1;
     exclusive := true;
     bitstream := true;
     friendlyName := "Receiver";
     default := false;
     waveFormat := stereo16;
     dspFormat := 0 |}.

Definition bitstreaming : AudioRenderer :=
  Upd.externalClock true (Upd.device (Some receiver) playing).

(** As [quiet], with DSP stages that would empty the chunk or fail. *)
Definition hostile_stages : EnqueueEnv :=
  {| env_GetSerial := 1;
     env_GetOuputDevice := env_GetOuputDevice quiet;
     env_CreateDevice := env_CreateDevice quiet;
     env_GetLastSampleEnd := 0;
     env_ProcessSample := Ok three_frames;
     env_GetTimingsError := 0;
     env_GetSlavedClockOffset := 0;
     env_dspRateActive := false;
     env_GetAudioClockStartTime := (S_OK, 0);
     env_GetAudioClockTime := (S_OK, 1000000);
     env_GetTime := (S_OK, 1100000);
     env_Process := [fun _ => Ok DspChunk_default; fun _ => OutOfMemory];
     env_ToFormat := fun _ _ => OutOfMemory |}.

(** As [quiet], with a timing error of 0.5 ms against a slaved-clock
    offset of 0.1 ms. *)
Definition late : EnqueueEnv :=
  {| env_GetSerial := 1;
     env_GetOuputDevice := env_GetOuputDevice quiet;
     env_CreateDevice := env_CreateDevice quiet;
     env_GetLastSampleEnd := 0;
     env_ProcessSample := Ok three_frames;
     env_GetTimingsError := 5000;
     env_GetSlavedClockOffset := 1000;
     env_dspRateActive := true;
     env_GetAudioClockStartTime := (S_OK, 0);
     env_GetAudioClockTime := (S_OK, 1000000);
     env_GetTime := (S_OK, 1000000);
     env_Process := [fun c => Ok c];
     env_ToFormat := fun _ c => Ok c |}.

(** Headphones, and settings that now name them: serial 2. *)
Definition headphones : AudioDevice :=
  {| settingsSerial := 2;
     exclusive := false;
     bitstream := false;
     friendlyName := "Headphones";
     default := false;
     waveFormat := stereo16;
     dspFormat := 1 |}.

Definition switched : EnqueueEnv :=
  {| env_GetSerial := 2;
     env_GetOuputDevice :=
       {| od_hr := S_OK; od_pDeviceName := Some "Headphones"%string;
          od_exclusive := false |};
     env_CreateDevice := Ok (Some headphones);
     env_GetLastSampleEnd := 0;
     env_ProcessSample := Ok three_frames;
     env_GetTimingsError := 0;
     env_GetSlavedClockOffset := 0;
     env_dspRateActive := true;
     env_GetAudioClockStartTime := (S_OK, 0);
     env_GetAudioClockTime := (S_OK, 1000000);
     env_GetTime := (S_OK, 1000000);
     env_Process := [fun c => Ok c];
     env_ToFormat := fun _ c => Ok c |}.

(** As [quiet], with a device manager that has no device to offer. *)
Definition no_device : EnqueueEnv :=
  {| env_GetSerial := 1;
     env_GetOuputDevice := env_GetOuputDevice quiet;
     env_CreateDevice := Ok None;
     env_GetLastSampleEnd := 0;
     env_ProcessSample := Ok three_frames;
     env_GetTimingsError := 0;
     env_GetSlavedClockOffset := 0;
     env_dspRateActive := true;
     env_GetAudioClockStartTime := (S_OK, 0);
     env_GetAudioClockTime := (S_OK, 1000000);
     env_GetTime := (S_OK, 1000000);
     env_Process := [fun c => Ok c];
     env_ToFormat := fun _ c => Ok c |}.

(** Running without a session. *)
Definition running_idle : AudioRenderer := Upd.device None playing.

(** Everything the constructor needs is in place. *)
Definition all_present : ConstructorArgs :=
  {| ctor_deviceManager := S_OK;
     ctor_pSettings := true;
     ctor_pClock := true;
     ctor_QueryInterface := S_OK;
     ctor_flush := true;
     ctor_bufferFilled := true |}.

(** The settings pointer is null. *)
Definition no_settings : ConstructorArgs :=
  {| ctor_deviceManager := S_OK;
     ctor_pSettings := false;
     ctor_pClock := true;
     ctor_QueryInterface := S_OK;
     ctor_flush := true;
     ctor_bufferFilled := true |}.

(** Playback rates as bit patterns of a [double]: 1.0, which [float]
    holds exactly, and 0.1, which it does not. *)
Definition normal_speed : Z := 4607182418800017408.
Definition a_tenth : Z := 4591870180066957722.

End Scenario.

Arguments UINT32 : simpl never.
Arguments UINT64 : simpl never.
Arguments int32_t : simpl never.
Arguments int64_t : simpl never.
Arguments llMulDiv : simpl never.
Arguments doFrames_of : simpl never.
Arguments memcpy_source : simpl never.
Arguments sleep_ms : simpl never.
Arguments within_float : simpl never.
Arguments MILLISECONDS_TO_100NS_UNITS : simpl never.

(* ================================================================== *)
(** * Properties *)

(** ** Machine integers *)

Lemma UINT32_range z : 0 <= UINT32 z < 2 ^ 32.
Proof. unfold UINT32. apply Z.mod_pos_bound. lia. Qed.

Lemma UINT32_small z : 0 <= z < 2 ^ 32 -> UINT32 z = z.
Proof. intros H. unfold UINT32. now apply Z.mod_small. Qed.

Lemma UINT32_le z : 0 <= z -> UINT32 z <= z.
Proof. intros H. unfold UINT32. apply Z.mod_le; lia. Qed.

Lemma UINT64_small z : 0 <= z < 2 ^ 64 -> UINT64 z = z.
Proof. intros H. unfold UINT64. now apply Z.mod_small. Qed.

Lemma state_eqb_spec a b : reflect (a = b) (state_eqb a b).
Proof. destruct a, b; simpl; constructor; congruence. Qed.

Lemma state_eqb_refl a : state_eqb a a = true.
Proof. now destruct a. Qed.

Lemma state_eqb_neq a b : a <> b -> state_eqb a b = false.
Proof. destruct (state_eqb_spec a b); congruence. Qed.

(** ** The rules of [maintains] *)

Section Rules.

Context {I : AudioRenderer -> Prop}.

Lemma maintains_ret {A} (a : A) : maintains I (ret a).
Proof. intros r H. exact H. Qed.

Lemma maintains_throw {A} (e : Exn) : maintains I (@throw A e).
Proof. intros r H. exact H. Qed.

Lemma maintains_blocked {A} : maintains I (fun r => (@Blocked A, r)).
Proof. intros r H. exact H. Qed.

Lemma maintains_get : maintains I get.
Proof. intros r H. exact H. Qed.

Lemma maintains_assert c : maintains I (assert c).
Proof. intros r H. unfold assert. now destruct c. Qed.

Lemma maintains_ThrowIfFailed hr : maintains I (ThrowIfFailed hr).
Proof. intros r H. unfold ThrowIfFailed. now destruct (FAILED hr). Qed.

Lemma maintains_lift {A} (x : Res A) : maintains I (lift x).
Proof. intros r H. now destruct x. Qed.

Lemma maintains_modify f : (forall r, I r -> I (f r)) -> maintains I (modify f).
Proof. intros Hf r H. now apply Hf. Qed.

Lemma maintains_bind {A B} (m : M A) (k : A -> M B) :
  maintains I m -> (forall a, maintains I (k a)) -> maintains I (bind m k).
Proof.
  intros Hm Hk r H. unfold bind.
  specialize (Hm r H).
  destruct (m r) as [[a | e | | ] r']; simpl in *; auto.
  now apply Hk.
Qed.

Lemma maintains_when c m : maintains I m -> maintains I (when c m).
Proof. intros Hm. unfold when. destruct c; [exact Hm | apply maintains_ret]. Qed.

Lemma maintains_catch_bad_alloc {A} (body handler : M A) :
  maintains I body -> maintains I handler -> maintains I (catch_bad_alloc body handler).
Proof.
  intros Hb Hh r H. unfold catch_bad_alloc.
  specialize (Hb r H).
  destruct (body r) as [[a | [ | hr] | | ] r']; simpl in *; auto.
Qed.

Lemma maintains_catch_hresult {A} (body handler : M A) :
  maintains I body -> maintains I handler -> maintains I (catch_hresult body handler).
Proof.
  intros Hb Hh r H. unfold catch_hresult.
  specialize (Hb r H).
  destruct (body r) as [[a | [ | hr] | | ] r']; simpl in *; auto.
Qed.

End Rules.

(** Decomposes a [maintains] goal along the structure of the function,
    leaving the state updates that the invariant has to survive. *)
Create HintDb frame.

Ltac frame_step :=
  first
    [ solve [auto with frame nocore]
    | apply maintains_ret
    | apply maintains_throw
    | apply maintains_blocked
    | apply maintains_get
    | apply maintains_assert
    | apply maintains_ThrowIfFailed
    | apply maintains_lift
    | apply maintains_when
    | apply maintains_catch_bad_alloc
    | apply maintains_catch_hresult
    | apply maintains_bind; [ | intros ? ]
    | match goal with
      | |- maintains _ (match ?x with _ => _ end) => destruct x
      | |- maintains _ (call _) => apply maintains_modify; intros ? ?
      | |- maintains _ (modify _) => apply maintains_modify; intros ? ?
      end ].

Ltac frame := repeat frame_step.

(** Unfolds the monad so that a member function can be run on a state. *)
Ltac run :=
  unfold bind, get, assert, when, modify, call, ret, throw; simpl.

(* ================================================================== *)
(** ** Session teardown *)

Lemma ClearDevice_result r :
  exists r', ClearDevice r = (Ret tt, r') /\
    m_device r' = None /\ m_pushedFrames r' = 0 /\
    m_state r' = m_state r /\ m_inputFormat r' = m_inputFormat r /\
    m_externalClock r' = m_externalClock r /\ m_flush r' = m_flush r /\
    m_correctedWithRateDsp r' = m_correctedWithRateDsp r /\
    rate_adjustments (calls r') = rate_adjustments (calls r) /\
    frames_written (calls r') = frames_written (calls r).
Proof.
  unfold ClearDevice. run.
  assert (Hr : forall l c, (forall o, c <> DspRate_Adjust o) ->
             rate_adjustments (l ++ [c]) = rate_adjustments l).
  { induction l as [| x l IH]; intros c Hc; simpl.
    - destruct c; try reflexivity. now elim (Hc offset).
    - destruct x; simpl; rewrite ?IH; auto. }
  assert (Hw : forall l c, (forall n b, c <> RenderClient_Write n b) ->
             frames_written (l ++ [c]) = frames_written l).
  { induction l as [| x l IH]; intros c Hc; simpl.
    - destruct c; try reflexivity. now elim (Hc doFrames bytes).
    - destruct x; simpl; rewrite ?IH; auto. }
  destruct (m_device r); simpl; eexists; (split; [reflexivity |]); simpl;
    repeat split; rewrite ?Hr, ?Hw; try reflexivity; intros; discriminate.
Qed.

(* ================================================================== *)
(** ** EndFlush *)

Lemma EndFlush_returns (r : AudioRenderer) :
  m_state r <> State_Running ->
  exists r', EndFlush r = (Ret tt, r') /\
    m_pushedFrames r' = 0 /\
    m_flush r' = false /\
    m_state r' = m_state r /\
    m_device r' = m_device r /\
    match m_device r with
    | Some _ => calls r' = calls r ++ [AudioClient_Reset] /\ m_bufferFilled r' = false
    | None => calls r' = calls r /\ m_bufferFilled r' = m_bufferFilled r
    end.
Proof.
  intros H. unfold EndFlush; run.
  rewrite (state_eqb_neq _ _ H). simpl.
  destruct (m_device r) eqn:D; simpl; eexists; (split; [reflexivity |]); simpl;
    rewrite ?D; auto 10.
Qed.

(** C7.  [EndFlush] carries the precondition that the renderer is not
    Running: called while Running it stops at its assertion.  Called in any
    other state it returns having reset the pushed-frame counter to 0 and
    the flush signal; when a session exists it has also reset the audio
    client (the device's hardware buffer) and the buffer-filled signal, and
    when none exists it has touched neither. *)
Theorem EndFlush_contract (r : AudioRenderer) :
  (m_state r = State_Running -> EndFlush r = (AssertFail, r)) /\
  (m_state r <> State_Running ->
   exists r', EndFlush r = (Ret tt, r') /\
     m_pushedFrames r' = 0 /\
     m_flush r' = false /\
     m_state r' = m_state r /\
     m_device r' = m_device r /\
     match m_device r with
     | Some _ => calls r' = calls r ++ [AudioClient_Reset] /\ m_bufferFilled r' = false
     | None => calls r' = calls r /\ m_bufferFilled r' = m_bufferFilled r
     end).
Proof.
  split; intros H.
  - unfold EndFlush; run. rewrite H. reflexivity.
  - now apply EndFlush_returns.
Qed.

Lemma EndFlush_contract_witness :
  exists r', EndFlush (Upd.state State_Paused Scenario.draining) = (Ret tt, r') /\
    m_pushedFrames r' = 0 /\ m_flush r' = false /\
    calls r' = [AudioClient_Reset] /\ m_bufferFilled r' = false.
Proof.
  destruct (proj2 (EndFlush_contract (Upd.state State_Paused Scenario.draining)))
    as (r' & E & P & F & _ & _ & L & B).
  - simpl. discriminate.
  - exists r'. simpl in L. auto.
Defined.

(* ================================================================== *)
(** ** Finish without a session *)

(** C10.  When no session exists at the call, [Finish] ignores
    [blockUntilEnd]: [Finish(true)] and [Finish(false)] are the same
    computation, and (the renderer not being Stopped, as [Finish] asserts)
    the drained chunk is empty, no wait takes place, the renderer is left
    untouched and the result is [true]. *)
Theorem Finish_without_device (b : bool) (env : FinishEnv)
    (pushTicks : list PushTick) (blockTicks : list BlockTick) (r : AudioRenderer) :
  m_device r = None ->
  Finish true env pushTicks blockTicks r = Finish false env pushTicks blockTicks r /\
  (m_state r <> State_Stopped ->
   Finish_locked b env r = (Ret (DspChunk_default, false), r) /\
   Finish b env pushTicks blockTicks r = (Ret true, r)).
Proof.
  intros D. split.
  - unfold Finish, Finish_locked, catch_bad_alloc; run. rewrite D. simpl.
    destruct (state_eqb (m_state r) State_Stopped); reflexivity.
  - intros S. unfold Finish, Finish_locked, catch_bad_alloc; run.
    rewrite D, (state_eqb_neq _ _ S). simpl. split; reflexivity.
Qed.

Lemma Finish_without_device_witness :
  Finish true Scenario.no_tail [] [] Scenario.paused_idle
  = (Ret true, Scenario.paused_idle).
Proof.
  apply (Finish_without_device true Scenario.no_tail [] [] Scenario.paused_idle).
  - reflexivity.
  - simpl. discriminate.
Defined.

(* ================================================================== *)
(** ** The state machine *)

(** C8, as stated, fails: [Pause] carries no assertion, so pausing a
    Stopped renderer, which is not among the declared transitions, is not
    refused. *)
Lemma undeclared_transition_not_refused :
  ~ (forall (t : Transition) (startTime : REFERENCE_TIME) (r : AudioRenderer),
       declared_legal (m_state r) t = false ->
       fst (transition t startTime r) = AssertFail).
Proof.
  intros H. specialize (H ByPause 0 constructed eq_refl). discriminate H.
Qed.

(** C8, amended.  [Play] asserts that the renderer is not Running and
    otherwise ends Running.  [Pause] and [Stop] make no assertion about the
    current state: from every state [Pause] ends Paused and [Stop] ends
    Stopped.  [Enqueue] and [Finish] stop at an assertion when the renderer
    is Stopped, and so does [Push] at the first iteration of its loop over
    a chunk that holds frames. *)
Theorem state_machine_assertions :
  (forall t r, m_state r = State_Running -> Play t r = (AssertFail, r)) /\
  (forall t r, m_state r <> State_Running ->
     fst (Play t r) = Ret tt /\ m_state (snd (Play t r)) = State_Running) /\
  (forall r, fst (Pause r) = Ret tt /\ m_state (snd (Pause r)) = State_Paused) /\
  (forall r, fst (Stop r) = Ret tt /\ m_state (snd (Stop r)) = State_Stopped) /\
  (forall env ticks r, m_state r = State_Stopped ->
     fst (Enqueue env ticks r) = AssertFail) /\
  (forall b env pushTicks blockTicks r, m_state r = State_Stopped ->
     fst (Finish b env pushTicks blockTicks r) = AssertFail) /\
  (forall chunk t ticks r, 0 < GetFrameCount chunk -> m_state r = State_Stopped ->
     fst (Push chunk (t :: ticks) r) = AssertFail).
Proof.
  split; [| split; [| split; [| split; [| split; [| split]]]]].
  - intros t r H. unfold Play; run. rewrite H. reflexivity.
  - intros t r H. unfold Play, StartDevice; run.
    rewrite (state_eqb_neq _ _ H). simpl.
    destruct (m_device r); split; reflexivity.
  - intros r. unfold Pause; run. destruct (m_device r); split; reflexivity.
  - intros r. unfold Stop. run.
    destruct (ClearDevice_result (Upd.state State_Stopped r))
      as (r' & E & _ & _ & S & _).
    rewrite E. simpl. rewrite S. split; reflexivity.
  - intros env ticks r H. unfold Enqueue, Enqueue_locked; run. rewrite H.
    destruct (m_inputFormat r); reflexivity.
  - intros b env pushTicks blockTicks r H.
    unfold Finish, Finish_locked; run. rewrite H. reflexivity.
  - intros chunk t ticks r F H. unfold Push, IsEmpty, GetFrameCount in *.
    assert (E : (frameCount chunk =? 0) = false) by (apply Z.eqb_neq; lia).
    assert (L : (0 <? frameCount chunk) = true) by (apply Z.ltb_lt; lia).
    rewrite E. simpl. unfold GetFrameCount. rewrite L.
    unfold Push_iteration; run. rewrite H. reflexivity.
Qed.

Lemma state_machine_assertions_witness :
  Play 0 Scenario.playing = (AssertFail, Scenario.playing) /\
  fst (Push Scenario.three_frames [Scenario.tick 2 0 false] constructed) = AssertFail.
Proof.
  destruct state_machine_assertions as (P & _ & _ & _ & _ & _ & U).
  split.
  - apply P. reflexivity.
  - apply U; reflexivity.
Defined.

(* ================================================================== *)
(** ** CheckDeviceSettings *)

(** The test in the code is the negation of the specification's notion of
    a compatible change. *)
Lemma settings_mismatch_spec dev out :
  settings_mismatch dev out = false <-> compatible_change dev out.
Proof.
  unfold settings_mismatch, compatible_change, names_a_device, wcscmp_differs.
  destruct (od_pDeviceName out) as [name |]; simpl.
  - destruct (String.eqb_spec name EmptyString) as [-> | Hne]; simpl;
      destruct (Bool.eqb_spec (exclusive dev) (od_exclusive out)) as [He | He]; simpl.
    + destruct (default dev); simpl; intuition congruence.
    + intuition congruence.
    + destruct (String.eqb_spec name (friendlyName dev)); simpl; intuition congruence.
    + intuition congruence.
  - destruct (Bool.eqb_spec (exclusive dev) (od_exclusive out)) as [He | He]; simpl.
    + destruct (default dev); simpl; intuition congruence.
    + intuition congruence.
Qed.

(** C6, as stated, fails: when the query for the output device fails, a
    session whose settings changed compatibly keeps its old serial. *)
Lemma failed_query_keeps_stale_serial :
  ~ (forall serial out r dev,
       m_device r = Some dev ->
       settingsSerial dev <> serial ->
       compatible_change dev out ->
       m_device (snd (CheckDeviceSettings serial out r))
       = Some (with_settingsSerial serial dev)).
Proof.
  intros H.
  specialize (H 2 {| od_hr := E_FAIL; od_pDeviceName := None; od_exclusive := false |}
                Scenario.playing Scenario.speakers eq_refl).
  simpl in H.
  assert (C : false = false /\ true = true) by (split; reflexivity).
  specialize (H ltac:(discriminate) C).
  discriminate H.
Qed.

(** C6, amended.  With a session open: if the settings serial equals the
    stored one, nothing changes; if it differs and the query for the output
    device fails, nothing changes either; if it differs, the query succeeds
    and the change is compatible (same exclusivity flag and same device
    identity), the session is kept and its stored serial becomes the new
    one; if it differs, the query succeeds and the change is incompatible,
    the session is cleared. *)
Theorem CheckDeviceSettings_cases (serial : Z) (out : OuputDevice)
    (r : AudioRenderer) (dev : AudioDevice) :
  m_device r = Some dev ->
  (settingsSerial dev = serial ->
     CheckDeviceSettings serial out r = (Ret tt, r)) /\
  (settingsSerial dev <> serial -> SUCCEEDED (od_hr out) = false ->
     CheckDeviceSettings serial out r = (Ret tt, r)) /\
  (settingsSerial dev <> serial -> SUCCEEDED (od_hr out) = true ->
   compatible_change dev out ->
     CheckDeviceSettings serial out r
     = (Ret tt, Upd.device (Some (with_settingsSerial serial dev)) r)) /\
  (settingsSerial dev <> serial -> SUCCEEDED (od_hr out) = true ->
   ~ compatible_change dev out ->
     exists r', CheckDeviceSettings serial out r = (Ret tt, r') /\
       m_device r' = None /\ m_pushedFrames r' = 0).
Proof.
  intros D. unfold CheckDeviceSettings; run. rewrite D.
  split; [| split; [| split]].
  - intros E. apply Z.eqb_eq in E. rewrite E. reflexivity.
  - intros N F. apply Z.eqb_neq in N. rewrite N, F. reflexivity.
  - intros N S C. apply Z.eqb_neq in N. rewrite N, S. simpl.
    apply settings_mismatch_spec in C. rewrite C. reflexivity.
  - intros N S C. apply Z.eqb_neq in N. rewrite N, S. simpl.
    destruct (settings_mismatch dev out) eqn:Mm.
    + destruct (ClearDevice_result r) as (r' & E & Dn & P & _).
      rewrite E. simpl. rewrite Dn. simpl. eauto.
    + elim C. now apply settings_mismatch_spec.
Qed.

Lemma CheckDeviceSettings_cases_witness :
  CheckDeviceSettings 2
    {| od_hr := S_OK; od_pDeviceName := Some "Speakers"%string; od_exclusive := false |}
    Scenario.playing
  = (Ret tt, Upd.device (Some (with_settingsSerial 2 Scenario.speakers)) Scenario.playing)
  /\ exists r', CheckDeviceSettings 2
       {| od_hr := S_OK; od_pDeviceName := Some "Headphones"%string; od_exclusive := false |}
       Scenario.playing = (Ret tt, r') /\ m_device r' = None /\ m_pushedFrames r' = 0.
Proof.
  split.
  - apply (CheckDeviceSettings_cases 2 _ Scenario.playing Scenario.speakers eq_refl).
    + simpl. discriminate.
    + reflexivity.
    + split; reflexivity.
  - apply (CheckDeviceSettings_cases 2 _ Scenario.playing Scenario.speakers eq_refl).
    + simpl. discriminate.
    + reflexivity.
    + intros [_ C]. simpl in C. discriminate C.
Defined.

(* ================================================================== *)
(** ** What the locked part of Enqueue leaves alone *)

Lemma maintains_EnumerateProcessors {I : AudioRenderer -> Prop} stages chunk :
  maintains I (EnumerateProcessors stages chunk).
Proof.
  revert chunk. induction stages as [| f rest IH]; intros chunk; simpl.
  - apply maintains_ret.
  - apply maintains_bind; [apply maintains_lift | intros c; apply IH].
Qed.

#[local] Hint Resolve maintains_EnumerateProcessors : frame.

Ltac unfold_members :=
  unfold Enqueue_try, Enqueue_prologue, Enqueue_sync, Enqueue_dsp,
    CheckDeviceSettings, CreateDevice, InitializeProcessors, StartDevice,
    ClearDevice, OffsetSlavedClock_step, RateDsp_step, Wait.

Ltac framed := frame; try solve [auto with frame nocore].

Lemma Enqueue_try_keeps_state env s :
  maintains (fun r => m_state r = s) (Enqueue_try env).
Proof. unfold_members. framed; simpl; assumption. Qed.

Lemma Enqueue_try_keeps_inputFormat env f :
  maintains (fun r => m_inputFormat r = f) (Enqueue_try env).
Proof. unfold_members. framed; simpl; assumption. Qed.

(* ================================================================== *)
(** ** Out of memory during Enqueue *)

(** C5.  When the DSP processing of [Enqueue] (its [try] block) ends in
    [std::bad_alloc], the locked part of [Enqueue] still returns, what it
    hands to [Push] is the empty chunk, the session is cleared, and
    [Enqueue] returns normally (with [true], whatever the device would
    answer); the state and the input format are as before, so the entry
    assertions of the next call hold again. *)
Theorem Enqueue_survives_bad_alloc (env : EnqueueEnv) (ticks : list PushTick)
    (r r1 : AudioRenderer) :
  m_inputFormat r <> None ->
  m_state r <> State_Stopped ->
  Enqueue_try env r = (Throw bad_alloc, r1) ->
  exists r',
    Enqueue_locked env r = (Ret DspChunk_default, r') /\
    IsEmpty DspChunk_default = true /\
    Enqueue env ticks r = (Ret true, r') /\
    m_device r' = None /\
    m_pushedFrames r' = 0 /\
    m_state r' = m_state r /\
    m_inputFormat r' = m_inputFormat r.
Proof.
  intros F S T.
  pose proof (Enqueue_try_keeps_state env (m_state r) r eq_refl) as Ks.
  pose proof (Enqueue_try_keeps_inputFormat env (m_inputFormat r) r eq_refl) as Kf.
  rewrite T in Ks, Kf. simpl in Ks, Kf.
  destruct (ClearDevice_result r1) as (r' & E & D & P & S' & F' & _).
  exists r'.
  assert (L : Enqueue_locked env r = (Ret DspChunk_default, r')).
  { unfold Enqueue_locked, catch_bad_alloc; run.
    destruct (m_inputFormat r); [| congruence]. simpl.
    rewrite (state_eqb_neq _ _ S). simpl. rewrite T, E. reflexivity. }
  repeat split; try congruence.
  unfold Enqueue, bind. rewrite L. reflexivity.
Qed.

Lemma Enqueue_survives_bad_alloc_witness :
  exists r',
    Enqueue_locked Scenario.exhausted Scenario.playing = (Ret DspChunk_default, r') /\
    IsEmpty DspChunk_default = true /\
    Enqueue Scenario.exhausted [] Scenario.playing = (Ret true, r') /\
    m_device r' = None /\
    m_pushedFrames r' = 0 /\
    m_state r' = State_Running /\
    m_inputFormat r' = Some Scenario.stereo16.
Proof.
  apply (Enqueue_survives_bad_alloc Scenario.exhausted [] Scenario.playing
           Scenario.playing).
  - simpl. discriminate.
  - simpl. discriminate.
  - reflexivity.
Defined.

(** After an [Enqueue] that ran out of memory the next one opens a new
    session and delivers its frames. *)
Example enqueue_recovers_after_bad_alloc :
  let r1 := snd (Enqueue Scenario.exhausted [] Scenario.playing) in
  let r2 := snd (Enqueue Scenario.quiet [Scenario.tick 480 0 false] r1) in
  m_device r1 = None /\
  fst (Enqueue Scenario.quiet [Scenario.tick 480 0 false] r1) = Ret true /\
  m_device r2 = Some Scenario.speakers /\
  m_pushedFrames r2 = 3.
Proof. vm_compute. repeat split. Qed.

(* ================================================================== *)
(** ** The pushed-frame counter *)

Ltac idle := unfold counter_idle in *; simpl in *; try congruence; auto.

Lemma ClearDevice_idle : maintains counter_idle ClearDevice.
Proof.
  intros r _. destruct (ClearDevice_result r) as (r' & E & D & P & _).
  rewrite E. intros _. exact P.
Qed.

Lemma CreateDevice_idle created lastSampleEnd :
  maintains counter_idle (CreateDevice created lastSampleEnd).
Proof.
  intros r H. unfold CreateDevice, InitializeProcessors, StartDevice. run.
  destruct (m_device r) eqn:D; simpl; [exact H |].
  destruct (m_inputFormat r) eqn:F; simpl; [| exact H].
  destruct created as [[dev |] |]; simpl; [| idle | exact H].
  rewrite F. simpl.
  destruct (bitstream dev); simpl;
    destruct (state_eqb (m_state r) State_Running) eqn:S; simpl; rewrite ?S; simpl;
    idle.
Qed.

Lemma Push_write_keeps_device chunk doneFrames dev t d :
  maintains (fun r => m_device r = d) (Push_write chunk doneFrames dev t).
Proof. unfold Push_write. framed; simpl; assumption. Qed.

Lemma Push_iteration_idle chunk doneFrames t :
  maintains counter_idle (Push_iteration chunk doneFrames t).
Proof.
  intros r H. unfold Push_iteration, catch_hresult. run.
  destruct (state_eqb (m_state r) State_Stopped); simpl; [exact H |].
  destruct (m_device r) as [dev |] eqn:D.
  - pose proof (Push_write_keeps_device chunk doneFrames dev t (Some dev) r D) as K.
    destruct (Push_write chunk doneFrames dev t r) as [[d | [| hr] | |] r1];
      simpl in *; try (intros N; congruence).
    destruct (ClearDevice_result r1) as (r' & E & Dn & P & _).
    rewrite E. simpl. rewrite Dn. simpl.
    match goal with |- context [if ?c then _ else _] => destruct c end; idle.
  - simpl. rewrite D. simpl.
    match goal with |- context [if ?c then _ else _] => destruct c end; idle.
Qed.

#[local] Hint Resolve ClearDevice_idle CreateDevice_idle Push_iteration_idle : frame.

Lemma Push_loop_idle chunk ticks : forall firstIteration doneFrames,
  maintains counter_idle (Push_loop chunk firstIteration doneFrames ticks).
Proof.
  induction ticks as [| t ticks IH]; intros firstIteration doneFrames;
    cbn [Push_loop].
  - destruct (doneFrames <? GetFrameCount chunk); framed.
  - unfold Wait. framed; idle.
Qed.

Lemma Push_idle chunk ticks : maintains counter_idle (Push chunk ticks).
Proof. unfold Push. destruct (IsEmpty chunk); [framed | apply Push_loop_idle]. Qed.

Lemma doBlock_loop_idle ticks : maintains counter_idle (doBlock_loop ticks).
Proof.
  induction ticks as [| t ticks IH]; cbn [doBlock_loop].
  - framed.
  - unfold doBlock_locked, Wait. framed; idle.
Qed.

#[local] Hint Resolve Push_idle doBlock_loop_idle : frame.

Lemma CheckDeviceSettings_idle serial out :
  maintains counter_idle (CheckDeviceSettings serial out).
Proof. unfold CheckDeviceSettings. framed; idle. Qed.

#[local] Hint Resolve CheckDeviceSettings_idle : frame.

Lemma Enqueue_idle env ticks : maintains counter_idle (Enqueue env ticks).
Proof.
  unfold Enqueue, Enqueue_locked, Enqueue_try, Enqueue_prologue, Enqueue_sync,
    Enqueue_dsp, OffsetSlavedClock_step, RateDsp_step.
  framed; idle.
Qed.

Lemma Finish_idle b env pushTicks blockTicks :
  maintains counter_idle (Finish b env pushTicks blockTicks).
Proof. unfold Finish, Finish_locked, doBlock. framed; idle. Qed.

Lemma perform_idle op : forall r, counter_idle r -> counter_idle (perform op r).
Proof.
  destruct op; simpl.
  - change (maintains counter_idle (SetClock queryInterface pClock)).
    unfold SetClock. framed; idle.
  - apply Enqueue_idle.
  - apply Finish_idle.
  - change (maintains counter_idle BeginFlush). unfold BeginFlush. framed; idle.
  - change (maintains counter_idle EndFlush). unfold EndFlush. framed; idle.
  - change (maintains counter_idle (SetFormat inputFormat)).
    unfold SetFormat. framed; idle.
  - change (maintains counter_idle (NewSegment rate withinFloat)).
    unfold NewSegment, InitializeProcessors. framed; idle.
  - change (maintains counter_idle (Play startTime)).
    unfold Play, StartDevice. framed; idle.
  - change (maintains counter_idle Pause). unfold Pause. framed; idle.
  - change (maintains counter_idle Stop). unfold Stop. framed; idle.
Qed.

Lemma run_idle ops : forall r, counter_idle r -> counter_idle (run ops r).
Proof.
  unfold run. induction ops as [| op ops IH]; intros r H; simpl.
  - exact H.
  - apply IH. now apply perform_idle.
Qed.

Lemma Push_iteration_without_device chunk doneFrames t p :
  maintains (fun r => m_device r = None /\ m_pushedFrames r = p)
            (Push_iteration chunk doneFrames t).
Proof.
  intros r [D P]. unfold Push_iteration. run.
  destruct (state_eqb (m_state r) State_Stopped); simpl; [auto |].
  rewrite D. simpl. rewrite D. simpl.
  match goal with |- context [if ?c then _ else _] => destruct c end; simpl; auto.
Qed.

Lemma Push_loop_without_device chunk p ticks : forall firstIteration doneFrames,
  maintains (fun r => m_device r = None /\ m_pushedFrames r = p)
            (Push_loop chunk firstIteration doneFrames ticks).
Proof.
  induction ticks as [| t ticks IH]; intros firstIteration doneFrames;
    cbn [Push_loop].
  - destruct (doneFrames <? GetFrameCount chunk); framed.
  - unfold Wait. pose proof Push_iteration_without_device as W.
    framed; simpl; auto.
Qed.

(* ================================================================== *)
(** ** One write of the push loop *)

Lemma SUCCEEDED_not_FAILED hr : SUCCEEDED hr = true -> FAILED hr = false.
Proof. unfold SUCCEEDED, FAILED. intros H. apply Z.leb_le in H. apply Z.ltb_ge. exact H. Qed.

Lemma ThrowIfFailed_ok hr : SUCCEEDED hr = true -> ThrowIfFailed hr = ret tt.
Proof. intros H. unfold ThrowIfFailed. now rewrite (SUCCEEDED_not_FAILED _ H). Qed.

Lemma log_app c r : calls (Upd.log c r) = calls r ++ [c].
Proof. reflexivity. Qed.

Lemma Push_iteration_step (chunk : DspChunk) (doneFrames : Z) (t : PushTick)
    (r : AudioRenderer) (dev : AudioDevice) :
  m_device r = Some dev ->
  m_state r <> State_Stopped ->
  healthy t ->
  GetFrameSize chunk = wBitsPerSample (waveFormat dev) / 8 * nChannels (waveFormat dev) ->
  0 <= padding_of t < capacity_of t ->
  capacity_of t < 2 ^ 32 ->
  0 <= doneFrames < GetFrameCount chunk ->
  GetFrameCount chunk - doneFrames < 2 ^ 32 ->
  0 <= m_pushedFrames r ->
  m_pushedFrames r + frames_that_fit t chunk doneFrames < 2 ^ 64 ->
  0 < frames_that_fit t chunk doneFrames /\
  Push_iteration chunk doneFrames t r
  = (Ret (Continue (doneFrames + frames_that_fit t chunk doneFrames)),
     after_write chunk doneFrames (frames_that_fit t chunk doneFrames) t r).
Proof.
  intros D S (H1 & H2 & H3 & H4) Fs Hp Hc Hd Hr Hp0 Hp1.
  unfold after_write, frames_that_fit, capacity_of, padding_of in *.
  remember (snd (pt_GetBufferSize t)) as cap eqn:Ecap.
  remember (snd (pt_GetCurrentPadding t)) as pad eqn:Epad.
  remember (Z.min (cap - pad) (GetFrameCount chunk - doneFrames)) as n eqn:En.
  assert (Hn : 0 < n <= cap - pad) by lia.
  assert (Edo : doFrames_of (UINT32 cap) (UINT32 pad) (GetFrameCount chunk) doneFrames = n).
  { unfold doFrames_of.
    rewrite (UINT32_small cap), (UINT32_small pad) by lia.
    rewrite !UINT32_small by lia. now symmetry. }
  assert (W : Push_write chunk doneFrames dev t r
              = (Ret (doneFrames + n),
                 Upd.pushedFrames (m_pushedFrames r + n)
                   (Upd.bufferFilled (pad + n =? cap)
                      (Upd.log (RenderClient_Write n (memcpy_source chunk doneFrames n)) r)))).
  { unfold Push_write.
    rewrite !ThrowIfFailed_ok by assumption.
    rewrite <- Ecap, <- Epad, Edo.
    assert (Z0 : (n =? 0) = false) by (apply Z.eqb_neq; lia). rewrite Z0.
    rewrite <- Fs, Z.eqb_refl.
    rewrite (UINT32_small pad), (UINT32_small cap), (UINT32_small (pad + n)) by lia.
    run. rewrite UINT64_small by lia. reflexivity. }
  split; [lia |].
  unfold Push_iteration, catch_hresult. run.
  rewrite (state_eqb_neq _ _ S), D. simpl. rewrite W. reflexivity.
Qed.

(** C3.  An iteration of [Push] that finds a session, a device whose calls
    all succeed, free space in the buffer and frames left in the chunk
    writes exactly the smaller of the free space (capacity minus padding)
    and the remaining frames; afterwards the buffer-filled signal is set
    if and only if padding plus the frames written equals the capacity,
    and [pushedFrames] has grown by the frames written.  The quantities
    are within the range of their C++ types. *)
Theorem Push_iteration_writes (chunk : DspChunk) (doneFrames : Z) (t : PushTick)
    (r : AudioRenderer) (dev : AudioDevice) :
  m_device r = Some dev ->
  m_state r <> State_Stopped ->
  healthy t ->
  GetFrameSize chunk = wBitsPerSample (waveFormat dev) / 8 * nChannels (waveFormat dev) ->
  0 <= padding_of t < capacity_of t ->
  capacity_of t < 2 ^ 32 ->
  0 <= doneFrames < GetFrameCount chunk ->
  GetFrameCount chunk - doneFrames < 2 ^ 32 ->
  0 <= m_pushedFrames r ->
  m_pushedFrames r + frames_that_fit t chunk doneFrames < 2 ^ 64 ->
  exists r',
    Push_iteration chunk doneFrames t r
    = (Ret (Continue (doneFrames + frames_that_fit t chunk doneFrames)), r') /\
    0 < frames_that_fit t chunk doneFrames /\
    calls r' = calls r ++ [RenderClient_Write (frames_that_fit t chunk doneFrames)
                             (memcpy_source chunk doneFrames
                                (frames_that_fit t chunk doneFrames))] /\
    (m_bufferFilled r' = true <->
     padding_of t + frames_that_fit t chunk doneFrames = capacity_of t) /\
    m_pushedFrames r' = m_pushedFrames r + frames_that_fit t chunk doneFrames /\
    m_device r' = Some dev.
Proof.
  intros D S H Fs Hp Hc Hd Hr Hp0 Hp1.
  destruct (Push_iteration_step chunk doneFrames t r dev D S H Fs Hp Hc Hd Hr Hp0 Hp1)
    as [Hn E].
  eexists. split; [exact E |]. split; [exact Hn |].
  unfold after_write. simpl. rewrite D.
  repeat split; intros X; apply Z.eqb_eq; exact X.
Qed.

Lemma Push_iteration_writes_witness :
  exists r',
    Push_iteration Scenario.three_frames 0 (Scenario.tick 2 0 false) Scenario.playing
    = (Ret (Continue 2), r') /\
    calls r' = [RenderClient_Write 2 [x01; x02; x03; x04; x05; x06; x07; x08]] /\
    m_bufferFilled r' = true /\
    m_pushedFrames r' = 2.
Proof.
  destruct (Push_iteration_writes Scenario.three_frames 0 (Scenario.tick 2 0 false)
              Scenario.playing Scenario.speakers)
    as (r' & E & _ & L & B & P & _);
    try reflexivity; try (vm_compute; intuition congruence).
  exists r'. repeat split.
  - exact E.
  - exact L.
  - apply B. reflexivity.
  - exact P.
Defined.

(* ================================================================== *)
(** ** Push delivers the whole chunk or is interrupted *)

Lemma frames_written_app l l' :
  frames_written (l ++ l') = frames_written l + frames_written l'.
Proof.
  induction l as [| c l IH]; simpl; [reflexivity |].
  destruct c; rewrite ?IH; lia.
Qed.

Lemma Wait_result ms raised r :
  exists b r1, Wait ms raised r = (Ret b, r1) /\
    calls r1 = calls r ++ [Flush_Wait ms] /\
    m_device r1 = m_device r /\
    (b = true -> m_flush r1 = true).
Proof.
  unfold Wait; run.
  destruct (m_flush r) eqn:F; [| destruct raised]; simpl;
    do 2 eexists; (split; [reflexivity |]); simpl; auto.
  repeat split. discriminate.
Qed.

(** One iteration on a healthy device with a session: the session stays,
    and the iteration continues with no more frames done than the chunk
    holds, each of them accounted for in the call log. *)
Lemma Push_iteration_healthy chunk doneFrames t r dev :
  m_device r = Some dev ->
  healthy t ->
  0 <= doneFrames <= GetFrameCount chunk ->
  exists out r1, Push_iteration chunk doneFrames t r = (out, r1) /\
    m_device r1 = Some dev /\
    match out with
    | Ret (Continue d) =>
        doneFrames <= d <= GetFrameCount chunk /\
        frames_written (calls r1) = frames_written (calls r) + (d - doneFrames) /\
        exists log, calls r1 = calls r ++ log
    | AssertFail => True
    | _ => False
    end.
Proof.
  intros D (H1 & H2 & H3 & H4) Hd.
  unfold Push_iteration, catch_hresult, Push_write.
  rewrite !ThrowIfFailed_ok by assumption. run.
  destruct (state_eqb (m_state r) State_Stopped); simpl; [eauto |].
  rewrite D.
  set (n := doFrames_of (UINT32 (snd (pt_GetBufferSize t)))
              (UINT32 (snd (pt_GetCurrentPadding t))) (GetFrameCount chunk) doneFrames).
  assert (Hn : 0 <= n <= GetFrameCount chunk - doneFrames).
  { unfold n, doFrames_of.
    pose proof (UINT32_range (UINT32 (snd (pt_GetBufferSize t))
                              - UINT32 (snd (pt_GetCurrentPadding t)))).
    pose proof (UINT32_range (GetFrameCount chunk - doneFrames)).
    pose proof (UINT32_le (GetFrameCount chunk - doneFrames)).
    lia. }
  destruct (n =? 0) eqn:Z0; simpl.
  - do 2 eexists. split; [reflexivity |]. split; [exact D |].
    split; [lia |]. split; [lia |]. exists []. now rewrite app_nil_r.
  - match goal with |- context [if ?c then _ else _] => destruct c end; simpl.
    + do 2 eexists. split; [reflexivity |]. simpl. split; [exact D |].
      split; [lia |]. split.
      * rewrite frames_written_app. simpl. lia.
      * eauto.
    + eauto.
Qed.

Lemma Push_loop_delivers chunk dev ticks : forall firstIteration doneFrames r out r',
  0 <= doneFrames <= GetFrameCount chunk ->
  m_device r = Some dev ->
  Forall healthy ticks ->
  Push_loop chunk firstIteration doneFrames ticks r = (out, r') ->
  m_device r' = Some dev /\
  (out = Ret true ->
   frames_written (calls r')
   = frames_written (calls r) + (GetFrameCount chunk - doneFrames)) /\
  (out = Ret false ->
   m_flush r' = true /\ exists log, calls r' = calls r ++ log ++ [Flush_Wait 50]).
Proof.
  assert (Exit : forall doneFrames r out r',
             0 <= doneFrames <= GetFrameCount chunk ->
             m_device r = Some dev ->
             (doneFrames <? GetFrameCount chunk) = false ->
             ret true r = (out, r') ->
             m_device r' = Some dev /\
             (out = Ret true ->
              frames_written (calls r')
              = frames_written (calls r) + (GetFrameCount chunk - doneFrames)) /\
             (out = Ret false ->
              m_flush r' = true /\ exists log, calls r' = calls r ++ log ++ [Flush_Wait 50])).
  { intros d r out r' Hd D L E. inversion E; subst. apply Z.ltb_ge in L.
    split; [exact D |]. split; [intros _; lia | discriminate]. }
  induction ticks as [| t ticks IH]; intros firstIteration doneFrames r out r' Hd D Hh E;
    cbn [Push_loop] in E;
    destruct (doneFrames <? GetFrameCount chunk) eqn:L; try (eapply Exit; eassumption).
  - inversion E; subst. split; [exact D |]. split; discriminate.
  - inversion Hh as [| ? ? Ht Hts]; subst.
    assert (W : exists b r0,
               (if firstIteration then ret false else Wait 50 (pt_flush t)) r = (Ret b, r0) /\
               m_device r0 = Some dev /\
               frames_written (calls r0) = frames_written (calls r) /\
               (exists log, calls r0 = calls r ++ log) /\
               (b = true -> m_flush r0 = true /\ calls r0 = calls r ++ [Flush_Wait 50])).
    { destruct firstIteration.
      - exists false, r. repeat split; auto; try discriminate.
        exists []. now rewrite app_nil_r.
      - destruct (Wait_result 50 (pt_flush t) r) as (b & r0 & Ew & Lw & Dw & Fw).
        exists b, r0. repeat split; auto; try congruence.
        + rewrite Lw, frames_written_app. simpl. lia.
        + eauto. }
    destruct W as (b & r0 & Ew & D0 & F0 & (log0 & L0) & B0).
    unfold bind at 1 in E. rewrite Ew in E. destruct b.
    + inversion E; subst. split; [exact D0 |]. split; [discriminate |].
      intros _. destruct (B0 eq_refl) as [Fl Lg]. split; [exact Fl |].
      exists []. exact Lg.
    + destruct (Push_iteration_healthy chunk doneFrames t r0 dev D0 Ht)
        as (o & r1 & Ei & D1 & Ho); [lia |].
      unfold bind at 1 in E. rewrite Ei in E.
      destruct o as [[d |] | e | |]; try contradiction.
      * destruct Ho as (Hd1 & F1 & (log1 & L1)).
        destruct (IH false d r1 out r' ltac:(lia) D1 Hts E) as (D' & T & Fl).
        split; [exact D' |]. split.
        -- intros Eo. rewrite (T Eo), F1, F0. lia.
        -- intros Eo. destruct (Fl Eo) as (Fl' & (log' & L')). split; [exact Fl' |].
           exists (log0 ++ log1 ++ log'). rewrite L', L1, L0.
           now rewrite <- !app_assoc.
      * inversion E; subst. split; [exact D1 |]. split; discriminate.
Qed.

Lemma bytes_written_app l l' :
  bytes_written (l ++ l') = bytes_written l ++ bytes_written l'.
Proof.
  induction l as [| c l IH]; simpl; [reflexivity |].
  destruct c; rewrite ?IH, <- ?app_assoc; reflexivity.
Qed.

Lemma firstn_plus {A} (a b : nat) : forall l : list A,
  firstn (a + b) l = firstn a l ++ firstn b (skipn a l).
Proof.
  induction a as [| a IH]; intros [| x l]; simpl; try reflexivity.
  - now rewrite firstn_nil.
  - now rewrite IH.
Qed.

Lemma skipn_plus {A} (a b : nat) : forall l : list A,
  skipn (a + b) l = skipn b (skipn a l).
Proof.
  induction a as [| a IH]; intros [| x l]; simpl; try reflexivity.
  - now rewrite skipn_nil.
  - apply IH.
Qed.

(** Two adjoining slices of a buffer make one slice. *)
Lemma slice_app {A} (l : list A) (s a b : Z) :
  0 <= s -> 0 <= a -> 0 <= b ->
  firstn (Z.to_nat a) (skipn (Z.to_nat s) l)
    ++ firstn (Z.to_nat b) (skipn (Z.to_nat (s + a)) l)
  = firstn (Z.to_nat (a + b)) (skipn (Z.to_nat s) l).
Proof.
  intros Hs Ha Hb.
  rewrite !Z2Nat.inj_add by assumption.
  now rewrite skipn_plus, firstn_plus.
Qed.

(** The bytes of one iteration on a healthy device with a session: what
    the iteration writes is the slice of the chunk's data that starts at
    the frames already done and spans the frames it adds, as long as the
    chunk's byte count fits the 32-bit size of the copy. *)
Lemma Push_iteration_copies chunk doneFrames t r dev :
  m_device r = Some dev ->
  healthy t ->
  0 <= doneFrames <= GetFrameCount chunk ->
  0 <= GetFrameSize chunk ->
  GetFrameCount chunk * GetFrameSize chunk < 2 ^ 32 ->
  forall d r1, Push_iteration chunk doneFrames t r = (Ret (Continue d), r1) ->
    bytes_written (calls r1)
    = bytes_written (calls r)
      ++ firstn (Z.to_nat ((d - doneFrames) * GetFrameSize chunk))
                (skipn (Z.to_nat (doneFrames * GetFrameSize chunk)) (constData chunk)).
Proof.
  intros D (H1 & H2 & H3 & H4) Hd Hfs Hsz d r1.
  unfold Push_iteration, catch_hresult, Push_write.
  rewrite !ThrowIfFailed_ok by assumption. run.
  destruct (state_eqb (m_state r) State_Stopped); simpl; [discriminate |].
  rewrite D.
  set (n := doFrames_of (UINT32 (snd (pt_GetBufferSize t)))
              (UINT32 (snd (pt_GetCurrentPadding t))) (GetFrameCount chunk) doneFrames).
  assert (Hn : 0 <= n <= GetFrameCount chunk - doneFrames).
  { unfold n, doFrames_of.
    pose proof (UINT32_range (UINT32 (snd (pt_GetBufferSize t))
                              - UINT32 (snd (pt_GetCurrentPadding t)))).
    pose proof (UINT32_range (GetFrameCount chunk - doneFrames)).
    pose proof (UINT32_le (GetFrameCount chunk - doneFrames)).
    lia. }
  destruct (n =? 0) eqn:Z0; simpl.
  - intros E. inversion E; subst.
    rewrite Z.sub_diag. simpl. now rewrite app_nil_r.
  - match goal with |- context [if ?c then _ else _] => destruct c end; simpl;
      [| discriminate].
    intros E. inversion E; subst. simpl.
    rewrite bytes_written_app. simpl. rewrite app_nil_r.
    unfold memcpy_source.
    assert (Hb : 0 <= n * GetFrameSize chunk < 2 ^ 32) by nia.
    rewrite (UINT32_small _ Hb).
    now replace (doneFrames + n - doneFrames) with n by lia.
Qed.

Lemma Push_loop_copies chunk dev ticks : forall firstIteration doneFrames r r',
  0 <= doneFrames <= GetFrameCount chunk ->
  m_device r = Some dev ->
  Forall healthy ticks ->
  0 <= GetFrameSize chunk ->
  GetFrameCount chunk * GetFrameSize chunk < 2 ^ 32 ->
  Push_loop chunk firstIteration doneFrames ticks r = (Ret true, r') ->
  bytes_written (calls r')
  = bytes_written (calls r)
    ++ firstn (Z.to_nat ((GetFrameCount chunk - doneFrames) * GetFrameSize chunk))
              (skipn (Z.to_nat (doneFrames * GetFrameSize chunk)) (constData chunk)).
Proof.
  induction ticks as [| t ticks IH];
    intros firstIteration doneFrames r r' Hd D Hh Hfs Hsz E;
    cbn [Push_loop] in E;
    destruct (doneFrames <? GetFrameCount chunk) eqn:L;
    try (inversion E; subst; apply Z.ltb_ge in L;
         replace (GetFrameCount chunk - doneFrames) with 0 by lia;
         simpl; now rewrite app_nil_r).
  inversion Hh as [| ? ? Ht Hts]; subst.
  assert (W : exists b r0,
             (if firstIteration then ret false else Wait 50 (pt_flush t)) r = (Ret b, r0) /\
             m_device r0 = Some dev /\
             bytes_written (calls r0) = bytes_written (calls r)).
  { destruct firstIteration.
    - exists false, r. auto.
    - destruct (Wait_result 50 (pt_flush t) r) as (b & r0 & Ew & Lw & Dw & _).
      exists b, r0. repeat split; auto; try congruence.
      rewrite Lw, bytes_written_app. simpl. now rewrite app_nil_r. }
  destruct W as (b & r0 & Ew & D0 & B0).
  unfold bind at 1 in E. rewrite Ew in E. destruct b; [discriminate E |].
  destruct (Push_iteration_healthy chunk doneFrames t r0 dev D0 Ht)
    as (o & r1 & Ei & D1 & Ho); [lia |].
  unfold bind at 1 in E. rewrite Ei in E.
  destruct o as [[d |] | e | |]; try contradiction; try discriminate E.
  destruct Ho as (Hd1 & _).
  rewrite (IH false d r1 r' ltac:(lia) D1 Hts Hfs Hsz E).
  rewrite (Push_iteration_copies chunk doneFrames t r0 dev D0 Ht ltac:(lia) Hfs Hsz d r1 Ei).
  rewrite B0, <- app_assoc. f_equal.
  replace (d * GetFrameSize chunk)
    with (doneFrames * GetFrameSize chunk + (d - doneFrames) * GetFrameSize chunk) by ring.
  replace ((GetFrameCount chunk - doneFrames) * GetFrameSize chunk)
    with ((d - doneFrames) * GetFrameSize chunk
          + (GetFrameCount chunk - d) * GetFrameSize chunk) by ring.
  apply slice_app; nia.
Qed.

(** The bytes of a completed [Push], from its first iteration on. *)
Lemma Push_copies_chunk chunk dev ticks r r' :
  0 < GetFrameCount chunk ->
  m_device r = Some dev ->
  Forall healthy ticks ->
  0 <= GetFrameSize chunk ->
  GetFrameCount chunk * GetFrameSize chunk < 2 ^ 32 ->
  Push_loop chunk true 0 ticks r = (Ret true, r') ->
  bytes_written (calls r')
  = bytes_written (calls r)
    ++ firstn (Z.to_nat (GetFrameCount chunk * GetFrameSize chunk)) (constData chunk).
Proof.
  intros Hc D Hh Hfs Hsz E.
  rewrite (Push_loop_copies chunk dev ticks true 0 r r' ltac:(lia) D Hh Hfs Hsz E).
  now rewrite Z.sub_0_r.
Qed.

(** C2.  For a chunk that holds frames, a session, and a device whose
    calls all succeed: when [Push] returns [true], every frame of the
    chunk has been handed to the device: the frames of the completed
    writes add up to the frame count of the chunk, and the bytes these
    writes copied into the device buffer are, in order and without gap or
    repetition, the chunk's data (its first frame count times frame size
    bytes, which for a chunk that holds just its frames is all of it),
    provided that this byte count fits the 32-bit size of a copy.  When
    [Push] returns [false], the last thing it did was a 50 ms wait on the
    flush event, and the flush event is signalled.  The session is still
    there. *)
Theorem Push_success_means_delivered (chunk : DspChunk) (ticks : list PushTick)
    (r r' : AudioRenderer) (dev : AudioDevice) (out : Outcome bool) :
  0 < GetFrameCount chunk ->
  m_device r = Some dev ->
  Forall healthy ticks ->
  Push chunk ticks r = (out, r') ->
  (out = Ret true ->
   frames_written (calls r') = frames_written (calls r) + GetFrameCount chunk /\
   (0 <= GetFrameSize chunk ->
    GetFrameCount chunk * GetFrameSize chunk < 2 ^ 32 ->
    bytes_written (calls r')
    = bytes_written (calls r)
      ++ firstn (Z.to_nat (GetFrameCount chunk * GetFrameSize chunk)) (constData chunk))) /\
  (out = Ret false ->
   m_flush r' = true /\ exists log, calls r' = calls r ++ log ++ [Flush_Wait 50]) /\
  m_device r' = Some dev.
Proof.
  intros Hc D Hh E. unfold Push, IsEmpty in E.
  assert (N : (frameCount chunk =? 0) = false)
    by (apply Z.eqb_neq; unfold GetFrameCount in Hc; lia).
  rewrite N in E.
  destruct (Push_loop_delivers chunk dev ticks true 0 r out r' ltac:(lia) D Hh E)
    as (D' & T & F).
  split; [| split]; auto.
  intros Eo. split.
  - rewrite (T Eo). lia.
  - intros Hfs Hsz. subst out.
    exact (Push_copies_chunk chunk dev ticks r r' Hc D Hh Hfs Hsz E).
Qed.

Lemma Push_success_means_delivered_witness :
  (exists r', Push Scenario.three_frames
                [Scenario.tick 2 0 false; Scenario.tick 2 1 false] Scenario.playing
              = (Ret true, r') /\
              frames_written (calls r') = 3 /\
              bytes_written (calls r') = constData Scenario.three_frames) /\
  (exists r', Push Scenario.three_frames
                [Scenario.tick 2 0 false; Scenario.tick 2 1 true] Scenario.playing
              = (Ret false, r') /\
              m_flush r' = true /\ frames_written (calls r') = 2).
Proof.
  split.
  - exists (snd (Push Scenario.three_frames
                   [Scenario.tick 2 0 false; Scenario.tick 2 1 false] Scenario.playing)).
    split; [reflexivity |].
    destruct (Push_success_means_delivered Scenario.three_frames
                [Scenario.tick 2 0 false; Scenario.tick 2 1 false]
                Scenario.playing
                (snd (Push Scenario.three_frames
                        [Scenario.tick 2 0 false; Scenario.tick 2 1 false]
                        Scenario.playing))
                Scenario.speakers (Ret true)) as (T & _).
    + reflexivity.
    + reflexivity.
    + repeat constructor.
    + reflexivity.
    + destruct (T eq_refl) as [Fw Bw]. split; [exact Fw |].
      apply Bw; [discriminate | reflexivity].
  - eexists. split; [reflexivity |]. split; [| reflexivity].
    apply (Push_success_means_delivered Scenario.three_frames
             [Scenario.tick 2 0 false; Scenario.tick 2 1 true]
             Scenario.playing _ Scenario.speakers (Ret false)).
    + reflexivity.
    + reflexivity.
    + repeat constructor.
    + reflexivity.
    + reflexivity.
Defined.

(* ================================================================== *)
(** ** Rate correction against an external clock *)

Lemma rate_adjustments_app l l' :
  rate_adjustments (l ++ l') = rate_adjustments l ++ rate_adjustments l'.
Proof.
  induction l as [| c l IH]; simpl; [reflexivity |].
  destruct c; rewrite ?IH; reflexivity.
Qed.

(** What the rate-correction step does, as a function of its guard. *)
Lemma RateDsp_step_result env dev r :
  m_externalClock r = true ->
  bitstream dev = false ->
  env_dspRateActive env = true ->
  exists r1, RateDsp_step env dev r = (Ret tt, r1) /\
    m_device r1 = m_device r /\
    rate_adjustments (calls r1)
    = rate_adjustments (calls r)
      ++ (if rate_correction_due env r then [rate_offset env r] else []) /\
    m_correctedWithRateDsp r1
    = m_correctedWithRateDsp r
      + (if rate_correction_due env r then rate_offset env r else 0).
Proof.
  intros X B A. unfold RateDsp_step, rate_correction_due; run.
  rewrite X, B, A. simpl.
  destruct (clocks_readable env); simpl.
  - destruct (MILLISECONDS_TO_100NS_UNITS 2 <? Z.abs (rate_offset env r)); simpl;
      eexists; (split; [reflexivity |]); simpl;
      rewrite ?rate_adjustments_app, ?app_nil_r; simpl; repeat split; lia.
  - eexists; (split; [reflexivity |]); simpl.
    rewrite app_nil_r. repeat split; lia.
Qed.

Lemma Enqueue_dsp_keeps env chunk (L : list REFERENCE_TIME) (c : REFERENCE_TIME) :
  maintains (fun r => rate_adjustments (calls r) = L /\ m_correctedWithRateDsp r = c)
            (Enqueue_dsp env chunk).
Proof. unfold Enqueue_dsp. framed. Qed.

Lemma ClearDevice_keeps (L : list REFERENCE_TIME) (c : REFERENCE_TIME) :
  maintains (fun r => rate_adjustments (calls r) = L /\ m_correctedWithRateDsp r = c)
            ClearDevice.
Proof.
  intros r [HL Hc]. destruct (ClearDevice_result r) as (r' & E & R).
  rewrite E. simpl. intuition congruence.
Qed.

Lemma Enqueue_prologue_keeps_state env s x :
  maintains (fun r => m_state r = s /\ m_externalClock r = x) (Enqueue_prologue env).
Proof. unfold_members. framed; simpl; assumption. Qed.

Lemma Enqueue_prologue_keeps_inputFormat env f :
  maintains (fun r => m_inputFormat r = f) (Enqueue_prologue env).
Proof. unfold_members. framed; simpl; assumption. Qed.

(** C4, as stated, fails: on an external clock, Running, with a session
    that is not bitstreaming and a drift of 10 ms, nothing is fed to the
    rate stage while the audio clock has not moved past its start time. *)
Lemma drift_ignored_before_audio_clock_starts :
  ~ (forall env r r1 chunk dev,
       m_state r = State_Running ->
       m_externalClock r = true ->
       m_inputFormat r <> None ->
       Enqueue_prologue env r = (Ret chunk, r1) ->
       m_device r1 = Some dev ->
       bitstream dev = false ->
       env_dspRateActive env = true ->
       (rate_adjustments (calls (snd (Enqueue_locked env r)))
        <> rate_adjustments (calls r1)
        <-> MILLISECONDS_TO_100NS_UNITS 2 < Z.abs (rate_offset env r1))).
Proof.
  intros H.
  specialize (H Scenario.not_started Scenario.playing_external Scenario.playing_external
                Scenario.three_frames Scenario.speakers
                eq_refl eq_refl ltac:(discriminate) eq_refl eq_refl eq_refl eq_refl).
  destruct H as [_ H]. apply H; reflexivity.
Qed.

Lemma bind_Ret {A B} (m : M A) (k : A -> M B) r a r' :
  m r = (Ret a, r') -> bind m k r = k a r'.
Proof. intros E. unfold bind. now rewrite E. Qed.

Lemma OffsetSlavedClock_step_result env r :
  exists r2, OffsetSlavedClock_step env r = (Ret tt, r2) /\
    m_device r2 = m_device r /\
    m_externalClock r2 = m_externalClock r /\
    m_correctedWithRateDsp r2 = m_correctedWithRateDsp r /\
    rate_adjustments (calls r2) = rate_adjustments (calls r).
Proof.
  unfold OffsetSlavedClock_step; run.
  match goal with |- context [if ?c then _ else _] => destruct c end; simpl;
    eexists; (split; [reflexivity |]); simpl;
    rewrite ?rate_adjustments_app, ?app_nil_r; auto.
Qed.

Lemma Enqueue_prologue_feeds_nothing env (L : list REFERENCE_TIME) :
  maintains (fun r => rate_adjustments (calls r) = L) (Enqueue_prologue env).
Proof.
  unfold_members.
  framed; simpl; rewrite ?rate_adjustments_app, ?app_nil_r; assumption.
Qed.

(** C4, amended.  On an external clock, during a Running [Enqueue] whose
    session (as it stands after the settings check and the lazy creation)
    is not bitstreaming, and with the rate stage active as the code
    asserts: an offset is fed to the rate stage if and only if the three
    clock queries succeed, the audio clock is past its start time, and the
    absolute value of graph time minus audio time minus the accumulated
    correction exceeds 2 ms (20000 units of 100 ns).  When fed, the offset
    is that difference and the accumulated correction grows by exactly
    it; otherwise neither changes.  Nothing before that step feeds the
    rate stage. *)
Theorem rate_adjustment_guard (env : EnqueueEnv) (r r1 : AudioRenderer)
    (chunk : DspChunk) (dev : AudioDevice) :
  m_state r = State_Running ->
  m_externalClock r = true ->
  m_inputFormat r <> None ->
  Enqueue_prologue env r = (Ret chunk, r1) ->
  m_device r1 = Some dev ->
  bitstream dev = false ->
  env_dspRateActive env = true ->
  rate_adjustments (calls r1) = rate_adjustments (calls r) /\
  rate_adjustments (calls (snd (Enqueue_locked env r)))
  = rate_adjustments (calls r1)
    ++ (if rate_correction_due env r1 then [rate_offset env r1] else []) /\
  m_correctedWithRateDsp (snd (Enqueue_locked env r))
  = m_correctedWithRateDsp r1
    + (if rate_correction_due env r1 then rate_offset env r1 else 0) /\
  (rate_correction_due env r1 = true <->
   clocks_readable env = true /\
   MILLISECONDS_TO_100NS_UNITS 2 < Z.abs (snd (env_GetTime env)
                                          - snd (env_GetAudioClockTime env)
                                          - m_correctedWithRateDsp r1)).
Proof.
  intros S X F P D B A.
  pose proof (Enqueue_prologue_keeps_state env _ _ r (conj S X)) as Ks.
  pose proof (Enqueue_prologue_feeds_nothing env _ r eq_refl) as Kn.
  rewrite P in Ks, Kn. simpl in Ks, Kn. destruct Ks as [S1 X1].
  split; [exact Kn |].
  destruct (OffsetSlavedClock_step_result env r1) as (r2 & E2 & D2 & X2 & C2 & L2).
  destruct (RateDsp_step_result env dev r2) as (r3 & E3 & D3 & L3 & C3);
    [congruence | exact B | exact A |].
  assert (O : rate_offset env r2 = rate_offset env r1)
    by (unfold rate_offset; now rewrite C2).
  assert (Du : rate_correction_due env r2 = rate_correction_due env r1)
    by (unfold rate_correction_due; now rewrite O).
  rewrite O, Du, ?L2, ?C2 in *.
  assert (T : Enqueue_try env r = Enqueue_dsp env chunk r3).
  { assert (Y : Enqueue_sync env r1 = (Ret tt, r3)).
    { unfold Enqueue_sync. rewrite (bind_Ret get _ r1 r1 r1 eq_refl).
      rewrite D, S1. simpl. rewrite (bind_Ret _ _ _ _ _ E2). exact E3. }
    unfold Enqueue_try.
    rewrite (bind_Ret _ _ _ _ _ P). rewrite (bind_Ret _ _ _ _ _ Y). reflexivity. }
  assert (Q : snd (Enqueue_locked env r)
              = snd (catch_bad_alloc (Enqueue_dsp env chunk)
                       (ClearDevice;; ret DspChunk_default) r3)).
  { unfold Enqueue_locked; run.
    destruct (m_inputFormat r); [| congruence]. simpl.
    rewrite S. simpl. unfold catch_bad_alloc. rewrite T. reflexivity. }
  assert (M : rate_adjustments (calls (snd (Enqueue_locked env r)))
              = rate_adjustments (calls r3) /\
              m_correctedWithRateDsp (snd (Enqueue_locked env r))
              = m_correctedWithRateDsp r3).
  { rewrite Q.
    apply (@maintains_catch_bad_alloc
             (fun x => rate_adjustments (calls x) = rate_adjustments (calls r3) /\
                       m_correctedWithRateDsp x = m_correctedWithRateDsp r3)).
    - apply Enqueue_dsp_keeps.
    - apply maintains_bind; [apply ClearDevice_keeps | intros ?; apply maintains_ret].
    - split; reflexivity. }
  destruct M as [M1 M2].
  split; [rewrite M1; exact L3 |].
  split; [rewrite M2; exact C3 |].
  unfold rate_correction_due, rate_offset.
  rewrite andb_true_iff, Z.ltb_lt. reflexivity.
Qed.

Lemma rate_adjustment_guard_witness :
  rate_adjustments (calls (snd (Enqueue_locked Scenario.drifting Scenario.playing_external)))
  = [100000] /\
  m_correctedWithRateDsp (snd (Enqueue_locked Scenario.drifting Scenario.playing_external))
  = 100000.
Proof.
  destruct (rate_adjustment_guard Scenario.drifting Scenario.playing_external
              Scenario.playing_external Scenario.three_frames Scenario.speakers)
    as (_ & L & C & _); try reflexivity.
  - simpl. discriminate.
  - split; [exact L | exact C].
Defined.

(* ================================================================== *)
(** ** The drain wait *)

(** A check that finds the position short of the target, and no reason to
    call the device stalled, goes to sleep. *)
Lemma doBlock_locked_sleeps actual0 t r dev :
  m_device r = Some dev ->
  SUCCEEDED (fst (bt_GetFrequency t)) = true ->
  SUCCEEDED (fst (bt_GetPosition t)) = true ->
  position_time t <> pushed_time (m_pushedFrames r) dev ->
  position_time t <> actual0 \/ m_state r <> State_Running ->
  doBlock_locked actual0 t r
  = (Ret (Sleep (pushed_time (m_pushedFrames r) dev) (position_time t)), r).
Proof.
  intros D H1 H2 N St. unfold doBlock_locked, catch_hresult.
  rewrite !ThrowIfFailed_ok by assumption. run. rewrite D.
  fold (position_time t). fold (pushed_time (m_pushedFrames r) dev).
  apply Z.eqb_neq in N. rewrite N.
  destruct St as [St | St].
  - apply Z.eqb_neq in St. rewrite St. reflexivity.
  - rewrite (state_eqb_neq _ _ St), andb_false_r. reflexivity.
Qed.

(** A check that finds the position equal to the target returns [true]. *)
Lemma doBlock_locked_drained actual0 t r dev :
  m_device r = Some dev ->
  SUCCEEDED (fst (bt_GetFrequency t)) = true ->
  SUCCEEDED (fst (bt_GetPosition t)) = true ->
  position_time t = pushed_time (m_pushedFrames r) dev ->
  doBlock_locked actual0 t r = (Ret (Done true), r).
Proof.
  intros D H1 H2 E. unfold doBlock_locked, catch_hresult.
  rewrite !ThrowIfFailed_ok by assumption. run. rewrite D.
  fold (position_time t). fold (pushed_time (m_pushedFrames r) dev).
  apply Z.eqb_eq in E. rewrite E. reflexivity.
Qed.

(** The sleep between two checks lasts at least one millisecond. *)
Lemma sleep_ms_at_least_one target actual : 1 <= sleep_ms target actual.
Proof. unfold sleep_ms. lia. Qed.

(** A flush raised during the sleep ends the drain wait with [false]. *)
Lemma doBlock_loop_flushed t ticks r dev :
  m_device r = Some dev ->
  SUCCEEDED (fst (bt_GetFrequency t)) = true ->
  SUCCEEDED (fst (bt_GetPosition t)) = true ->
  position_time t <> pushed_time (m_pushedFrames r) dev ->
  position_time t <> INT64_MAX ->
  bt_flush t = true ->
  fst (doBlock_loop (t :: ticks) r) = Ret false.
Proof.
  intros D H1 H2 N M F. cbn [doBlock_loop].
  rewrite (bind_Ret _ _ _ _ _ (doBlock_locked_sleeps _ t r dev D H1 H2 N (or_introl M))).
  unfold Wait; run. rewrite F. destruct (m_flush r); reflexivity.
Qed.

(** As long as the readings differ from the target and from [INT64_MAX],
    no error occurs and no flush is raised, the loop of the code keeps
    waiting: whether a reading repeats the previous one plays no part. *)
Lemma doBlock_loop_keeps_waiting dev p ticks : forall r,
  m_device r = Some dev ->
  m_pushedFrames r = p ->
  m_flush r = false ->
  Forall (fun t => SUCCEEDED (fst (bt_GetFrequency t)) = true /\
                   SUCCEEDED (fst (bt_GetPosition t)) = true /\
                   bt_flush t = false /\
                   position_time t <> pushed_time p dev /\
                   position_time t <> INT64_MAX) ticks ->
  fst (doBlock_loop ticks r) = Blocked.
Proof.
  induction ticks as [| t ticks IH]; intros r D P F Hs; cbn [doBlock_loop].
  - reflexivity.
  - inversion Hs as [| ? ? (H1 & H2 & Hf & N & M) Hs']; subst.
    rewrite (bind_Ret _ _ _ _ _ (doBlock_locked_sleeps _ t r dev D H1 H2 N (or_introl M))).
    unfold Wait; run. rewrite F, Hf. simpl.
    apply IH; auto.
Qed.

(** C1.  With a session, Running, one second of audio pushed and the
    device clock stuck at half a second, [Finish(true)] never returns,
    however many equal readings it takes: every check starts from
    [actual = INT64_MAX], so a reading is never compared with the one
    before it.  The drain wait of the specification, which carries the
    previous reading over, returns [true] at the second reading. *)
Theorem drain_wait_misses_stall :
  (forall n,
     fst (Finish true Scenario.no_tail [] (repeat Scenario.stalled n) Scenario.draining)
     = Blocked) /\
  fst (doBlock_loop_as_specified INT64_MAX [Scenario.stalled; Scenario.stalled]
         Scenario.draining)
  = Ret true.
Proof.
  split; [| reflexivity].
  intros n. unfold Finish.
  rewrite (bind_Ret (Finish_locked true Scenario.no_tail) _ Scenario.draining
             (DspChunk_default, true) Scenario.draining eq_refl).
  cbv beta iota.
  rewrite (bind_Ret (Push DspChunk_default []) _ Scenario.draining true
             Scenario.draining eq_refl).
  cbn [negb]. cbv iota. unfold doBlock.
  rewrite (bind_Ret (call Clock_UnslaveClockFromAudio) _ Scenario.draining tt
             (Upd.log Clock_UnslaveClockFromAudio Scenario.draining) eq_refl).
  apply (doBlock_loop_keeps_waiting Scenario.speakers 48000); try reflexivity.
  induction n as [| n IH]; simpl; constructor; [| exact IH].
  repeat split; try reflexivity; vm_compute; discriminate.
Qed.

(* ================================================================== *)
(** ** Push completes, and is interrupted only by a flush *)

(** With a session, a device that accepts at least one frame at every
    look and no flush, a loop that is given one tick per remaining frame
    returns [true] with the counter advanced by the remaining frames. *)
Lemma Push_loop_completes chunk dev ticks : forall firstIteration doneFrames r,
  m_device r = Some dev ->
  m_state r <> State_Stopped ->
  m_flush r = false ->
  GetFrameSize chunk = wBitsPerSample (waveFormat dev) / 8 * nChannels (waveFormat dev) ->
  Forall roomy ticks ->
  0 <= doneFrames <= GetFrameCount chunk ->
  GetFrameCount chunk - doneFrames < 2 ^ 32 ->
  GetFrameCount chunk - doneFrames <= Z.of_nat (List.length ticks) ->
  0 <= m_pushedFrames r ->
  m_pushedFrames r + (GetFrameCount chunk - doneFrames) < 2 ^ 64 ->
  exists r', Push_loop chunk firstIteration doneFrames ticks r = (Ret true, r') /\
    m_pushedFrames r' = m_pushedFrames r + (GetFrameCount chunk - doneFrames) /\
    m_device r' = Some dev.
Proof.
  induction ticks as [| t ticks IH];
    intros firstIteration doneFrames r D S F Fs Hr Hd H32 Hl Hp0 Hp1; cbn [Push_loop];
    destruct (doneFrames <? GetFrameCount chunk) eqn:L;
    try (apply Z.ltb_ge in L; exists r; repeat split; auto; lia).
  - apply Z.ltb_lt in L. simpl in Hl. lia.
  - apply Z.ltb_lt in L.
    inversion Hr as [| ? ? (Hh & Hf & Hp & Hc) Hr']; subst.
    set (r0 := if firstIteration then r else Upd.log (Flush_Wait 50) r).
    assert (W : (if firstIteration then ret false else Wait 50 (pt_flush t)) r
                = (Ret false, r0)).
    { unfold r0. destruct firstIteration; [reflexivity |].
      unfold Wait; run. now rewrite F, Hf. }
    assert (D0 : m_device r0 = Some dev) by (unfold r0; now destruct firstIteration).
    assert (S0 : m_state r0 = m_state r) by (unfold r0; now destruct firstIteration).
    assert (F0 : m_flush r0 = false) by (unfold r0; now destruct firstIteration).
    assert (P0 : m_pushedFrames r0 = m_pushedFrames r)
      by (unfold r0; now destruct firstIteration).
    rewrite (bind_Ret _ _ _ _ _ W). cbv iota.
    assert (Hfit : frames_that_fit t chunk doneFrames <= GetFrameCount chunk - doneFrames)
      by (unfold frames_that_fit; lia).
    destruct (Push_iteration_step chunk doneFrames t r0 dev) as [Hn E];
      try assumption; try lia; try congruence.
    rewrite (bind_Ret _ _ _ _ _ E). cbv iota.
    set (n := frames_that_fit t chunk doneFrames) in *.
    set (r1 := after_write chunk doneFrames n t r0) in *.
    assert (D1 : m_device r1 = Some dev) by exact D0.
    assert (S1 : m_state r1 <> State_Stopped) by (simpl; congruence).
    assert (F1 : m_flush r1 = false) by exact F0.
    assert (P1 : m_pushedFrames r1 = m_pushedFrames r + n) by (simpl; congruence).
    assert (Hl' : GetFrameCount chunk - (doneFrames + n) <= Z.of_nat (List.length ticks))
      by (simpl List.length in Hl; lia).
    destruct (IH false (doneFrames + n) r1 D1 S1 F1 Fs Hr'
                ltac:(lia) ltac:(lia) Hl' ltac:(lia) ltac:(lia))
      as (r' & E' & P' & D').
    exists r'. split; [exact E' |]. split; [| exact D'].
    rewrite P', P1. lia.
Qed.

(** The call log only grows. *)
Lemma Push_iteration_extends chunk doneFrames t (log0 : list Call) :
  maintains (fun r => exists log, calls r = log0 ++ log)
            (Push_iteration chunk doneFrames t).
Proof.
  unfold Push_iteration, Push_write, ClearDevice.
  framed; simpl;
    match goal with
    | H : exists log, _ = _ ++ log |- _ => destruct H as [log H]
    end;
    rewrite ?H, <- ?app_assoc; eauto.
Qed.

(** In every situation, healthy device or not, [Push] returns [false]
    only right after a 50 ms wait that found the flush event signalled. *)
Lemma Push_loop_false_after_flush chunk ticks : forall firstIteration doneFrames r r',
  Push_loop chunk firstIteration doneFrames ticks r = (Ret false, r') ->
  m_flush r' = true /\ exists log, calls r' = calls r ++ log ++ [Flush_Wait 50].
Proof.
  induction ticks as [| t ticks IH]; intros firstIteration doneFrames r r' E;
    cbn [Push_loop] in E;
    destruct (doneFrames <? GetFrameCount chunk); try discriminate E.
  assert (W : exists b r0,
             (if firstIteration then ret false else Wait 50 (pt_flush t)) r = (Ret b, r0) /\
             (exists log, calls r0 = calls r ++ log) /\
             (b = true -> m_flush r0 = true /\ calls r0 = calls r ++ [Flush_Wait 50])).
  { destruct firstIteration.
    - exists false, r. repeat split; try discriminate. exists []. now rewrite app_nil_r.
    - destruct (Wait_result 50 (pt_flush t) r) as (b & r0 & Ew & Lw & _ & Fw).
      exists b, r0. repeat split; eauto. }
  destruct W as (b & r0 & Ew & (log0 & L0) & B0).
  rewrite (bind_Ret _ _ _ _ _ Ew) in E. destruct b.
  - inversion E; subst. destruct (B0 eq_refl) as [Fl Lg]. split; [exact Fl |].
    exists []. exact Lg.
  - pose proof (Push_iteration_extends chunk doneFrames t (calls r0) r0
                  (ex_intro _ [] (eq_sym (app_nil_r _)))) as X.
    unfold bind at 1 in E.
    destruct (Push_iteration chunk doneFrames t r0) as [[[d |] | e | |] r1];
      try discriminate E.
    simpl in X. destruct X as [log1 L1].
    destruct (IH false d r1 r' E) as (Fl & (log' & L')).
    split; [exact Fl |].
    exists (log0 ++ log1 ++ log'). rewrite L', L1, L0. now rewrite <- !app_assoc.
Qed.

(** The scenario of the specification: format 48 kHz / 2 channels /
    16 bit, Play, Enqueue of 1000 frames with a healthy device.  All 1000
    frames are written, [pushedFrames] is 1000, and the buffer-filled
    signal is set because the last write (40 frames onto a padding of 440)
    filled the buffer of 480 frames. *)
Example enqueue_thousand_frames :
  m_pushedFrames (run Scenario.play_thousand constructed) = 1000 /\
  frames_written (calls (run Scenario.play_thousand constructed)) = 1000 /\
  m_bufferFilled (run Scenario.play_thousand constructed) = true.
Proof. vm_compute. repeat split. Qed.

(* ================================================================== *)
(** ** The counter counts the frames written to the session *)

Lemma frames_since_reset_snoc log c :
  frames_since_reset (log ++ [c]) = count_call (frames_since_reset log) c.
Proof. unfold frames_since_reset. now rewrite fold_left_app. Qed.

Lemma UINT64_add_l a n : UINT64 (UINT64 a + n) = UINT64 (a + n).
Proof. unfold UINT64. apply Zplus_mod_idemp_l. Qed.

Ltac exact_counter :=
  unfold counter_exact in *; simpl in *;
  rewrite ?frames_since_reset_snoc; simpl; try assumption; try reflexivity.

Lemma ClearDevice_exact : maintains counter_exact ClearDevice.
Proof.
  intros r _. unfold ClearDevice; run.
  destruct (m_device r); simpl; exact_counter.
Qed.

Lemma Push_write_exact chunk doneFrames dev t :
  maintains counter_exact (Push_write chunk doneFrames dev t).
Proof.
  intros r H. unfold Push_write, ThrowIfFailed; run.
  repeat match goal with
         | |- context [if ?c then _ else _] => destruct c; simpl; try exact H
         end.
  exact_counter. rewrite H. apply UINT64_add_l.
Qed.

#[local] Hint Resolve ClearDevice_exact Push_write_exact : frame.

Lemma Push_loop_exact chunk ticks : forall firstIteration doneFrames,
  maintains counter_exact (Push_loop chunk firstIteration doneFrames ticks).
Proof.
  induction ticks as [| t ticks IH]; intros firstIteration doneFrames;
    cbn [Push_loop].
  - destruct (doneFrames <? GetFrameCount chunk); framed.
  - unfold Wait, Push_iteration. framed; exact_counter.
Qed.

Lemma Push_exact chunk ticks : maintains counter_exact (Push chunk ticks).
Proof. unfold Push. destruct (IsEmpty chunk); [framed | apply Push_loop_exact]. Qed.

Lemma doBlock_loop_exact ticks : maintains counter_exact (doBlock_loop ticks).
Proof.
  induction ticks as [| t ticks IH]; cbn [doBlock_loop].
  - framed.
  - unfold doBlock_locked, Wait. framed; exact_counter.
Qed.

#[local] Hint Resolve Push_exact doBlock_loop_exact : frame.

Lemma Enqueue_exact env ticks : maintains counter_exact (Enqueue env ticks).
Proof.
  unfold Enqueue, Enqueue_locked, Enqueue_try, Enqueue_prologue, Enqueue_sync,
    Enqueue_dsp, OffsetSlavedClock_step, RateDsp_step, CheckDeviceSettings,
    CreateDevice, InitializeProcessors, StartDevice.
  framed; exact_counter.
Qed.

Lemma Finish_exact b env pushTicks blockTicks :
  maintains counter_exact (Finish b env pushTicks blockTicks).
Proof. unfold Finish, Finish_locked, doBlock. framed; exact_counter. Qed.

Lemma EndFlush_exact r :
  counter_idle r -> counter_exact r -> counter_exact (snd (EndFlush r)).
Proof.
  intros I H. unfold EndFlush; run.
  destruct (state_eqb (m_state r) State_Running); simpl; [exact H |].
  destruct (m_device r) eqn:D; simpl; exact_counter.
  rewrite <- H. symmetry. now apply I.
Qed.

Lemma perform_exact op : forall r,
  counter_idle r -> counter_exact r -> counter_exact (perform op r).
Proof.
  destruct op; simpl;
    try (match goal with |- context [EndFlush] => fail 1 | _ => idtac end;
         intros r _; revert r).
  - change (maintains counter_exact (SetClock queryInterface pClock)).
    unfold SetClock. framed; exact_counter.
  - apply Enqueue_exact.
  - apply Finish_exact.
  - change (maintains counter_exact BeginFlush). unfold BeginFlush. framed; exact_counter.
  - exact EndFlush_exact.
  - change (maintains counter_exact (SetFormat inputFormat)).
    unfold SetFormat. framed; exact_counter.
  - change (maintains counter_exact (NewSegment rate withinFloat)).
    unfold NewSegment, InitializeProcessors. framed; exact_counter.
  - change (maintains counter_exact (Play startTime)).
    unfold Play, StartDevice. framed; exact_counter.
  - change (maintains counter_exact Pause). unfold Pause. framed; exact_counter.
  - change (maintains counter_exact Stop). unfold Stop. framed; exact_counter.
Qed.

Lemma run_exact ops : forall r,
  counter_idle r -> counter_exact r ->
  counter_idle (run ops r) /\ counter_exact (run ops r).
Proof.
  unfold run. induction ops as [| op ops IH]; intros r I H; simpl.
  - split; assumption.
  - apply IH; [now apply perform_idle | now apply perform_exact].
Qed.

(** C9.  In every state the renderer reaches from construction by any
    sequence of its operations, no session means a pushed-frame counter of
    zero, and every single operation keeps that property.  In every such
    state the counter is the number of frames written by [Push] since the
    session was opened or last flushed, so nothing but a write of [Push]
    into a session raises it.  Tearing the session down ([ClearDevice],
    hence [Stop] and [SetFormat]) leaves no session and a counter of zero;
    [EndFlush] leaves a counter of zero; and a [Push] that starts without a
    session does not move the counter. *)
Theorem pushedFrames_zero_without_device :
  (forall ops, counter_idle (run ops constructed)) /\
  (forall op r, counter_idle r -> counter_idle (perform op r)) /\
  (forall ops, counter_exact (run ops constructed)) /\
  (forall r, m_device (snd (ClearDevice r)) = None /\
             m_pushedFrames (snd (ClearDevice r)) = 0) /\
  (forall r, m_device (snd (Stop r)) = None /\ m_pushedFrames (snd (Stop r)) = 0) /\
  (forall f r, m_device (snd (SetFormat f r)) = None /\
               m_pushedFrames (snd (SetFormat f r)) = 0) /\
  (forall r, m_state r <> State_Running -> m_pushedFrames (snd (EndFlush r)) = 0) /\
  (forall chunk ticks r, m_device r = None ->
     m_pushedFrames (snd (Push chunk ticks r)) = m_pushedFrames r).
Proof.
  split; [| split; [| split; [| split; [| split; [| split; [| split]]]]]].
  - intros ops. apply run_idle. intros _. reflexivity.
  - intros op r. apply perform_idle.
  - intros ops. apply run_exact; [intros _ |]; reflexivity.
  - intros r. destruct (ClearDevice_result r) as (r' & E & D & P & _).
    rewrite E. auto.
  - intros r. unfold Stop. run.
    destruct (ClearDevice_result (Upd.state State_Stopped r)) as (r' & E & D & P & _).
    rewrite E. auto.
  - intros f r. unfold SetFormat. run.
    destruct (ClearDevice_result
                (Upd.log TimingsCorrection_SetFormat (Upd.inputFormat f r)))
      as (r' & E & D & P & _).
    rewrite E. auto.
  - intros r S. destruct (EndFlush_returns r S) as (r' & E & P & _).
    rewrite E. exact P.
  - intros chunk ticks r D. unfold Push. destruct (IsEmpty chunk); [reflexivity |].
    now apply (Push_loop_without_device chunk (m_pushedFrames r) ticks true 0 r).
Qed.

Lemma pushedFrames_zero_without_device_witness :
  m_pushedFrames (run Scenario.play_three constructed) = 3 /\
  m_device (run Scenario.play_three_and_stop constructed) = None /\
  m_pushedFrames (run Scenario.play_three_and_stop constructed) = 0.
Proof.
  split; [reflexivity | split; [reflexivity |]].
  apply (proj1 pushedFrames_zero_without_device Scenario.play_three_and_stop).
  reflexivity.
Defined.

(* ================================================================== *)
(** * Further properties of the renderer *)

(** ** Which exceptions can leave a member function *)

Section Raises.

Context {P : Exn -> Prop}.

Lemma raises_ret {A} (a : A) : raises P (ret a).
Proof. intros r e H. discriminate H. Qed.

Lemma raises_blocked {A} : raises P (fun r => (@Blocked A, r)).
Proof. intros r e H. discriminate H. Qed.

Lemma raises_get : raises P get.
Proof. intros r e H. discriminate H. Qed.

Lemma raises_modify f : raises P (modify f).
Proof. intros r e H. discriminate H. Qed.

Lemma raises_assert c : raises P (assert c).
Proof. intros r e H. unfold assert in H. destruct c; discriminate H. Qed.

Lemma raises_throw {A} e : P e -> raises P (@throw A e).
Proof. intros He r e' H. inversion H; subst. exact He. Qed.

Lemma raises_lift {A} (x : Res A) : P bad_alloc -> raises P (lift x).
Proof. intros Hb r e H. destruct x; simpl in H; inversion H; subst; exact Hb. Qed.

Lemma raises_ThrowIfFailed hr : (forall h, P (hresult h)) -> raises P (ThrowIfFailed hr).
Proof.
  intros Hh r e H. unfold ThrowIfFailed in H.
  destruct (FAILED hr); inversion H; subst. apply Hh.
Qed.

Lemma raises_bind {A B} (m : M A) (k : A -> M B) :
  raises P m -> (forall a, raises P (k a)) -> raises P (bind m k).
Proof.
  intros Hm Hk r e H. unfold bind in H.
  specialize (Hm r). destruct (m r) as [[a | e' | |] r']; simpl in *.
  - eapply Hk; exact H.
  - inversion H; subst. now apply Hm.
  - discriminate H.
  - discriminate H.
Qed.

Lemma raises_when c m : raises P m -> raises P (when c m).
Proof. intros Hm. unfold when. destruct c; [exact Hm | apply raises_ret]. Qed.

Lemma raises_catch_bad_alloc {A} (body handler : M A) :
  raises (fun e => e = bad_alloc \/ P e) body ->
  raises P handler ->
  raises P (catch_bad_alloc body handler).
Proof.
  intros Hb Hh r e H. unfold catch_bad_alloc in H.
  specialize (Hb r). destruct (body r) as [[a | [| hr] | |] r']; simpl in *;
    try discriminate H.
  - eapply Hh; exact H.
  - inversion H; subst. destruct (Hb _ eq_refl) as [X | X]; [discriminate X | exact X].
Qed.

Lemma raises_catch_hresult {A} (body handler : M A) :
  raises (fun e => (exists hr, e = hresult hr) \/ P e) body ->
  raises P handler ->
  raises P (catch_hresult body handler).
Proof.
  intros Hb Hh r e H. unfold catch_hresult in H.
  specialize (Hb r). destruct (body r) as [[a | [| hr] | |] r']; simpl in *;
    try discriminate H.
  - inversion H; subst. destruct (Hb _ eq_refl) as [[hr X] | X];
      [discriminate X | exact X].
  - eapply Hh; exact H.
Qed.

End Raises.

Lemma raises_EnumerateProcessors {P : Exn -> Prop} stages chunk :
  P bad_alloc -> raises P (EnumerateProcessors stages chunk).
Proof.
  intros Hb. revert chunk. induction stages as [| f rest IH]; intros chunk; simpl.
  - apply raises_ret.
  - apply raises_bind; [now apply raises_lift | intros c; apply IH].
Qed.

Create HintDb raising.

Ltac raising_step :=
  first
    [ solve [auto with raising nocore]
    | apply raises_ret
    | apply raises_blocked
    | apply raises_get
    | apply raises_assert
    | apply raises_when
    | apply raises_catch_bad_alloc
    | apply raises_catch_hresult
    | apply raises_bind; [ | intros ? ]
    | apply raises_throw; cbv beta; solve [eauto]
    | apply raises_lift; cbv beta; solve [eauto]
    | apply raises_EnumerateProcessors; cbv beta; solve [eauto]
    | apply raises_ThrowIfFailed; cbv beta; solve [eauto]
    | match goal with
      | |- raises _ (match ?x with _ => _ end) => destruct x
      | |- raises _ (call _) => apply raises_modify
      | |- raises _ (modify _) => apply raises_modify
      end ].

Ltac raising := repeat raising_step.

Lemma ClearDevice_raises P : raises P ClearDevice.
Proof. unfold ClearDevice. raising. Qed.

#[local] Hint Resolve ClearDevice_raises : raising.

Lemma Push_loop_raises chunk ticks : forall firstIteration doneFrames,
  raises (fun _ => False) (Push_loop chunk firstIteration doneFrames ticks).
Proof.
  induction ticks as [| t ticks IH]; intros firstIteration doneFrames;
    cbn [Push_loop].
  - destruct (doneFrames <? GetFrameCount chunk); raising.
  - unfold Wait, Push_iteration, Push_write. raising.
Qed.

Lemma Push_raises chunk ticks : raises (fun _ => False) (Push chunk ticks).
Proof. unfold Push. destruct (IsEmpty chunk); [raising | apply Push_loop_raises]. Qed.

Lemma doBlock_loop_raises ticks : raises (fun _ => False) (doBlock_loop ticks).
Proof.
  induction ticks as [| t ticks IH]; cbn [doBlock_loop].
  - raising.
  - unfold doBlock_locked, Wait. raising.
Qed.

#[local] Hint Resolve Push_raises doBlock_loop_raises : raising.

Lemma Enqueue_raises env ticks : raises (fun _ => False) (Enqueue env ticks).
Proof.
  unfold Enqueue, Enqueue_locked, Enqueue_try, Enqueue_prologue, Enqueue_sync,
    Enqueue_dsp, OffsetSlavedClock_step, RateDsp_step, CheckDeviceSettings,
    CreateDevice, InitializeProcessors, StartDevice.
  raising.
Qed.

Lemma Finish_raises b env pushTicks blockTicks :
  raises (fun _ => False) (Finish b env pushTicks blockTicks).
Proof. unfold Finish, Finish_locked, doBlock. raising. Qed.

(** X1.  On a renderer that has a graph clock (the pointer [m_graphClock]
    is not null, so that the clock does answer when [Push] and [Enqueue]
    ask it for the time), no exception leaves the streaming entry points:
    whatever the device, the clocks and the DSP stages answer, [Push],
    [Enqueue] and [Finish] never end in a C++ exception (a device error
    and an exhausted allocator are both absorbed inside).  A renderer
    whose graph clock pointer is null, as a failed [SetClock] leaves it,
    is outside this statement: there the time query of the source goes
    through a null smart pointer. *)
Theorem streaming_calls_do_not_throw (r : AudioRenderer) :
  m_graphClock r <> NullClock ->
  (forall chunk ticks e, fst (Push chunk ticks r) <> Throw e) /\
  (forall env ticks e, fst (Enqueue env ticks r) <> Throw e) /\
  (forall b env pushTicks blockTicks e,
     fst (Finish b env pushTicks blockTicks r) <> Throw e).
Proof.
  intros _. split; [| split].
  - intros chunk ticks e H. exact (Push_raises chunk ticks r e H).
  - intros env ticks e H. exact (Enqueue_raises env ticks r e H).
  - intros b env pushTicks blockTicks e H.
    exact (Finish_raises b env pushTicks blockTicks r e H).
Qed.

Lemma streaming_calls_do_not_throw_witness :
  m_graphClock Scenario.playing = MyClock /\
  fst (Push Scenario.three_frames [Scenario.broken_tick] Scenario.playing)
  <> Throw (hresult E_FAIL) /\
  fst (Enqueue Scenario.exhausted [] Scenario.playing) <> Throw bad_alloc.
Proof.
  split; [reflexivity |].
  destruct (streaming_calls_do_not_throw Scenario.playing) as (P & E & _).
  - simpl. discriminate.
  - split; [apply P | apply E].
Defined.

(* ================================================================== *)
(** ** SetClock *)

(** X2.  [SetClock] when the renderer's own clock answers
    [QueryInterface]: given a host clock it switches to the external
    clock and clears the session, also when that very clock was already
    in use; given a null pointer or the renderer's own clock it switches to
    the internal clock and leaves session and counter alone.  When
    [QueryInterface] fails it throws that result and touches neither the
    clock mode nor the session. *)
Theorem SetClock_cases (queryInterface : HRESULT) (pClock : ClockRef) (r : AudioRenderer) :
  (FAILED queryInterface = true ->
   exists r', SetClock queryInterface pClock r = (Throw (hresult queryInterface), r') /\
     m_externalClock r' = m_externalClock r /\
     m_device r' = m_device r /\
     m_pushedFrames r' = m_pushedFrames r) /\
  (FAILED queryInterface = false ->
   (forall address, pClock = HostClock address ->
      exists r', SetClock queryInterface pClock r = (Ret tt, r') /\
        m_externalClock r' = true /\
        m_graphClock r' = HostClock address /\
        m_device r' = None /\
        m_pushedFrames r' = 0) /\
   (pClock = NullClock \/ pClock = MyClock ->
      exists r', SetClock queryInterface pClock r = (Ret tt, r') /\
        m_externalClock r' = false /\
        m_graphClock r' = MyClock /\
        m_device r' = m_device r /\
        m_pushedFrames r' = m_pushedFrames r)).
Proof.
  split; [| split].
  - intros F. unfold SetClock, ThrowIfFailed; run. rewrite F. simpl.
    eexists. split; [reflexivity |]. simpl. auto.
  - intros address ->. unfold SetClock, ThrowIfFailed; run. rewrite H. simpl.
    destruct (ClearDevice_result
                (Upd.externalClock true
                   (Upd.graphClock (HostClock address)
                      (Upd.externalClock false (Upd.graphClock MyClock r)))))
      as (r' & E & D & Pf & _ & _ & X & _).
    rewrite E. exists r'. split; [reflexivity |]. simpl in X.
    repeat split; auto.
    unfold ClearDevice in E. revert E. run.
    destruct (m_device r); simpl; intros E; inversion E; reflexivity.
  - intros [-> | ->]; unfold SetClock, ThrowIfFailed; run; rewrite H; simpl;
      eexists; (split; [reflexivity |]); simpl; auto.
Qed.

Lemma SetClock_cases_witness :
  exists r', SetClock S_OK (HostClock 1) Scenario.playing_external = (Ret tt, r') /\
    m_externalClock r' = true /\
    m_graphClock r' = HostClock 1 /\
    m_device r' = None /\
    m_pushedFrames r' = 0.
Proof.
  apply (proj2 (SetClock_cases S_OK (HostClock 1) Scenario.playing_external)).
  - reflexivity.
  - reflexivity.
Defined.

(* ================================================================== *)
(** ** Construction *)

Lemma SUCCEEDED_FAILED hr : SUCCEEDED hr = negb (FAILED hr).
Proof. unfold SUCCEEDED, FAILED. apply Z.leb_antisym. Qed.

(** X3.  The constructor never throws: it always returns, with the
    outcome in [result].  [result] is a success exactly when the device
    manager was constructed, both pointers are non-null, [QueryInterface]
    succeeds and both event handles exist; then it is the device manager's
    code and the renderer is Stopped, without session, on its own clock.
    Otherwise the first failure in that order decides: the device
    manager's code, [E_UNEXPECTED], the [QueryInterface] code,
    [E_OUTOFMEMORY]. *)
Theorem Constructor_result (a : ConstructorArgs) :
  exists result r',
    Constructor a members_initialised = (Ret result, r') /\
    (SUCCEEDED result = true <->
     SUCCEEDED (ctor_deviceManager a) = true /\
     ctor_pSettings a = true /\ ctor_pClock a = true /\
     SUCCEEDED (ctor_QueryInterface a) = true /\
     ctor_flush a = true /\ ctor_bufferFilled a = true) /\
    (SUCCEEDED result = true -> result = ctor_deviceManager a /\ r' = constructed) /\
    (FAILED (ctor_deviceManager a) = true -> result = ctor_deviceManager a) /\
    (FAILED (ctor_deviceManager a) = false ->
     ctor_pSettings a && ctor_pClock a = false -> result = E_UNEXPECTED) /\
    (FAILED (ctor_deviceManager a) = false ->
     ctor_pSettings a && ctor_pClock a = true ->
     FAILED (ctor_QueryInterface a) = true -> result = ctor_QueryInterface a) /\
    (FAILED (ctor_deviceManager a) = false ->
     ctor_pSettings a && ctor_pClock a = true ->
     FAILED (ctor_QueryInterface a) = false ->
     ctor_flush a && ctor_bufferFilled a = false -> result = E_OUTOFMEMORY).
Proof.
  unfold Constructor, catch_hresult_as, ThrowIfFailed. run.
  rewrite !SUCCEEDED_FAILED.
  destruct (FAILED (ctor_deviceManager a)) eqn:Fd;
    [ do 2 eexists; split; [reflexivity |];
      rewrite SUCCEEDED_FAILED, Fd; simpl; intuition discriminate |].
  destruct (ctor_pSettings a), (ctor_pClock a); simpl;
    try (do 2 eexists; split; [reflexivity |]; simpl; intuition discriminate).
  destruct (FAILED (ctor_QueryInterface a)) eqn:Fq; simpl;
    [ do 2 eexists; split; [reflexivity |];
      rewrite SUCCEEDED_FAILED, Fq; simpl; intuition discriminate |].
  destruct (ctor_flush a), (ctor_bufferFilled a); simpl;
    do 2 eexists; (split; [reflexivity |]); simpl;
    rewrite ?SUCCEEDED_FAILED, ?Fd; simpl; intuition discriminate.
Qed.

Lemma Constructor_result_witness :
  Constructor Scenario.all_present members_initialised = (Ret S_OK, constructed) /\
  fst (Constructor Scenario.no_settings members_initialised) = Ret E_UNEXPECTED.
Proof.
  split.
  - destruct (Constructor_result Scenario.all_present) as (result & r' & E & _ & S & _).
    assert (X : SUCCEEDED result = true) by (vm_compute in E; now inversion E).
    destruct (S X) as [-> ->]. exact E.
  - destruct (Constructor_result Scenario.no_settings)
      as (result & r' & E & _ & _ & _ & U & _).
    rewrite E. simpl. f_equal. apply U; reflexivity.
Defined.

(* ================================================================== *)
(** ** What the streaming calls leave alone *)

Section StreamingBlind.

Variable I : AudioRenderer -> Prop.
Hypothesis blind : streaming_blind I.

Ltac blind_step :=
  destruct blind as (Bd & Bb & Bf & Bp & Bo & Bc & Bl);
  framed; auto.

Lemma ClearDevice_blind : maintains I ClearDevice.
Proof. unfold ClearDevice. blind_step. Qed.

Lemma Push_loop_blind chunk ticks : forall firstIteration doneFrames,
  maintains I (Push_loop chunk firstIteration doneFrames ticks).
Proof.
  pose proof ClearDevice_blind as C.
  induction ticks as [| t ticks IH]; intros firstIteration doneFrames;
    cbn [Push_loop].
  - destruct (doneFrames <? GetFrameCount chunk); framed.
  - unfold Wait, Push_iteration, Push_write. blind_step.
Qed.

Lemma Push_blind chunk ticks : maintains I (Push chunk ticks).
Proof. unfold Push. destruct (IsEmpty chunk); [framed | apply Push_loop_blind]. Qed.

Lemma doBlock_loop_blind ticks : maintains I (doBlock_loop ticks).
Proof.
  pose proof ClearDevice_blind as C.
  induction ticks as [| t ticks IH]; cbn [doBlock_loop].
  - framed.
  - unfold doBlock_locked, Wait. blind_step.
Qed.

Lemma Enqueue_blind env ticks : maintains I (Enqueue env ticks).
Proof.
  pose proof ClearDevice_blind as C. pose proof Push_blind as Pb.
  unfold Enqueue, Enqueue_locked, Enqueue_try, Enqueue_prologue, Enqueue_sync,
    Enqueue_dsp, OffsetSlavedClock_step, RateDsp_step, CheckDeviceSettings,
    CreateDevice, InitializeProcessors, StartDevice.
  blind_step.
Qed.

Lemma Finish_blind b env pushTicks blockTicks :
  maintains I (Finish b env pushTicks blockTicks).
Proof.
  pose proof Push_blind as Pb. pose proof doBlock_loop_blind as Db.
  unfold Finish, Finish_locked, doBlock. blind_step.
Qed.

End StreamingBlind.

Lemma same_configuration_blind r : streaming_blind (same_configuration r).
Proof. unfold streaming_blind, same_configuration. repeat split; intros; simpl; tauto. Qed.

Lemma same_configuration_refl r : same_configuration r r.
Proof. unfold same_configuration. tauto. Qed.

(** X4.  The streaming calls never reconfigure the renderer: whichever way
    [Push], [Enqueue] or [Finish] ends, the state, the input format, the
    clock mode, the graph clock, the rate and the start time are what they
    were. *)
Theorem streaming_calls_keep_configuration :
  (forall chunk ticks r, same_configuration r (snd (Push chunk ticks r))) /\
  (forall env ticks r, same_configuration r (snd (Enqueue env ticks r))) /\
  (forall b env pushTicks blockTicks r,
     same_configuration r (snd (Finish b env pushTicks blockTicks r))).
Proof.
  split; [| split]; intros.
  - apply (Push_blind _ (same_configuration_blind r)), same_configuration_refl.
  - apply (Enqueue_blind _ (same_configuration_blind r)), same_configuration_refl.
  - apply (Finish_blind _ (same_configuration_blind r)), same_configuration_refl.
Qed.

(* ================================================================== *)
(** ** Who changes the state and the input format *)

Lemma state_blind s : streaming_blind (fun r => m_state r = s).
Proof. unfold streaming_blind. repeat split; intros; simpl; assumption. Qed.

Lemma inputFormat_blind f : streaming_blind (fun r => m_inputFormat r = f).
Proof. unfold streaming_blind. repeat split; intros; simpl; assumption. Qed.

Lemma keeps_from_maintains {A X} (f : AudioRenderer -> X) (m : M A) r :
  maintains (fun x => f x = f r) m -> f (snd (m r)) = f r.
Proof. intros K. exact (K r eq_refl). Qed.

(** X5.  Only [Play], [Pause] and [Stop] change the state, and only
    [SetFormat] changes the input format: every other operation, however
    it ends, leaves them as they were. *)
Theorem state_and_format_owners (op : Operation) (r : AudioRenderer) :
  (is_transition op = false -> m_state (perform op r) = m_state r) /\
  (is_SetFormat op = false -> m_inputFormat (perform op r) = m_inputFormat r).
Proof.
  split; intros H; destruct op; try discriminate H; simpl.
  - apply (keeps_from_maintains m_state).
    unfold SetClock, ClearDevice. framed; simpl; assumption.
  - exact (Enqueue_blind _ (state_blind (m_state r)) env ticks r eq_refl).
  - exact (Finish_blind _ (state_blind (m_state r)) blockUntilEnd env pushTicks
             blockTicks r eq_refl).
  - reflexivity.
  - apply (keeps_from_maintains m_state).
    unfold EndFlush. framed; simpl; assumption.
  - apply (keeps_from_maintains m_state).
    unfold SetFormat, ClearDevice. framed; simpl; assumption.
  - apply (keeps_from_maintains m_state).
    unfold NewSegment, InitializeProcessors. framed; simpl; assumption.
  - apply (keeps_from_maintains m_inputFormat).
    unfold SetClock, ClearDevice. framed; simpl; assumption.
  - exact (Enqueue_blind _ (inputFormat_blind (m_inputFormat r)) env ticks r eq_refl).
  - exact (Finish_blind _ (inputFormat_blind (m_inputFormat r)) blockUntilEnd env
             pushTicks blockTicks r eq_refl).
  - reflexivity.
  - apply (keeps_from_maintains m_inputFormat).
    unfold EndFlush. framed; simpl; assumption.
  - apply (keeps_from_maintains m_inputFormat).
    unfold NewSegment, InitializeProcessors. framed; simpl; assumption.
  - apply (keeps_from_maintains m_inputFormat).
    unfold Play, StartDevice. framed; simpl; assumption.
  - apply (keeps_from_maintains m_inputFormat).
    unfold Pause. framed; simpl; assumption.
  - apply (keeps_from_maintains m_inputFormat).
    unfold Stop, ClearDevice. framed; simpl; assumption.
Qed.

Lemma state_and_format_owners_witness :
  m_state (perform (OpEnqueue Scenario.exhausted []) Scenario.playing) = State_Running /\
  m_inputFormat (perform OpStop Scenario.playing) = Some Scenario.stereo16.
Proof.
  split.
  - apply (proj1 (state_and_format_owners (OpEnqueue Scenario.exhausted [])
                    Scenario.playing)).
    reflexivity.
  - apply (proj2 (state_and_format_owners OpStop Scenario.playing)).
    reflexivity.
Defined.

(* ================================================================== *)
(** ** A Stopped renderer holds no session *)

Ltac stopped := unfold stopped_idle in *; simpl in *; try congruence; auto.

Lemma ClearDevice_stopped_idle : maintains stopped_idle ClearDevice.
Proof.
  intros r _. destruct (ClearDevice_result r) as (r' & E & D & _).
  rewrite E. intros _. exact D.
Qed.

Lemma streaming_stopped_idle {A} (m : M A) r :
  (forall s, maintains (fun x => m_state x = s) m) ->
  (m_state r = State_Stopped -> snd (m r) = r) ->
  stopped_idle r -> stopped_idle (snd (m r)).
Proof.
  intros K St I. destruct (state_eqb_spec (m_state r) State_Stopped) as [S | S].
  - now rewrite (St S).
  - intros S'. rewrite (K (m_state r) r eq_refl) in S'. contradiction.
Qed.

Lemma perform_stopped_idle op : forall r, stopped_idle r -> stopped_idle (perform op r).
Proof.
  pose proof ClearDevice_stopped_idle as C.
  destruct op; simpl.
  - change (maintains stopped_idle (SetClock queryInterface pClock)).
    unfold SetClock. framed; stopped.
  - intros r. apply streaming_stopped_idle.
    + intros s. apply Enqueue_blind, state_blind.
    + intros S. unfold Enqueue, Enqueue_locked; run. rewrite S.
      destruct (m_inputFormat r); reflexivity.
  - intros r. apply streaming_stopped_idle.
    + intros s. apply Finish_blind, state_blind.
    + intros S. unfold Finish, Finish_locked; run. rewrite S. reflexivity.
  - change (maintains stopped_idle BeginFlush). unfold BeginFlush. framed; stopped.
  - change (maintains stopped_idle EndFlush). unfold EndFlush. framed; stopped.
  - change (maintains stopped_idle (SetFormat inputFormat)).
    unfold SetFormat. framed; stopped.
  - change (maintains stopped_idle (NewSegment rate withinFloat)).
    unfold NewSegment, InitializeProcessors. framed; stopped.
  - change (maintains stopped_idle (Play startTime)).
    unfold Play, StartDevice. framed; stopped.
  - change (maintains stopped_idle Pause). unfold Pause. framed; stopped.
  - intros r _. unfold Stop. run.
    destruct (ClearDevice_result (Upd.state State_Stopped r)) as (r' & E & D & _).
    rewrite E. intros _. exact D.
Qed.

Lemma run_stopped_idle ops : forall r, stopped_idle r -> stopped_idle (run ops r).
Proof.
  unfold run. induction ops as [| op ops IH]; intros r H; simpl.
  - exact H.
  - apply IH. now apply perform_stopped_idle.
Qed.

(** X6.  A Stopped renderer holds no device session: this is true after
    construction and every operation keeps it, so it holds in every state
    the renderer reaches. *)
Theorem stopped_means_no_session :
  (forall op r, stopped_idle r -> stopped_idle (perform op r)) /\
  (forall ops, m_state (run ops constructed) = State_Stopped ->
               m_device (run ops constructed) = None).
Proof.
  split.
  - intros op r. apply perform_stopped_idle.
  - intros ops. apply run_stopped_idle. intros _. reflexivity.
Qed.

Lemma stopped_means_no_session_witness :
  m_state (run Scenario.play_three_and_stop constructed) = State_Stopped /\
  m_device (run Scenario.play_three_and_stop constructed) = None.
Proof.
  split; [reflexivity |].
  apply (proj2 stopped_means_no_session Scenario.play_three_and_stop).
  reflexivity.
Defined.

(** X7.  Destroying a renderer, in whatever state the operations have
    left it, ends with the renderer Stopped, without session and with a
    pushed-frame counter of zero; the destructor calls [Stop] only when the
    renderer is not Stopped already, and does not throw or assert. *)
Theorem Destructor_leaves_nothing (ops : list Operation) :
  exists r', Destructor (run ops constructed) = (Ret tt, r') /\
    m_state r' = State_Stopped /\
    m_device r' = None /\
    m_pushedFrames r' = 0 /\
    (m_state (run ops constructed) = State_Stopped -> r' = run ops constructed).
Proof.
  pose proof (run_stopped_idle ops constructed ltac:(intros _; reflexivity)) as I.
  pose proof (run_idle ops constructed ltac:(intros _; reflexivity)) as J.
  unfold Destructor. run.
  destruct (state_eqb_spec (m_state (run ops constructed)) State_Stopped) as [S | S];
    simpl.
  - eexists. split; [reflexivity |]. repeat split; auto.
  - unfold Stop. run.
    destruct (ClearDevice_result (Upd.state State_Stopped (run ops constructed)))
      as (r' & E & D & P & St & _).
    rewrite E. exists r'. simpl in St. repeat split; auto. contradiction.
Qed.

Lemma Destructor_leaves_nothing_witness :
  Destructor (run Scenario.play_three_and_stop constructed)
  = (Ret tt, run Scenario.play_three_and_stop constructed).
Proof.
  destruct (Destructor_leaves_nothing Scenario.play_three_and_stop)
    as (r' & E & _ & _ & _ & U).
  rewrite (U eq_refl) in E. exact E.
Defined.

(* ================================================================== *)
(** ** More about the push loop *)

Lemma roomy_healthy ticks : Forall roomy ticks -> Forall healthy ticks.
Proof. intros H. eapply Forall_impl; [| exact H]. intros t (Hh & _). exact Hh. Qed.

(** X8.  [Push] completes: with a session, a renderer that is not Stopped,
    no flush, a chunk whose frame size is the device's, and a device that
    at every look succeeds and has room for at least one frame, a [Push]
    that is given one look per frame returns [true]; all frames of the
    chunk have then been written, [pushedFrames] has grown by the frame
    count, and the bytes copied into the device buffer are, in order, the
    chunk's data (its first frame count times frame size bytes), provided
    that this byte count fits the 32-bit size of a copy. *)
Theorem Push_completes (chunk : DspChunk) (ticks : list PushTick)
    (r : AudioRenderer) (dev : AudioDevice) :
  m_device r = Some dev ->
  m_state r <> State_Stopped ->
  m_flush r = false ->
  GetFrameSize chunk = wBitsPerSample (waveFormat dev) / 8 * nChannels (waveFormat dev) ->
  Forall roomy ticks ->
  0 < GetFrameCount chunk < 2 ^ 32 ->
  GetFrameCount chunk <= Z.of_nat (List.length ticks) ->
  0 <= m_pushedFrames r ->
  m_pushedFrames r + GetFrameCount chunk < 2 ^ 64 ->
  exists r', Push chunk ticks r = (Ret true, r') /\
    m_pushedFrames r' = m_pushedFrames r + GetFrameCount chunk /\
    frames_written (calls r') = frames_written (calls r) + GetFrameCount chunk /\
    m_device r' = Some dev /\
    (0 <= GetFrameSize chunk ->
     GetFrameCount chunk * GetFrameSize chunk < 2 ^ 32 ->
     bytes_written (calls r')
     = bytes_written (calls r)
       ++ firstn (Z.to_nat (GetFrameCount chunk * GetFrameSize chunk)) (constData chunk)).
Proof.
  intros D S F Fs Hr Hc Hl Hp0 Hp1.
  destruct (Push_loop_completes chunk dev ticks true 0 r D S F Fs Hr)
    as (r' & E & P & D'); try lia.
  exists r'. unfold Push, IsEmpty.
  assert (N : (frameCount chunk =? 0) = false)
    by (apply Z.eqb_neq; unfold GetFrameCount in Hc; lia).
  rewrite N. split; [exact E |]. split; [rewrite P; lia |].
  split; [| split; [exact D' |]].
  - destruct (Push_loop_delivers chunk dev ticks true 0 r (Ret true) r'
                ltac:(lia) D (roomy_healthy _ Hr) E) as (_ & T & _).
    rewrite (T eq_refl). lia.
  - intros Hfs Hsz.
    exact (Push_copies_chunk chunk dev ticks r r' ltac:(lia) D
             (roomy_healthy _ Hr) Hfs Hsz E).
Qed.

Lemma Push_completes_witness :
  exists r', Push Scenario.three_frames
               [Scenario.tick 2 0 false; Scenario.tick 2 1 false; Scenario.tick 2 1 false]
               Scenario.playing = (Ret true, r') /\
    m_pushedFrames r' = 3 /\
    frames_written (calls r') = 3 /\
    m_device r' = Some Scenario.speakers /\
    bytes_written (calls r') = constData Scenario.three_frames.
Proof.
  destruct (Push_completes Scenario.three_frames
              [Scenario.tick 2 0 false; Scenario.tick 2 1 false; Scenario.tick 2 1 false]
              Scenario.playing Scenario.speakers)
    as (r' & E & P & W & D & B);
    try reflexivity;
    try (simpl; discriminate);
    try (repeat constructor; vm_compute; congruence).
  exists r'. repeat split; auto.
  apply B; [discriminate | reflexivity].
Defined.

(** X9.  In every situation, with or without a session and whatever the
    device answers, [Push] returns [false] only right after a 50 ms wait on
    the flush event, with the flush event signalled; in particular never
    from its first iteration. *)
Theorem Push_false_only_after_flush (chunk : DspChunk) (ticks : list PushTick)
    (r r' : AudioRenderer) :
  Push chunk ticks r = (Ret false, r') ->
  m_flush r' = true /\
  (exists log, calls r' = calls r ++ log ++ [Flush_Wait 50]) /\
  (2 <= List.length ticks)%nat.
Proof.
  intros E. unfold Push in E. destruct (IsEmpty chunk); [discriminate E |].
  destruct (Push_loop_false_after_flush chunk ticks true 0 r r' E) as [F L].
  split; [exact F |]. split; [exact L |].
  destruct ticks as [| t1 [| t2 ticks]]; simpl; try lia; exfalso;
    cbn [Push_loop] in E.
  - destruct (0 <? GetFrameCount chunk); discriminate E.
  - destruct (0 <? GetFrameCount chunk); [| discriminate E].
    rewrite (bind_Ret (ret false) _ r false r eq_refl) in E. cbv iota in E.
    unfold bind at 1 in E.
    destruct (Push_iteration chunk 0 t1 r) as [[[d |] | e | |] r1];
      try discriminate E.
    cbn [Push_loop] in E. destruct (d <? GetFrameCount chunk); discriminate E.
Qed.

Lemma Push_false_only_after_flush_witness :
  fst (Push Scenario.three_frames [Scenario.broken_tick; Scenario.tick 2 0 true]
         Scenario.paused) = Ret false /\
  m_flush (snd (Push Scenario.three_frames
                  [Scenario.broken_tick; Scenario.tick 2 0 true] Scenario.paused))
  = true /\
  m_device (snd (Push Scenario.three_frames
                   [Scenario.broken_tick; Scenario.tick 2 0 true] Scenario.paused))
  = None.
Proof.
  split; [vm_compute; reflexivity |]. split; [| vm_compute; reflexivity].
  apply (Push_false_only_after_flush Scenario.three_frames
           [Scenario.broken_tick; Scenario.tick 2 0 true] Scenario.paused
           (snd (Push Scenario.three_frames
                   [Scenario.broken_tick; Scenario.tick 2 0 true] Scenario.paused))).
  vm_compute. reflexivity.
Defined.

Lemma Push_write_throws_early chunk doneFrames dev t r e r1 :
  Push_write chunk doneFrames dev t r = (Throw e, r1) -> r1 = r.
Proof.
  unfold Push_write, ThrowIfFailed; run.
  repeat match goal with
         | |- context [if ?c then _ else _] => destruct c; simpl
         end;
    intros E; inversion E; reflexivity.
Qed.

(** X10.  A device call that fails inside an iteration of [Push] costs the
    session and nothing else: the iteration ends normally, nothing has been
    written, the clock is unslaved, the audio client stopped and the device
    released, the counter is zero and the buffer-filled signal is set (so
    that nobody keeps waiting for it).  The loop stops there if the
    renderer is Running and the graph clock shows that the tail would have
    been played by now, and otherwise goes on with the same frames. *)
Theorem Push_iteration_loses_device (chunk : DspChunk) (doneFrames : Z)
    (t : PushTick) (r : AudioRenderer) (dev : AudioDevice) (hr : HRESULT) :
  m_device r = Some dev ->
  m_state r <> State_Stopped ->
  fst (Push_write chunk doneFrames dev t r) = Throw (hresult hr) ->
  exists r',
    Push_iteration chunk doneFrames t r
    = (Ret (if tail_already_played t r then Break else Continue doneFrames), r') /\
    m_device r' = None /\
    m_pushedFrames r' = 0 /\
    m_bufferFilled r' = true /\
    calls r' = calls r ++ [Clock_UnslaveClockFromAudio; AudioClient_Stop;
                           DeviceManager_ReleaseDevice].
Proof.
  intros D S T.
  destruct (Push_write chunk doneFrames dev t r) as [o r1] eqn:W. simpl in T. subst o.
  pose proof (Push_write_throws_early _ _ _ _ _ _ _ W). subst r1.
  unfold Push_iteration, catch_hresult. run.
  rewrite (state_eqb_neq _ _ S), D. simpl. rewrite W.
  unfold ClearDevice; run. rewrite D. simpl.
  unfold tail_already_played.
  match goal with |- context [if ?c then _ else _] => destruct c end;
    eexists; (split; [reflexivity |]); simpl; rewrite <- !app_assoc; auto.
Qed.

Lemma Push_iteration_loses_device_witness :
  exists r',
    Push_iteration Scenario.three_frames 0 Scenario.broken_tick Scenario.playing
    = (Ret (Continue 0), r') /\
    m_device r' = None /\
    m_pushedFrames r' = 0 /\
    m_bufferFilled r' = true /\
    calls r' = [Clock_UnslaveClockFromAudio; AudioClient_Stop;
                DeviceManager_ReleaseDevice].
Proof.
  apply (Push_iteration_loses_device Scenario.three_frames 0 Scenario.broken_tick
           Scenario.playing Scenario.speakers E_FAIL).
  - reflexivity.
  - simpl. discriminate.
  - reflexivity.
Defined.

Lemma Push_iteration_sessionless chunk doneFrames t r :
  m_device r = None ->
  m_state r <> State_Stopped ->
  Push_iteration chunk doneFrames t r
  = (Ret (if tail_already_played t r then Break else Continue doneFrames),
     Upd.bufferFilled true r).
Proof.
  intros D S. unfold Push_iteration, tail_already_played. run.
  rewrite (state_eqb_neq _ _ S), D. simpl. rewrite D. simpl.
  match goal with |- context [if ?c then _ else _] => destruct c end; reflexivity.
Qed.

Lemma Push_loop_sessionless_waits chunk ticks : forall firstIteration doneFrames r,
  m_device r = None ->
  m_state r <> State_Stopped ->
  Forall (fun t => tail_already_played t r = false) ticks ->
  fst (Push_loop chunk firstIteration doneFrames ticks r) = Ret true ->
  GetFrameCount chunk <= doneFrames.
Proof.
  induction ticks as [| t ticks IH]; intros firstIteration doneFrames r D S Hs E;
    cbn [Push_loop] in E;
    destruct (doneFrames <? GetFrameCount chunk) eqn:L;
    try (apply Z.ltb_ge in L; exact L); try discriminate E.
  exfalso. inversion Hs as [| ? ? Ht Hts]; subst.
  assert (W : exists b r0,
             (if firstIteration then ret false else Wait 50 (pt_flush t)) r = (Ret b, r0) /\
             m_device r0 = None /\ m_state r0 = m_state r /\
             m_startTime r0 = m_startTime r).
  { destruct firstIteration; [exists false, r; auto |].
    unfold Wait; run.
    destruct (m_flush r); [| destruct (pt_flush t)]; simpl;
      do 2 eexists; (split; [reflexivity |]); simpl; auto. }
  destruct W as (b & r0 & Ew & D0 & S0 & T0).
  rewrite (bind_Ret _ _ _ _ _ Ew) in E. destruct b; [discriminate E |].
  rewrite (bind_Ret _ _ _ _ _
             (Push_iteration_sessionless chunk doneFrames t r0 D0 ltac:(congruence))) in E.
  assert (P0 : tail_already_played t r0 = false)
    by (unfold tail_already_played in *; now rewrite S0, T0).
  rewrite P0 in E.
  apply (IH false doneFrames (Upd.bufferFilled true r0)) in E; try assumption.
  - apply Z.ltb_lt in L. lia.
  - simpl. congruence.
  - eapply Forall_impl; [| exact Hts]. intros t' H'.
    unfold tail_already_played in *. simpl. now rewrite S0, T0.
Qed.

Lemma Push_iteration_sessionless_silent chunk doneFrames t W :
  maintains (fun r => m_device r = None /\ frames_written (calls r) = W)
            (Push_iteration chunk doneFrames t).
Proof.
  intros r [D P]. unfold Push_iteration. run.
  destruct (state_eqb (m_state r) State_Stopped); simpl; [auto |].
  rewrite D. simpl. rewrite D. simpl.
  match goal with |- context [if ?c then _ else _] => destruct c end; simpl; auto.
Qed.

Lemma Push_loop_sessionless_silent chunk W ticks : forall firstIteration doneFrames,
  maintains (fun r => m_device r = None /\ frames_written (calls r) = W)
            (Push_loop chunk firstIteration doneFrames ticks).
Proof.
  induction ticks as [| t ticks IH]; intros firstIteration doneFrames;
    cbn [Push_loop].
  - destruct (doneFrames <? GetFrameCount chunk); framed.
  - unfold Wait. pose proof Push_iteration_sessionless_silent as X.
    framed; simpl; rewrite ?frames_written_app; simpl; rewrite ?Z.add_0_r; auto.
Qed.

(** X11.  [Push] without a session writes nothing.  If the renderer is
    Running and the graph clock, plus 20 ms, is past the start time plus
    the end of the last sample, it returns [true] at its first iteration,
    the chunk dropped and the buffer-filled signal set.  As long as that
    test fails (for one, whenever the renderer is Paused) it never returns
    [true]: it stays in its loop until the flush event ends it. *)
Theorem Push_without_session (chunk : DspChunk) (t : PushTick)
    (ticks : list PushTick) (r : AudioRenderer) :
  0 < GetFrameCount chunk ->
  m_device r = None ->
  m_state r <> State_Stopped ->
  frames_written (calls (snd (Push chunk (t :: ticks) r))) = frames_written (calls r) /\
  (tail_already_played t r = true ->
   Push chunk (t :: ticks) r = (Ret true, Upd.bufferFilled true r)) /\
  (Forall (fun t' => tail_already_played t' r = false) (t :: ticks) ->
   fst (Push chunk (t :: ticks) r) <> Ret true) /\
  (m_state r = State_Paused -> fst (Push chunk (t :: ticks) r) <> Ret true).
Proof.
  intros Hc D S.
  assert (N : IsEmpty chunk = false)
    by (unfold IsEmpty; apply Z.eqb_neq; unfold GetFrameCount in Hc; lia).
  assert (L : (0 <? GetFrameCount chunk) = true) by (apply Z.ltb_lt; lia).
  assert (Q : Forall (fun t' => tail_already_played t' r = false) (t :: ticks) ->
              fst (Push chunk (t :: ticks) r) <> Ret true).
  { intros Hs E. unfold Push in E. rewrite N in E.
    apply Push_loop_sessionless_waits in E; try assumption. lia. }
  split; [| split; [| split]].
  - unfold Push. rewrite N.
    now apply (Push_loop_sessionless_silent chunk (frames_written (calls r))
                 (t :: ticks) true 0 r).
  - intros P. unfold Push. rewrite N. cbn [Push_loop]. rewrite L.
    rewrite (bind_Ret (ret false) _ r false r eq_refl). cbv iota.
    rewrite (bind_Ret _ _ _ _ _ (Push_iteration_sessionless chunk 0 t r D S)).
    rewrite P. reflexivity.
  - exact Q.
  - intros Sp. apply Q. apply Forall_forall. intros t' _.
    unfold tail_already_played. now rewrite Sp.
Qed.

Lemma Push_without_session_witness :
  Push Scenario.three_frames [Scenario.tick 2 0 false] Scenario.paused_idle
  = (Blocked, Upd.bufferFilled true Scenario.paused_idle) /\
  fst (Push Scenario.three_frames [Scenario.tick 2 0 false; Scenario.tick 2 0 false]
         Scenario.paused_idle) <> Ret true.
Proof.
  split; [reflexivity |].
  apply (Push_without_session Scenario.three_frames (Scenario.tick 2 0 false)
           [Scenario.tick 2 0 false] Scenario.paused_idle); try reflexivity.
  simpl. discriminate.
Defined.

Lemma Push_iteration_keeps_flush chunk doneFrames t b :
  maintains (fun r => m_flush r = b) (Push_iteration chunk doneFrames t).
Proof.
  unfold Push_iteration, Push_write, ClearDevice. framed; simpl; assumption.
Qed.

Lemma bind_out {A B} (m : M A) (k : A -> M B) r o r' :
  m r = (o, r') ->
  bind m k r = match o with
               | Ret a => k a r'
               | Throw e => (Throw e, r')
               | AssertFail => (AssertFail, r')
               | Blocked => (Blocked, r')
               end.
Proof. intros E. unfold bind. now rewrite E. Qed.

Section Finishes.

Lemma finishes_ret {A} (a : A) : finishes (ret a).
Proof. intros r H. discriminate H. Qed.

Lemma finishes_throw {A} e : finishes (@throw A e).
Proof. intros r H. discriminate H. Qed.

Lemma finishes_get : finishes get.
Proof. intros r H. discriminate H. Qed.

Lemma finishes_modify f : finishes (modify f).
Proof. intros r H. discriminate H. Qed.

Lemma finishes_assert c : finishes (assert c).
Proof. intros r H. unfold assert in H. destruct c; discriminate H. Qed.

Lemma finishes_lift {A} (x : Res A) : finishes (lift x).
Proof. intros r H. destruct x; discriminate H. Qed.

Lemma finishes_ThrowIfFailed hr : finishes (ThrowIfFailed hr).
Proof. intros r H. unfold ThrowIfFailed in H. destruct (FAILED hr); discriminate H. Qed.

Lemma finishes_bind {A B} (m : M A) (k : A -> M B) :
  finishes m -> (forall a, finishes (k a)) -> finishes (bind m k).
Proof.
  intros Hm Hk r H. unfold bind in H.
  specialize (Hm r). destruct (m r) as [[a | e | |] r']; simpl in *;
    try discriminate H.
  - eapply Hk; exact H.
  - now apply Hm.
Qed.

Lemma finishes_when c m : finishes m -> finishes (when c m).
Proof. intros Hm. unfold when. destruct c; [exact Hm | apply finishes_ret]. Qed.

Lemma finishes_catch_bad_alloc {A} (body handler : M A) :
  finishes body -> finishes handler -> finishes (catch_bad_alloc body handler).
Proof.
  intros Hb Hh r H. unfold catch_bad_alloc in H.
  specialize (Hb r). destruct (body r) as [[a | [| hr] | |] r']; simpl in *;
    try discriminate H.
  - eapply Hh; exact H.
  - now apply Hb.
Qed.

Lemma finishes_catch_hresult {A} (body handler : M A) :
  finishes body -> finishes handler -> finishes (catch_hresult body handler).
Proof.
  intros Hb Hh r H. unfold catch_hresult in H.
  specialize (Hb r). destruct (body r) as [[a | [| hr] | |] r']; simpl in *;
    try discriminate H.
  - eapply Hh; exact H.
  - now apply Hb.
Qed.

End Finishes.

Ltac finishing_step :=
  first
    [ assumption
    | apply finishes_ret
    | apply finishes_throw
    | apply finishes_get
    | apply finishes_assert
    | apply finishes_lift
    | apply finishes_ThrowIfFailed
    | apply finishes_when
    | apply finishes_catch_bad_alloc
    | apply finishes_catch_hresult
    | apply finishes_bind; [ | intros ? ]
    | match goal with
      | |- finishes (match ?x with _ => _ end) => destruct x
      | |- finishes (call _) => apply finishes_modify
      | |- finishes (modify _) => apply finishes_modify
      end ].

Ltac finishing := repeat finishing_step.

Lemma Push_iteration_finishes chunk doneFrames t :
  finishes (Push_iteration chunk doneFrames t).
Proof. unfold Push_iteration, Push_write, ClearDevice. finishing. Qed.

(** X12.  Once the flush event is signalled [Push] does not go on: it
    performs at most its first iteration (at most one write to the device)
    and returns when it reaches the wait before the second, so device
    answers beyond that wait are never consulted and it never stays in its
    loop. *)
Theorem Push_stops_when_flushed (chunk : DspChunk) (t1 t2 : PushTick)
    (ticks : list PushTick) (r : AudioRenderer) :
  0 < GetFrameCount chunk ->
  m_flush r = true ->
  Push chunk (t1 :: t2 :: ticks) r = Push chunk [t1; t2] r /\
  fst (Push chunk (t1 :: t2 :: ticks) r) <> Blocked /\
  frames_written (calls (snd (Push chunk (t1 :: t2 :: ticks) r)))
  = frames_written (calls (snd (Push_iteration chunk 0 t1 r))).
Proof.
  intros Hc F. unfold Push, IsEmpty.
  assert (N : (frameCount chunk =? 0) = false)
    by (apply Z.eqb_neq; unfold GetFrameCount in Hc; lia).
  assert (L : (0 <? GetFrameCount chunk) = true) by (apply Z.ltb_lt; lia).
  rewrite N. cbn [Push_loop]. rewrite L.
  rewrite !(bind_Ret (ret false) _ r false r eq_refl). cbv iota.
  pose proof (Push_iteration_keeps_flush chunk 0 t1 true r F) as F1.
  destruct (Push_iteration chunk 0 t1 r) as [o r1] eqn:E1.
  rewrite !(bind_out _ _ _ _ _ E1). simpl in F1 |- *.
  pose proof (Push_iteration_finishes chunk 0 t1 r) as Nb. rewrite E1 in Nb.
  destruct o as [[d |] | e | |]; simpl in *;
    try (now elim Nb);
    try (repeat split; first [reflexivity | discriminate]).
  destruct (d <? GetFrameCount chunk);
    [| unfold ret; simpl; repeat split; first [reflexivity | discriminate]].
  assert (W : Wait 50 (pt_flush t2) r1 = (Ret true, Upd.log (Flush_Wait 50) r1))
    by (unfold Wait; run; now rewrite F1).
  rewrite !(bind_Ret _ _ _ _ _ W). simpl.
  repeat split; try discriminate.
  rewrite frames_written_app. simpl. lia.
Qed.

Lemma Push_stops_when_flushed_witness :
  Push Scenario.three_frames
    [Scenario.tick 2 0 false; Scenario.tick 2 0 false; Scenario.tick 2 0 false]
    Scenario.flushing
  = Push Scenario.three_frames [Scenario.tick 2 0 false; Scenario.tick 2 0 false]
      Scenario.flushing /\
  fst (Push Scenario.three_frames
         [Scenario.tick 2 0 false; Scenario.tick 2 0 false; Scenario.tick 2 0 false]
         Scenario.flushing) = Ret false.
Proof.
  split; [| reflexivity].
  apply (Push_stops_when_flushed Scenario.three_frames (Scenario.tick 2 0 false)
           (Scenario.tick 2 0 false) [Scenario.tick 2 0 false] Scenario.flushing);
    reflexivity.
Defined.

(* ================================================================== *)
(** ** More about the drain wait *)

(** X13.  How a check of the drain wait ends it as completed: when the
    session is gone, at once; when the device clock fails to report its
    frequency or its position, with the session cleared and the counter
    zero; and when the position, converted to time, equals the pushed
    frames, converted to time.  In the first and the last case the
    renderer is left as it was. *)
Theorem drain_wait_completions (t : BlockTick) (ticks : list BlockTick)
    (r : AudioRenderer) :
  (m_device r = None -> doBlock_loop (t :: ticks) r = (Ret true, r)) /\
  (forall dev, m_device r = Some dev ->
     FAILED (fst (bt_GetFrequency t)) = true \/ FAILED (fst (bt_GetPosition t)) = true ->
     exists r', doBlock_loop (t :: ticks) r = (Ret true, r') /\
       m_device r' = None /\ m_pushedFrames r' = 0) /\
  (forall dev, m_device r = Some dev ->
     SUCCEEDED (fst (bt_GetFrequency t)) = true ->
     SUCCEEDED (fst (bt_GetPosition t)) = true ->
     position_time t = pushed_time (m_pushedFrames r) dev ->
     doBlock_loop (t :: ticks) r = (Ret true, r)).
Proof.
  split; [| split].
  - intros D. cbn [doBlock_loop]. unfold doBlock_locked. run. rewrite D. reflexivity.
  - intros dev D Hf. cbn [doBlock_loop].
    unfold doBlock_locked, catch_hresult, ThrowIfFailed. run. rewrite D.
    destruct (ClearDevice_result r) as (r' & E & Dn & P & _).
    destruct (FAILED (fst (bt_GetFrequency t))) eqn:F1; simpl.
    + rewrite E. simpl. eauto.
    + destruct Hf as [Hf | Hf]; [discriminate Hf |]. rewrite Hf. simpl.
      rewrite E. simpl. eauto.
  - intros dev D H1 H2 Eq. cbn [doBlock_loop].
    rewrite (bind_Ret _ _ _ _ _ (doBlock_locked_drained _ t r dev D H1 H2 Eq)).
    reflexivity.
Qed.

Lemma drain_wait_completions_witness :
  doBlock_loop [Scenario.drained] Scenario.draining = (Ret true, Scenario.draining) /\
  exists r', doBlock_loop [Scenario.clock_lost] Scenario.draining = (Ret true, r') /\
    m_device r' = None /\ m_pushedFrames r' = 0.
Proof.
  split.
  - apply (proj2 (proj2 (drain_wait_completions Scenario.drained [] Scenario.draining))
             Scenario.speakers); reflexivity.
  - apply (proj1 (proj2 (drain_wait_completions Scenario.clock_lost []
                           Scenario.draining)) Scenario.speakers).
    + reflexivity.
    + right. reflexivity.
Defined.

Lemma waits_app l l' : waits (l ++ l') = waits l ++ waits l'.
Proof.
  induction l as [| c l IH]; simpl; [reflexivity |].
  destruct c; rewrite ?IH; reflexivity.
Qed.

Lemma doBlock_locked_keeps_waits actual0 t (W : list Z) :
  maintains (fun r => waits (calls r) = W) (doBlock_locked actual0 t).
Proof.
  unfold doBlock_locked, ClearDevice.
  framed; simpl; rewrite ?waits_app, ?app_nil_r; assumption.
Qed.

Lemma doBlock_locked_done actual0 t r b r1 :
  doBlock_locked actual0 t r = (Ret (Done b), r1) -> b = true.
Proof.
  unfold doBlock_locked. rewrite (bind_Ret get _ r r r eq_refl).
  destruct (m_device r) as [dev |]; [| intros E; inversion E; reflexivity].
  match goal with
  | |- bind ?m _ _ = _ -> _ => destruct (m r) as [o r2] eqn:C
  end.
  rewrite (bind_out _ _ _ _ _ C).
  destruct o as [[[f p] |] | e | |]; try (intros E; discriminate E).
  - repeat match goal with
           | |- context [if ?c then _ else _] => destruct c
           end;
      intros E; inversion E; reflexivity.
  - intros E; inversion E; reflexivity.
Qed.

Lemma doBlock_loop_trace ticks : forall r out r',
  doBlock_loop ticks r = (out, r') ->
  exists w, waits (calls r') = waits (calls r) ++ w /\
    Forall (fun ms => 1 <= ms) w /\
    (out = Ret false -> m_flush r' = true /\ w <> []).
Proof.
  induction ticks as [| t ticks IH]; intros r out r' E; cbn [doBlock_loop] in E.
  - inversion E; subst. exists []. rewrite app_nil_r.
    repeat split; auto; discriminate.
  - pose proof (doBlock_locked_keeps_waits INT64_MAX t (waits (calls r)) r eq_refl) as K.
    destruct (doBlock_locked INT64_MAX t r) as [o1 r1] eqn:E1.
    rewrite (bind_out _ _ _ _ _ E1) in E. simpl in K.
    destruct o1 as [[b | target actual] | e | |];
      try (inversion E; subst; exists []; rewrite app_nil_r;
           repeat split; auto; discriminate).
    + inversion E; subst. rewrite (doBlock_locked_done _ _ _ _ _ E1).
      exists []. rewrite app_nil_r. repeat split; auto; discriminate.
    + destruct (Wait_result (sleep_ms target actual) (bt_flush t) r1)
        as (b & r2 & Ew & Lw & _ & Fw).
      rewrite (bind_Ret _ _ _ _ _ Ew) in E.
      pose proof (sleep_ms_at_least_one target actual) as Hs.
      destruct b.
      * inversion E; subst. exists [sleep_ms target actual].
        rewrite Lw, waits_app, K. simpl.
        repeat split; auto; discriminate.
      * destruct (IH r2 out r' E) as (w & Ww & Fw' & Ff).
        exists (sleep_ms target actual :: w).
        rewrite Ww, Lw, waits_app, K. simpl. rewrite <- app_assoc. simpl.
        repeat split; auto.
        -- now apply Ff.
        -- discriminate.
Qed.

(** X14.  Every sleep of the drain wait lasts at least one millisecond,
    and the drain wait returns [false] only after such a sleep, with the
    flush event signalled. *)
Theorem drain_wait_sleeps (ticks : list BlockTick) (r r' : AudioRenderer)
    (out : Outcome bool) :
  doBlock ticks r = (out, r') ->
  exists w, waits (calls r') = waits (calls r) ++ w /\
    Forall (fun ms => 1 <= ms) w /\
    (out = Ret false -> m_flush r' = true /\ w <> []).
Proof.
  intros E. unfold doBlock in E.
  rewrite (bind_Ret (call Clock_UnslaveClockFromAudio) _ r tt
             (Upd.log Clock_UnslaveClockFromAudio r) eq_refl) in E.
  destruct (doBlock_loop_trace ticks _ out r' E) as (w & Ww & Fw & Ff).
  exists w. simpl in Ww. rewrite waits_app in Ww. simpl in Ww.
  rewrite app_nil_r in Ww. auto.
Qed.

Lemma drain_wait_sleeps_witness :
  fst (doBlock [Scenario.stalled; Scenario.stalled_then_flushed] Scenario.draining)
  = Ret false /\
  waits (calls (snd (doBlock [Scenario.stalled; Scenario.stalled_then_flushed]
                       Scenario.draining))) = [500; 500] /\
  m_flush (snd (doBlock [Scenario.stalled; Scenario.stalled_then_flushed]
                  Scenario.draining)) = true.
Proof.
  split; [vm_compute; reflexivity |]. split; [vm_compute; reflexivity |].
  destruct (drain_wait_sleeps [Scenario.stalled; Scenario.stalled_then_flushed]
              Scenario.draining
              (snd (doBlock [Scenario.stalled; Scenario.stalled_then_flushed]
                      Scenario.draining))
              (Ret false)) as (w & _ & _ & Ff).
  - vm_compute. reflexivity.
  - exact (proj1 (Ff eq_refl)).
Defined.

(* ================================================================== *)
(** ** Out of memory during Finish *)

Lemma EnumerateProcessors_pure stages chunk r :
  snd (EnumerateProcessors stages chunk r) = r.
Proof.
  exact (@maintains_EnumerateProcessors (fun x => x = r) stages chunk r eq_refl).
Qed.

(** X15.  When draining the DSP stages or converting the drained tail
    runs out of memory, [Finish] goes on with an empty tail and, unlike
    [Enqueue], keeps the session: the locked part leaves the renderer
    untouched, [Finish(false)] returns [true], and [Finish(true)] is the
    drain wait on the session as it was. *)
Theorem Finish_survives_bad_alloc (b : bool) (env : FinishEnv)
    (pushTicks : list PushTick) (blockTicks : list BlockTick)
    (r : AudioRenderer) (dev : AudioDevice) :
  m_device r = Some dev ->
  bitstream dev = false ->
  m_state r <> State_Stopped ->
  fst ((c <- EnumerateProcessors (fenv_Finish env) DspChunk_default;;
        lift (fenv_ToFormat env (dspFormat dev) c)) r) = Throw bad_alloc ->
  Finish_locked b env r = (Ret (DspChunk_default, b), r) /\
  Finish false env pushTicks blockTicks r = (Ret true, r) /\
  Finish true env pushTicks blockTicks r = doBlock blockTicks r.
Proof.
  intros D B S T.
  assert (L : forall b', Finish_locked b' env r = (Ret (DspChunk_default, b'), r)).
  { intros b'. unfold Finish_locked.
    rewrite (bind_Ret get _ r r r eq_refl).
    rewrite D, B, (state_eqb_neq _ _ S). simpl.
    rewrite (bind_Ret (assert true) _ r tt r eq_refl).
    match goal with
    | |- bind (catch_bad_alloc ?body ?h) _ _ = _ =>
        assert (C : catch_bad_alloc body h r = (Ret DspChunk_default, r))
    end.
    { unfold catch_bad_alloc.
      match type of T with fst (?m r) = _ => destruct (m r) as [o r1] eqn:E end.
      simpl in T. subst o.
      assert (R : r1 = r).
      { unfold bind in E.
        pose proof (EnumerateProcessors_pure (fenv_Finish env) DspChunk_default r) as P.
        destruct (EnumerateProcessors (fenv_Finish env) DspChunk_default r)
          as [[c | e | |] r2]; simpl in P; subst r2; try (now inversion E).
        destruct (fenv_ToFormat env (dspFormat dev) c); now inversion E. }
      subst r1. reflexivity. }
    rewrite (bind_Ret _ _ _ _ _ C). reflexivity. }
  split; [apply L |]. split.
  - unfold Finish. rewrite (bind_Ret _ _ _ _ _ (L false)). reflexivity.
  - unfold Finish. rewrite (bind_Ret _ _ _ _ _ (L true)). cbv beta iota.
    rewrite (bind_Ret (Push DspChunk_default pushTicks) _ r true r eq_refl).
    reflexivity.
Qed.

Lemma Finish_survives_bad_alloc_witness :
  Finish false Scenario.exhausted_tail [] [] Scenario.playing
  = (Ret true, Scenario.playing).
Proof.
  apply (Finish_survives_bad_alloc false Scenario.exhausted_tail [] []
           Scenario.playing Scenario.speakers); try reflexivity.
  simpl. discriminate.
Defined.

(* ================================================================== *)
(** ** Bitstream sessions bypass the DSP chain *)

Lemma Enqueue_locked_from_try env r out r2 :
  m_inputFormat r <> None ->
  m_state r <> State_Stopped ->
  Enqueue_try env r = (Ret out, r2) ->
  Enqueue_locked env r = (Ret out, r2).
Proof.
  intros F S T. unfold Enqueue_locked.
  rewrite (bind_Ret get _ r r r eq_refl).
  destruct (m_inputFormat r); [| congruence]. simpl.
  rewrite (bind_Ret (assert true) _ r tt r eq_refl).
  rewrite (state_eqb_neq _ _ S). simpl.
  rewrite (bind_Ret (assert true) _ r tt r eq_refl).
  unfold catch_bad_alloc. rewrite T. reflexivity.
Qed.

(** X16.  On a bitstream session [Enqueue] hands to [Push] exactly the
    chunk the timing correction produced: no DSP stage and no format
    conversion touches it, whatever they would answer, nothing is fed to
    the rate stage, and the session stays. *)
Theorem Enqueue_bitstream_passthrough (env : EnqueueEnv) (r r1 : AudioRenderer)
    (chunk : DspChunk) (dev : AudioDevice) :
  m_inputFormat r <> None ->
  m_state r <> State_Stopped ->
  Enqueue_prologue env r = (Ret chunk, r1) ->
  m_device r1 = Some dev ->
  bitstream dev = true ->
  exists r',
    Enqueue_locked env r = (Ret chunk, r') /\
    m_device r' = Some dev /\
    rate_adjustments (calls r') = rate_adjustments (calls r).
Proof.
  intros F S P D B.
  pose proof (Enqueue_prologue_feeds_nothing env _ r eq_refl) as Kn.
  rewrite P in Kn. simpl in Kn.
  destruct (OffsetSlavedClock_step_result env r1) as (r2 & E2 & D2 & _ & _ & L2).
  assert (Y : exists r3, Enqueue_sync env r1 = (Ret tt, r3) /\
                m_device r3 = Some dev /\
                rate_adjustments (calls r3) = rate_adjustments (calls r1)).
  { unfold Enqueue_sync. rewrite (bind_Ret get _ r1 r1 r1 eq_refl). rewrite D.
    destruct (state_eqb (m_state r1) State_Running); simpl.
    - rewrite (bind_Ret _ _ _ _ _ E2). unfold RateDsp_step.
      rewrite (bind_Ret get _ r2 r2 r2 eq_refl). rewrite B, andb_false_r. simpl.
      exists r2. repeat split; congruence.
    - exists r1. repeat split; assumption. }
  destruct Y as (r3 & Y & D3 & L3).
  exists r3. split; [| split; [exact D3 | congruence]].
  apply Enqueue_locked_from_try; try assumption.
  unfold Enqueue_try.
  rewrite (bind_Ret _ _ _ _ _ P), (bind_Ret _ _ _ _ _ Y).
  unfold Enqueue_dsp. rewrite (bind_Ret get _ r3 r3 r3 eq_refl).
  rewrite D3, B. reflexivity.
Qed.

Lemma Enqueue_bitstream_passthrough_witness :
  exists r',
    Enqueue_locked Scenario.hostile_stages Scenario.bitstreaming
    = (Ret Scenario.three_frames, r') /\
    m_device r' = Some Scenario.receiver /\
    rate_adjustments (calls r') = [].
Proof.
  apply (Enqueue_bitstream_passthrough Scenario.hostile_stages Scenario.bitstreaming
           Scenario.bitstreaming Scenario.three_frames Scenario.receiver);
    try reflexivity; simpl; discriminate.
Defined.

(* ================================================================== *)
(** ** Nudging the slaved clock *)

Lemma clock_offsets_app l l' :
  clock_offsets (l ++ l') = clock_offsets l ++ clock_offsets l'.
Proof.
  induction l as [| c l IH]; simpl; [reflexivity |].
  destruct c; rewrite ?IH; reflexivity.
Qed.

Ltac quiet_log :=
  simpl; rewrite ?clock_offsets_app, ?rate_adjustments_app; simpl;
  rewrite ?app_nil_r; try assumption; try tauto.

Lemma ClearDevice_keeps_offsets (L : list REFERENCE_TIME) :
  maintains (fun r => clock_offsets (calls r) = L) ClearDevice.
Proof. unfold ClearDevice. framed; quiet_log. Qed.

#[local] Hint Resolve ClearDevice_keeps_offsets : frame.

Lemma Enqueue_prologue_keeps_offsets env (L : list REFERENCE_TIME) :
  maintains (fun r => clock_offsets (calls r) = L) (Enqueue_prologue env).
Proof.
  unfold Enqueue_prologue, CheckDeviceSettings, CreateDevice, InitializeProcessors,
    StartDevice.
  framed; quiet_log.
Qed.

Lemma Enqueue_tail_keeps_offsets env dev chunk (L : list REFERENCE_TIME) :
  maintains (fun r => clock_offsets (calls r) = L)
            (catch_bad_alloc (RateDsp_step env dev;; Enqueue_dsp env chunk)
                             (ClearDevice;; ret DspChunk_default)).
Proof. unfold RateDsp_step, Enqueue_dsp. framed; quiet_log. Qed.

Lemma bind_congr {A B} (m m' : M A) (k : A -> M B) r r' :
  m r = m' r' -> bind m k r = bind m' k r'.
Proof. intros E. unfold bind. now rewrite E. Qed.

Lemma catch_bad_alloc_congr {A} (body body' handler : M A) r r' :
  body r = body' r' -> catch_bad_alloc body handler r = catch_bad_alloc body' handler r'.
Proof. intros E. unfold catch_bad_alloc. now rewrite E. Qed.

Lemma Enqueue_locked_unfolded env r :
  m_inputFormat r <> None ->
  m_state r <> State_Stopped ->
  Enqueue_locked env r
  = catch_bad_alloc (Enqueue_try env) (ClearDevice;; ret DspChunk_default) r.
Proof.
  intros F S. unfold Enqueue_locked.
  rewrite (bind_Ret get _ r r r eq_refl).
  destruct (m_inputFormat r); [| congruence]. simpl.
  rewrite (bind_Ret (assert true) _ r tt r eq_refl).
  rewrite (state_eqb_neq _ _ S). simpl.
  now rewrite (bind_Ret (assert true) _ r tt r eq_refl).
Qed.

(** X17.  During a Running [Enqueue] with a session (as it stands after
    the settings check and the lazy creation), the slaved clock is offset
    exactly when the timing error differs from the current slaved-clock
    offset by more than 1000 units of 100 ns, and then by that difference;
    this holds on either clock and for bitstream sessions too, and however
    the rest of the call ends. *)
Theorem slaved_clock_nudge (env : EnqueueEnv) (r r1 : AudioRenderer)
    (chunk : DspChunk) (dev : AudioDevice) :
  m_state r = State_Running ->
  m_inputFormat r <> None ->
  Enqueue_prologue env r = (Ret chunk, r1) ->
  m_device r1 = Some dev ->
  clock_offsets (calls (snd (Enqueue_locked env r)))
  = clock_offsets (calls r)
    ++ (if 1000 <? Z.abs (env_GetTimingsError env - env_GetSlavedClockOffset env)
        then [env_GetTimingsError env - env_GetSlavedClockOffset env]
        else []).
Proof.
  intros S F P D.
  pose proof (Enqueue_prologue_keeps_state env _ _ r (conj S eq_refl)) as Ks.
  pose proof (Enqueue_prologue_keeps_offsets env _ r eq_refl) as Ko.
  rewrite P in Ks, Ko. simpl in Ks, Ko. destruct Ks as [S1 _].
  set (offset := env_GetTimingsError env - env_GetSlavedClockOffset env).
  set (r2 := if 1000 <? Z.abs offset
             then Upd.log (Clock_OffsetSlavedClock offset) r1 else r1).
  assert (E2 : OffsetSlavedClock_step env r1 = (Ret tt, r2)).
  { unfold OffsetSlavedClock_step, r2. fold offset.
    destruct (1000 <? Z.abs offset); reflexivity. }
  assert (L2 : clock_offsets (calls r2)
               = clock_offsets (calls r)
                 ++ (if 1000 <? Z.abs offset then [offset] else [])).
  { unfold r2. destruct (1000 <? Z.abs offset); simpl.
    - rewrite clock_offsets_app, Ko. reflexivity.
    - now rewrite app_nil_r. }
  rewrite Enqueue_locked_unfolded by (try assumption; congruence).
  assert (T : Enqueue_try env r
              = (RateDsp_step env dev;; Enqueue_dsp env chunk) r2).
  { unfold Enqueue_try. rewrite (bind_Ret _ _ _ _ _ P).
    apply bind_congr. unfold Enqueue_sync.
    rewrite (bind_Ret get _ r1 r1 r1 eq_refl). rewrite D, S1. simpl.
    now rewrite (bind_Ret _ _ _ _ _ E2). }
  rewrite (catch_bad_alloc_congr _ _ _ _ _ T).
  rewrite <- L2. now apply Enqueue_tail_keeps_offsets.
Qed.

Lemma slaved_clock_nudge_witness :
  clock_offsets (calls (snd (Enqueue_locked Scenario.late Scenario.playing))) = [4000].
Proof.
  apply (slaved_clock_nudge Scenario.late Scenario.playing Scenario.playing
           Scenario.three_frames Scenario.speakers); try reflexivity.
  simpl. discriminate.
Defined.

Lemma maintains_and {A} (P Q : AudioRenderer -> Prop) (m : M A) :
  maintains P m -> maintains Q m -> maintains (fun r => P r /\ Q r) m.
Proof. intros Hp Hq r [Pr Qr]. split; [now apply Hp | now apply Hq]. Qed.

Lemma Push_loop_keeps_corrections chunk (L1 L2 : list REFERENCE_TIME) ticks :
  forall firstIteration doneFrames,
  maintains (fun r => clock_offsets (calls r) = L1 /\ rate_adjustments (calls r) = L2)
            (Push_loop chunk firstIteration doneFrames ticks).
Proof.
  induction ticks as [| t ticks IH]; intros firstIteration doneFrames;
    cbn [Push_loop].
  - destruct (doneFrames <? GetFrameCount chunk); framed.
  - unfold Wait, Push_iteration, Push_write, ClearDevice. framed; quiet_log.
Qed.

Lemma Enqueue_sync_idle env r :
  m_state r <> State_Running -> Enqueue_sync env r = (Ret tt, r).
Proof.
  intros S. unfold Enqueue_sync. rewrite (bind_Ret get _ r r r eq_refl).
  destruct (m_device r); [| reflexivity].
  now rewrite (state_eqb_neq _ _ S).
Qed.

(** X18.  An [Enqueue] on a renderer that is not Running corrects no
    clock: however it ends, nothing has been applied to the slaved clock
    and nothing fed to the rate stage. *)
Theorem Enqueue_paused_corrects_nothing (env : EnqueueEnv) (ticks : list PushTick)
    (r : AudioRenderer) :
  m_state r <> State_Running ->
  clock_offsets (calls (snd (Enqueue env ticks r))) = clock_offsets (calls r) /\
  rate_adjustments (calls (snd (Enqueue env ticks r))) = rate_adjustments (calls r).
Proof.
  intros S.
  set (I := fun x => m_state x <> State_Running /\
                     (clock_offsets (calls x) = clock_offsets (calls r) /\
                      rate_adjustments (calls x) = rate_adjustments (calls r))).
  assert (Sy : maintains I (Enqueue_sync env)).
  { intros x Hx. rewrite (Enqueue_sync_idle env x (proj1 Hx)). exact Hx. }
  assert (Pu : forall chunk, maintains I (Push chunk ticks)).
  { intros chunk. apply maintains_and.
    - apply Push_blind. unfold streaming_blind. repeat split; intros; simpl; assumption.
    - unfold Push. destruct (IsEmpty chunk); [framed |].
      apply Push_loop_keeps_corrections. }
  assert (H : maintains I (Enqueue env ticks)).
  { unfold Enqueue, Enqueue_locked, Enqueue_try, Enqueue_prologue, Enqueue_dsp,
      CheckDeviceSettings, CreateDevice, InitializeProcessors, StartDevice, ClearDevice.
    unfold I in *. framed; quiet_log. }
  apply H. unfold I. auto.
Qed.

Lemma Enqueue_paused_corrects_nothing_witness :
  clock_offsets (calls (snd (Enqueue Scenario.late [Scenario.tick 480 0 false]
                               Scenario.paused))) = [] /\
  rate_adjustments (calls (snd (Enqueue Scenario.late [Scenario.tick 480 0 false]
                                  Scenario.paused))) = [].
Proof.
  apply (Enqueue_paused_corrects_nothing Scenario.late [Scenario.tick 480 0 false]
           Scenario.paused).
  simpl. discriminate.
Defined.

(* ================================================================== *)
(** ** Where a new session starts on the clock *)

(** X19.  A session created lazily takes the end of the last sample as
    its start offset and spends it exactly once.  Created while Running,
    the session is started at once with the clock slaved at the start time
    plus that offset.  Created while not Running, nothing is started; the
    next [Play] slaves the clock at its start time plus that offset and
    starts the audio client.  Either way the offset is zero afterwards,
    and creation itself only initialises the DSP stages. *)
Theorem session_start_offset (dev : AudioDevice) (lastSampleEnd startTime : REFERENCE_TIME)
    (r : AudioRenderer) :
  m_device r = None ->
  m_inputFormat r <> None ->
  (m_state r = State_Running ->
   exists log r',
     CreateDevice (Ok (Some dev)) lastSampleEnd r = (Ret tt, r') /\
     Forall (fun c => exists stage, c = Dsp_Initialize stage) log /\
     calls r' = calls r ++ log ++ [Clock_SlaveClockToAudio (m_startTime r + lastSampleEnd);
                                   AudioClient_Start] /\
     m_startClockOffset r' = 0 /\
     m_device r' = Some dev) /\
  (m_state r <> State_Running ->
   exists log r1 r2,
     CreateDevice (Ok (Some dev)) lastSampleEnd r = (Ret tt, r1) /\
     Forall (fun c => exists stage, c = Dsp_Initialize stage) log /\
     calls r1 = calls r ++ log /\
     m_startClockOffset r1 = lastSampleEnd /\
     Play startTime r1 = (Ret tt, r2) /\
     calls r2 = calls r1 ++ [Clock_SlaveClockToAudio (startTime + lastSampleEnd);
                             AudioClient_Start] /\
     m_startClockOffset r2 = 0 /\
     m_device r2 = Some dev).
Proof.
  intros D F.
  destruct (m_inputFormat r) as [fmt |] eqn:Ef; [clear F | congruence].
  set (log := if bitstream dev then [] else
                map Dsp_Initialize ["m_dspMatrix"; "m_dspRate"; "m_dspTempo";
                                    "m_dspCrossfeed"; "m_dspVolume"; "m_dspLimiter";
                                    "m_dspDither"]%string).
  assert (Hlog : Forall (fun c => exists stage, c = Dsp_Initialize stage) log).
  { unfold log. destruct (bitstream dev); repeat constructor; eauto. }
  set (r0 := fold_left (fun x c => Upd.log c x) log
               (Upd.correctedWithRateDsp 0 (Upd.device (Some dev) r))).
  assert (L0 : calls r0 = calls r ++ log).
  { unfold r0, log. destruct (bitstream dev); simpl.
    - now rewrite app_nil_r.
    - now rewrite <- !app_assoc. }
  assert (I0 : InitializeProcessors (Upd.device (Some dev) r) = (Ret tt, r0)).
  { unfold InitializeProcessors. run. rewrite Ef. simpl.
    unfold r0, log. destruct (bitstream dev); reflexivity. }
  assert (S0 : m_state r0 = m_state r /\ m_device r0 = Some dev /\
               m_startTime r0 = m_startTime r).
  { unfold r0, log. destruct (bitstream dev); simpl; auto. }
  destruct S0 as (S0 & D0 & T0).
  assert (C : CreateDevice (Ok (Some dev)) lastSampleEnd r
              = (when (state_eqb (m_state r) State_Running) StartDevice)
                  (Upd.startClockOffset lastSampleEnd r0)).
  { unfold CreateDevice. rewrite (bind_Ret get _ r r r eq_refl). rewrite D, Ef. simpl.
    rewrite !(bind_Ret (assert true) _ r tt r eq_refl).
    rewrite (bind_Ret (ret (Some dev)) _ r (Some dev) r eq_refl).
    rewrite (bind_Ret (modify (Upd.device (Some dev))) _ r tt
               (Upd.device (Some dev) r) eq_refl).
    simpl. rewrite (bind_Ret _ _ _ _ _ I0).
    now rewrite (bind_Ret (modify (Upd.startClockOffset lastSampleEnd)) _ r0 tt
                   (Upd.startClockOffset lastSampleEnd r0) eq_refl). }
  assert (St : forall x, m_state x = State_Running -> m_device x = Some dev ->
                 StartDevice x
                 = (Ret tt,
                    Upd.log AudioClient_Start
                      (Upd.startClockOffset 0
                         (Upd.log (Clock_SlaveClockToAudio
                                     (m_startTime x + m_startClockOffset x)) x)))).
  { intros x Sx Dx. unfold StartDevice. run. rewrite Sx, Dx. reflexivity. }
  split; intros S.
  - exists log. eexists. rewrite C, S. simpl.
    rewrite St by (simpl; congruence).
    split; [reflexivity |]. simpl. rewrite L0, T0, <- !app_assoc. simpl. auto.
  - exists log. do 2 eexists. rewrite C, (state_eqb_neq _ _ S). simpl.
    split; [reflexivity |]. split; [exact Hlog |]. simpl.
    split; [exact L0 |]. split; [reflexivity |].
    unfold Play. rewrite (bind_Ret get _ _ _ _ eq_refl). simpl.
    rewrite S0, (state_eqb_neq _ _ S). simpl.
    rewrite (bind_Ret (assert true) _ _ tt _ eq_refl).
    rewrite (bind_Ret (modify (Upd.state State_Running)) _ _ tt _ eq_refl).
    rewrite (bind_Ret (modify (Upd.startTime startTime)) _ _ tt _ eq_refl).
    rewrite St by (simpl; congruence).
    split; [reflexivity |]. simpl. rewrite <- !app_assoc. simpl. auto.
Qed.

Lemma session_start_offset_witness :
  exists log r1 r2,
    CreateDevice (Ok (Some Scenario.speakers)) 30000 Scenario.paused_idle = (Ret tt, r1) /\
    calls r1 = log /\
    m_startClockOffset r1 = 30000 /\
    Play 500000 r1 = (Ret tt, r2) /\
    calls r2 = log ++ [Clock_SlaveClockToAudio 530000; AudioClient_Start] /\
    m_startClockOffset r2 = 0.
Proof.
  destruct (proj2 (session_start_offset Scenario.speakers 30000 500000
                     Scenario.paused_idle eq_refl ltac:(simpl; discriminate)))
    as (log & r1 & r2 & E1 & _ & L1 & O1 & E2 & L2 & O2 & _).
  - simpl. discriminate.
  - exists log, r1, r2. simpl in L1. rewrite L1 in L2. auto 10.
Defined.

(* ================================================================== *)
(** ** Pausing and resuming *)

(** X20.  Pausing and resuming keeps the session.  With a session,
    [Pause] followed by [Play] unslaves the clock, stops the audio client,
    slaves the clock again at the new start time plus the pending start
    offset and starts the audio client; the renderer is Running again with
    the same session, the same pushed-frame counter and the same flush
    signal.  Without a session the two calls reach no collaborator. *)
Theorem Pause_then_Play (startTime : REFERENCE_TIME) (r : AudioRenderer) :
  exists r',
    (Pause;; Play startTime) r = (Ret tt, r') /\
    m_state r' = State_Running /\
    m_startTime r' = startTime /\
    m_device r' = m_device r /\
    m_pushedFrames r' = m_pushedFrames r /\
    m_flush r' = m_flush r /\
    (m_device r <> None ->
     calls r' = calls r ++ [Clock_UnslaveClockFromAudio; AudioClient_Stop;
                            Clock_SlaveClockToAudio (startTime + m_startClockOffset r);
                            AudioClient_Start] /\
     m_startClockOffset r' = 0) /\
    (m_device r = None -> calls r' = calls r).
Proof.
  unfold Pause, Play, StartDevice. run.
  destruct (m_device r) as [dev |] eqn:D; simpl; rewrite ?D; simpl;
    eexists; (split; [reflexivity |]); simpl; rewrite ?D, <- ?app_assoc; simpl;
    repeat split; auto; try congruence.
Qed.

Lemma Pause_then_Play_witness :
  exists r',
    (Pause;; Play 700000) Scenario.playing = (Ret tt, r') /\
    calls r' = [Clock_UnslaveClockFromAudio; AudioClient_Stop;
                Clock_SlaveClockToAudio 700000; AudioClient_Start] /\
    m_device r' = Some Scenario.speakers.
Proof.
  destruct (Pause_then_Play 700000 Scenario.playing)
    as (r' & E & _ & _ & D & _ & _ & L & _).
  exists r'. split; [exact E |]. split; [| exact D].
  apply L. simpl. discriminate.
Defined.

(* ================================================================== *)
(** ** Settings changes and missing devices during Enqueue *)

(** X21.  An [Enqueue] that finds the settings changed incompatibly
    replaces the session within the same call: the old session is cleared
    and the one the device manager offers is installed, with the
    pushed-frame counter and the accumulated rate correction at zero, and
    the sample is processed for the new session. *)
Theorem Enqueue_replaces_session (env : EnqueueEnv) (r : AudioRenderer)
    (dev dev' : AudioDevice) (chunk : DspChunk) :
  m_device r = Some dev ->
  m_inputFormat r <> None ->
  settingsSerial dev <> env_GetSerial env ->
  SUCCEEDED (od_hr (env_GetOuputDevice env)) = true ->
  ~ compatible_change dev (env_GetOuputDevice env) ->
  env_CreateDevice env = Ok (Some dev') ->
  env_ProcessSample env = Ok chunk ->
  exists r1,
    Enqueue_prologue env r = (Ret chunk, r1) /\
    m_device r1 = Some dev' /\
    m_pushedFrames r1 = 0 /\
    m_correctedWithRateDsp r1 = 0 /\
    m_state r1 = m_state r.
Proof.
  intros D F N S C Cr Ps.
  assert (Mm : settings_mismatch dev (env_GetOuputDevice env) = true).
  { destruct (settings_mismatch dev (env_GetOuputDevice env)) eqn:Mm; [reflexivity |].
    elim C. now apply settings_mismatch_spec. }
  destruct (ClearDevice_result r) as (r0 & E0 & D0 & P0 & S0 & F0 & _).
  assert (Ck : CheckDeviceSettings (env_GetSerial env) (env_GetOuputDevice env) r
               = (Ret tt, r0)).
  { unfold CheckDeviceSettings. rewrite (bind_Ret get _ r r r eq_refl). rewrite D.
    apply Z.eqb_neq in N. rewrite N, S, Mm. simpl.
    rewrite (bind_Ret _ _ _ _ _ E0), (bind_Ret get _ r0 r0 r0 eq_refl), D0.
    reflexivity. }
  pose proof (fun x => CreateDevice_idle (Ok (Some dev')) (env_GetLastSampleEnd env) x)
    as Ci.
  assert (Cd : exists r1,
             CreateDevice (Ok (Some dev')) (env_GetLastSampleEnd env) r0 = (Ret tt, r1) /\
             m_device r1 = Some dev' /\ m_pushedFrames r1 = 0 /\
             m_correctedWithRateDsp r1 = 0 /\ m_state r1 = m_state r0).
  { destruct (m_inputFormat r) as [fmt |] eqn:Ef; [| congruence].
    unfold CreateDevice, InitializeProcessors, StartDevice. run.
    rewrite D0, F0. simpl. rewrite F0. simpl.
    destruct (bitstream dev'); simpl;
      destruct (state_eqb (m_state r0) State_Running) eqn:Sr; simpl; rewrite ?Sr; simpl;
      eexists; (split; [reflexivity |]); simpl; auto. }
  destruct Cd as (r1 & Cd & D1 & P1 & C1 & S1).
  exists r1. split; [| repeat split; congruence].
  unfold Enqueue_prologue.
  rewrite (bind_Ret _ _ _ _ _ Ck), (bind_Ret get _ r0 r0 r0 eq_refl), D0. simpl.
  rewrite Cr, (bind_Ret _ _ _ _ _ Cd), Ps. reflexivity.
Qed.

Lemma Enqueue_replaces_session_witness :
  exists r1,
    Enqueue_prologue Scenario.switched Scenario.draining
    = (Ret Scenario.three_frames, r1) /\
    m_device r1 = Some Scenario.headphones /\
    m_pushedFrames r1 = 0.
Proof.
  destruct (Enqueue_replaces_session Scenario.switched Scenario.draining
              Scenario.speakers Scenario.headphones Scenario.three_frames)
    as (r1 & E & D & P & _); try reflexivity.
  - simpl. discriminate.
  - simpl. discriminate.
  - intros [_ X]. simpl in X. discriminate X.
  - exists r1. auto.
Defined.

(** X22.  An [Enqueue] for which no device can be opened drops the
    sample without failing: Running, with the graph clock (plus 20 ms) past
    the start time plus the end of the last sample, it returns [true] with
    no session, nothing written and nothing changed but the buffer-filled
    signal, which is set. *)
Theorem Enqueue_without_device (env : EnqueueEnv) (t : PushTick)
    (ticks : list PushTick) (r : AudioRenderer) (chunk : DspChunk) :
  m_device r = None ->
  m_inputFormat r <> None ->
  m_state r = State_Running ->
  env_CreateDevice env = Ok None ->
  env_ProcessSample env = Ok chunk ->
  0 < GetFrameCount chunk ->
  tail_already_played t r = true ->
  Enqueue env (t :: ticks) r = (Ret true, Upd.bufferFilled true r).
Proof.
  intros D F S Cr Ps Hc Tp.
  assert (Ck : CheckDeviceSettings (env_GetSerial env) (env_GetOuputDevice env) r
               = (Ret tt, r)).
  { unfold CheckDeviceSettings. rewrite (bind_Ret get _ r r r eq_refl), D. reflexivity. }
  assert (Cd : CreateDevice (Ok None) (env_GetLastSampleEnd env) r = (Ret tt, r)).
  { unfold CreateDevice. run. rewrite D. simpl.
    destruct (m_inputFormat r); [| congruence]. simpl.
    destruct r; simpl in *; subst; reflexivity. }
  assert (Pr : Enqueue_prologue env r = (Ret chunk, r)).
  { unfold Enqueue_prologue.
    rewrite (bind_Ret _ _ _ _ _ Ck), (bind_Ret get _ r r r eq_refl), D. simpl.
    rewrite Cr, (bind_Ret _ _ _ _ _ Cd), Ps. reflexivity. }
  assert (Sy : Enqueue_sync env r = (Ret tt, r)).
  { unfold Enqueue_sync. rewrite (bind_Ret get _ r r r eq_refl), D. reflexivity. }
  assert (Try : Enqueue_try env r = (Ret chunk, r)).
  { unfold Enqueue_try.
    rewrite (bind_Ret _ _ _ _ _ Pr), (bind_Ret _ _ _ _ _ Sy).
    unfold Enqueue_dsp. rewrite (bind_Ret get _ r r r eq_refl), D. reflexivity. }
  unfold Enqueue.
  rewrite (bind_Ret _ _ _ _ _
             (Enqueue_locked_from_try env r chunk r F ltac:(congruence) Try)).
  unfold Push, IsEmpty.
  assert (N : (frameCount chunk =? 0) = false)
    by (apply Z.eqb_neq; unfold GetFrameCount in Hc; lia).
  assert (L : (0 <? GetFrameCount chunk) = true) by (apply Z.ltb_lt; lia).
  rewrite N. cbn [Push_loop]. rewrite L.
  rewrite (bind_Ret (ret false) _ r false r eq_refl). cbv iota.
  rewrite (bind_Ret _ _ _ _ _
             (Push_iteration_sessionless chunk 0 t r D ltac:(congruence))).
  now rewrite Tp.
Qed.

Lemma Enqueue_without_device_witness :
  Enqueue Scenario.no_device [Scenario.tick 480 0 false] Scenario.running_idle
  = (Ret true, Upd.bufferFilled true Scenario.running_idle).
Proof.
  apply (Enqueue_without_device Scenario.no_device (Scenario.tick 480 0 false) []
           Scenario.running_idle Scenario.three_frames); try reflexivity.
  simpl. discriminate.
Defined.

(* ================================================================== *)
(** ** NewSegment *)


